(** * 2-of-2 multisig lock script: shallow embedding and verification

    The contract (contracts/2of2/src/index.ts) reads the script args and the
    witness lock from the CKB environment, validates their layout, recovers
    a public key from each of the two signatures and compares its blake160
    hash with the hash registered in the script args.  It exits with one of
    six codes.

    The embedding keeps the shape of the TypeScript source: one Rocq
    definition per source function, the same constants, and a writer monad
    that records, in program order, every debug message, every environment
    load and every call of a cryptographic binding.  The bindings
    (secp256k1.recover, secp256k1.serializePubkey, hashCkb) are Section
    variables: the development holds for every implementation of them. *)

From Stdlib Require Import String.
From Stdlib Require Import List NArith ZArith Lia Bool PeanoNat.
From Stdlib Require Import Strings.Byte.
Import ListNotations.

(** ** Bytes, typed arrays and JavaScript numbers *)

Definition bytes := list byte.

Definition byte_to_Z (b : byte) : Z := Z.of_N (Byte.to_N b).

(** Reading a Uint8Array at an index gives a number, or [undefined] out of
    range. *)
Inductive jsnum : Type :=
| Undefined
| Num (n : Z).

Definition u8_get (a : bytes) (i : nat) : jsnum :=
  match nth_error a i with
  | Some b => Num (byte_to_Z b)
  | None => Undefined
  end.

(** [x > n]: a comparison with [undefined] is false. *)
Definition js_gt (x : jsnum) (n : Z) : bool :=
  match x with
  | Num v => (n <? v)%Z
  | Undefined => false
  end.

(** [x === y] *)
Definition js_strict_eq (x y : jsnum) : bool :=
  match x, y with
  | Num a, Num b => (a =? b)%Z
  | Undefined, Undefined => true
  | _, _ => false
  end.

(** [a.slice(s, e)] for non-negative [s] and [e]: clamped to the array. *)
Definition slice (a : bytes) (s e : nat) : bytes := firstn (e - s) (skipn s a).

(** [bytesEq] of the library @ckb-js-std/core: true exactly when the two
    buffers have the same length and the same bytes. *)
Fixpoint bytesEq (a b : bytes) : bool :=
  match a, b with
  | [], [] => true
  | x :: a', y :: b' => Byte.eqb x y && bytesEq a' b'
  | _, _ => false
  end.

(** ** Constants of the contract *)

(* Script Args layout constants *)
Definition SCRIPT_ARGS_PREFIX_LENGTH : nat := 2.
Definition CKB_JS_VM_CODE_HASH_LENGTH : nat := 32.
Definition HASH_TYPE_LENGTH : nat := 1.
Definition THRESHOLD_LENGTH : nat := 1.
Definition PUBKEY_COUNT_LENGTH : nat := 1.
Definition PUBKEY_HASH_LENGTH : nat := 20.

Definition PUBKEY_HASH_START_OFFSET : nat :=
  SCRIPT_ARGS_PREFIX_LENGTH +
  CKB_JS_VM_CODE_HASH_LENGTH +
  HASH_TYPE_LENGTH +
  THRESHOLD_LENGTH +
  PUBKEY_COUNT_LENGTH.
Definition FIRST_PUBKEY_HASH_OFFSET : nat := PUBKEY_HASH_START_OFFSET.
Definition SECOND_PUBKEY_HASH_OFFSET : nat :=
  FIRST_PUBKEY_HASH_OFFSET + PUBKEY_HASH_LENGTH.

(* Witness data layout constants *)
Definition SIGNATURE_LENGTH : nat := 65.
Definition PUBKEY_INDEX_LENGTH : nat := 1.
Definition WITNESS_DATA_TOTAL_LENGTH : nat :=
  SIGNATURE_LENGTH * 2 + PUBKEY_INDEX_LENGTH * 2.

(* Witness data offsets *)
Definition FIRST_SIGNATURE_OFFSET : nat := 0.
Definition SECOND_SIGNATURE_OFFSET : nat := SIGNATURE_LENGTH.
Definition FIRST_PUBKEY_INDEX_OFFSET : nat := SIGNATURE_LENGTH * 2.
Definition SECOND_PUBKEY_INDEX_OFFSET : nat :=
  FIRST_PUBKEY_INDEX_OFFSET + PUBKEY_INDEX_LENGTH.

(* Signature verification constants *)
Definition SIGNATURE_DATA_LENGTH : nat := 64.
Definition RECOVERY_ID_OFFSET : nat := 64.
Definition BLAKE160_HASH_LENGTH : nat := 20.

(* Contract exit codes *)
Definition SUCCESS_CODE : Z := 0.
Definition INVALID_SIGNATURE : Z := 1.
Definition INVALID_SCRIPT_ARGS_LENGTH : Z := 2.
Definition INVALID_WITNESS_DATA_LENGTH : Z := 3.
Definition INVALID_PUBKEY_INDEX : Z := 4.
Definition SIGNATURE_RECOVERY_FAILED : Z := 5.

(* Public key indices *)
Definition FIRST_PUBKEY_INDEX : Z := 0.
Definition SECOND_PUBKEY_INDEX : Z := 1.

(* Expected data lengths for validation *)
Definition EXPECTED_SCRIPT_ARGS_LENGTH : nat :=
  PUBKEY_HASH_START_OFFSET + PUBKEY_HASH_LENGTH * 2.
Definition EXPECTED_WITNESS_DATA_LENGTH : nat := WITNESS_DATA_TOTAL_LENGTH.

(** ** The environment of one run

    What the host hands to the script: the args of the running script, the
    lock field of the first witness of the input group (it may be absent)
    and the transaction hash.  A loader that throws (no witness at index 0)
    ends the script before [main] returns; such runs have no exit code of
    the contract and are not modelled. *)
Record Env : Type := mkEnv {
  script_args : bytes;
  witness_lock : option bytes;
  tx_hash : bytes
}.

(** [new Uint8Array(x)]: an absent buffer gives the empty array. *)
Definition new_Uint8Array (x : option bytes) : bytes :=
  match x with
  | Some b => b
  | None => []
  end.

(** ** Observable events *)

(** The text of each [log.debug] call, with the values it interpolates. *)
Inductive debug_msg : Type :=
| MsgSigningMessageHash (h : bytes) (len : nat)
| MsgInvalidScriptArgsLength (len expected : nat)
| MsgWitnessData (w : bytes)
| MsgInvalidWitnessDataLength (len expected : nat)
| MsgInvalidPubkeyIndices (index1 index2 : jsnum)
| MsgSamePubkeyIndex (index : jsnum)
| MsgSignatures (s0 s1 : bytes)
| MsgPubkeyIndices (i0 i1 : jsnum)
| MsgFailedToRecover (signatureName : string)
| MsgInvalidHash (signatureName : string) (recoveredHash expectedHash : bytes)
| MsgTransactionHash (h : bytes)
| MsgInvalidSignatureLength (len expected : nat)
| MsgInvalidRecoveryId (recovery_id : jsnum)
| MsgSignatureRecoveryFailed.

Section Contract.

(** The bindings of the host.  [None] stands for a thrown exception. *)
Variable PubKey : Type.
Variable secp256k1_recover : bytes -> jsnum -> bytes -> option PubKey.
Variable secp256k1_serializePubkey : PubKey -> bool -> option bytes.
Variable hashCkb : bytes -> bytes.

Inductive event : Type :=
| EvDebug (m : debug_msg)
| EvLoadScript
| EvLoadWitnessArgs
| EvLoadTxHash
| EvRecover (signature_data : bytes) (recovery_id : jsnum) (message_hash : bytes)
| EvSerializePubkey (k : PubKey) (compressed : bool)
| EvHashCkb (data : bytes).

(** ** The writer monad of the run *)

Definition M (A : Type) : Type := (A * list event)%type.

Definition ret {A : Type} (a : A) : M A := (a, []).

Definition bind {A B : Type} (m : M A) (k : A -> M B) : M B :=
  let '(a, t1) := m in
  let '(b, t2) := k a in
  (b, t1 ++ t2).

Definition emit (e : event) : M unit := (tt, [e]).

Definition debug (m : debug_msg) : M unit := emit (EvDebug m).

Notation "x <- m ;; k" := (bind m (fun x => k))
  (at level 61, m at next level, right associativity).
Notation "m ;; k" := (bind m (fun _ => k))
  (at level 61, right associativity).

(** ** The contract *)

Record InputData : Type := mkInputData {
  pubkeyHashes : bytes * bytes;
  signatures : bytes * bytes;
  pubkeyIndices : jsnum * jsnum
}.

Definition validatePubkeyIndices (indices : jsnum * jsnum) : M Z :=
  if js_gt (fst indices) SECOND_PUBKEY_INDEX
     || js_gt (snd indices) SECOND_PUBKEY_INDEX then
    debug (MsgInvalidPubkeyIndices (fst indices) (snd indices)) ;;
    ret INVALID_PUBKEY_INDEX
  else if js_strict_eq (fst indices) (snd indices) then
    debug (MsgSamePubkeyIndex (fst indices)) ;;
    ret INVALID_PUBKEY_INDEX
  else
    ret SUCCESS_CODE.

(** The three array literals built by [loadAndValidateInputs]. *)
Definition args_pubkeyHashes (scriptArgs : bytes) : bytes * bytes :=
  (slice scriptArgs FIRST_PUBKEY_HASH_OFFSET
         (FIRST_PUBKEY_HASH_OFFSET + PUBKEY_HASH_LENGTH),
   slice scriptArgs SECOND_PUBKEY_HASH_OFFSET
         (SECOND_PUBKEY_HASH_OFFSET + PUBKEY_HASH_LENGTH)).

Definition witness_signatures (witnessData : bytes) : bytes * bytes :=
  (slice witnessData FIRST_SIGNATURE_OFFSET
         (FIRST_SIGNATURE_OFFSET + SIGNATURE_LENGTH),
   slice witnessData SECOND_SIGNATURE_OFFSET
         (SECOND_SIGNATURE_OFFSET + SIGNATURE_LENGTH)).

Definition witness_pubkeyIndices (witnessData : bytes) : jsnum * jsnum :=
  (u8_get witnessData FIRST_PUBKEY_INDEX_OFFSET,
   u8_get witnessData SECOND_PUBKEY_INDEX_OFFSET).

Definition loadAndValidateInputs (env : Env) : M (Z + InputData) :=
  emit EvLoadScript ;;
  let scriptArgs := new_Uint8Array (Some (script_args env)) in
  if (length scriptArgs <? EXPECTED_SCRIPT_ARGS_LENGTH)%nat then
    debug (MsgInvalidScriptArgsLength (length scriptArgs)
                                      EXPECTED_SCRIPT_ARGS_LENGTH) ;;
    ret (inl INVALID_SCRIPT_ARGS_LENGTH)
  else
    let pubkeyHashes := args_pubkeyHashes scriptArgs in
    emit EvLoadWitnessArgs ;;
    let witnessData := new_Uint8Array (witness_lock env) in
    debug (MsgWitnessData witnessData) ;;
    if negb (length witnessData =? EXPECTED_WITNESS_DATA_LENGTH)%nat then
      debug (MsgInvalidWitnessDataLength (length witnessData)
                                         EXPECTED_WITNESS_DATA_LENGTH) ;;
      ret (inl INVALID_WITNESS_DATA_LENGTH)
    else
      let signatures := witness_signatures witnessData in
      let pubkeyIndices := witness_pubkeyIndices witnessData in
      validationResult <- validatePubkeyIndices pubkeyIndices ;;
      if negb (validationResult =? SUCCESS_CODE)%Z then
        ret (inl validationResult)
      else
        debug (MsgSignatures (fst signatures) (snd signatures)) ;;
        debug (MsgPubkeyIndices (fst pubkeyIndices) (snd pubkeyIndices)) ;;
        ret (inr (mkInputData pubkeyHashes signatures pubkeyIndices)).

Definition getExpectedHash (pubkeyHashes : bytes * bytes)
                           (pubkeyIndex : jsnum) : bytes :=
  if js_strict_eq pubkeyIndex (Num FIRST_PUBKEY_INDEX)
  then fst pubkeyHashes
  else snd pubkeyHashes.

Definition getSigningMessageHash (env : Env) : M bytes :=
  emit EvLoadTxHash ;;
  let txHash := tx_hash env in
  debug (MsgTransactionHash txHash) ;;
  ret (new_Uint8Array (Some txHash)).

Definition recoverPublicKey (message_hash signature : bytes)
  : M (option bytes) :=
  if negb (length signature =? SIGNATURE_LENGTH)%nat then
    debug (MsgInvalidSignatureLength (length signature) SIGNATURE_LENGTH) ;;
    ret None
  else
    let signature_data := slice signature 0 SIGNATURE_DATA_LENGTH in
    let recovery_id := u8_get signature RECOVERY_ID_OFFSET in
    if js_gt recovery_id 3 then
      debug (MsgInvalidRecoveryId recovery_id) ;;
      ret None
    else
      emit (EvRecover signature_data recovery_id message_hash) ;;
      match secp256k1_recover signature_data recovery_id message_hash with
      | None =>
          debug MsgSignatureRecoveryFailed ;;
          ret None
      | Some recovered_pubkey =>
          emit (EvSerializePubkey recovered_pubkey false) ;;
          match secp256k1_serializePubkey recovered_pubkey false with
          | None =>
              debug MsgSignatureRecoveryFailed ;;
              ret None
          | Some serialized =>
              ret (Some (new_Uint8Array (Some serialized)))
          end
      end.

Definition hashPublicKey (pubkey : bytes) : M bytes :=
  emit (EvHashCkb pubkey) ;;
  let hash := hashCkb pubkey in
  ret (new_Uint8Array (Some (slice hash 0 BLAKE160_HASH_LENGTH))).

Record SignatureVerificationParams : Type := mkParams {
  p_messageHash : bytes;
  p_signature : bytes;
  p_pubkeyHashes : bytes * bytes;
  p_pubkeyIndex : jsnum;
  p_signatureName : string
}.

Definition verifySignature (params : SignatureVerificationParams) : M Z :=
  let messageHash := p_messageHash params in
  let signature := p_signature params in
  let pubkeyHashes := p_pubkeyHashes params in
  let pubkeyIndex := p_pubkeyIndex params in
  let signatureName := p_signatureName params in
  recoveredPubkey <- recoverPublicKey messageHash signature ;;
  match recoveredPubkey with
  | None =>
      debug (MsgFailedToRecover signatureName) ;;
      ret SIGNATURE_RECOVERY_FAILED
  | Some recoveredPubkey =>
      recoveredHash <- hashPublicKey recoveredPubkey ;;
      let expectedHash := getExpectedHash pubkeyHashes pubkeyIndex in
      if negb (bytesEq recoveredHash expectedHash) then
        debug (MsgInvalidHash signatureName recoveredHash expectedHash) ;;
        ret INVALID_SIGNATURE
      else
        ret SUCCESS_CODE
  end.

Definition main (env : Env) : M Z :=
  inputData <- loadAndValidateInputs env ;;
  match inputData with
  | inl code => ret code
  | inr inputData =>
      let pubkeyHashes := pubkeyHashes inputData in
      let signatures := signatures inputData in
      let pubkeyIndices := pubkeyIndices inputData in
      signingMessageHash <- getSigningMessageHash env ;;
      debug (MsgSigningMessageHash signingMessageHash
                                   (length signingMessageHash)) ;;
      firstSigResult <- verifySignature
        (mkParams signingMessageHash (fst signatures) pubkeyHashes
                  (fst pubkeyIndices) "signature1"%string) ;;
      if negb (firstSigResult =? SUCCESS_CODE)%Z then
        ret firstSigResult
      else
        secondSigResult <- verifySignature
          (mkParams signingMessageHash (snd signatures) pubkeyHashes
                    (snd pubkeyIndices) "signature2"%string) ;;
        if negb (secondSigResult =? SUCCESS_CODE)%Z then
          ret secondSigResult
        else
          ret SUCCESS_CODE
  end.

End Contract.

Arguments EvDebug {PubKey}.
Arguments EvLoadScript {PubKey}.
Arguments EvLoadWitnessArgs {PubKey}.
Arguments EvLoadTxHash {PubKey}.
Arguments EvRecover {PubKey}.
Arguments EvSerializePubkey {PubKey}.
Arguments EvHashCkb {PubKey}.
Arguments validatePubkeyIndices {PubKey}.
Arguments loadAndValidateInputs {PubKey}.
Arguments getSigningMessageHash {PubKey}.
Arguments recoverPublicKey {PubKey}.
Arguments hashPublicKey {PubKey}.
Arguments verifySignature {PubKey}.
Arguments main {PubKey}.

(** ** The pipeline as the specification words it

    Section 4 of the specification describes the verifier as six components
    run in a fixed order, the first failure giving the outcome.  The
    definitions below follow that text, independently of the code above, so
    that the two can be compared. *)

Section Specification.

Variable PubKey : Type.
Variable secp256k1_recover : bytes -> jsnum -> bytes -> option PubKey.
Variable secp256k1_serializePubkey : PubKey -> bool -> option bytes.
Variable hashCkb : bytes -> bytes.

(** The byte at an offset of a buffer, as a number. *)
Definition byte_at (buffer : bytes) (offset : nat) : Z :=
  byte_to_Z (nth offset buffer x00).

(** 4.1 ConfigParser: the buffer holds the prefix and two fingerprints. *)
Definition spec_prefix_length : nat := 2 + 32 + 1 + 1 + 1.

Definition ConfigParser_ok (config : bytes) : bool :=
  (spec_prefix_length + 40 <=? length config)%nat.

Definition KeyFingerprintPair (config : bytes) (selector : Z) : bytes :=
  if (selector =? 0)%Z
  then firstn 20 (skipn spec_prefix_length config)
  else firstn 20 (skipn (spec_prefix_length + 20) config).

(** 4.2 AuthorizationParser: exactly 132 bytes, fixed offsets. *)
Definition AuthorizationParser_ok (proof : bytes) : bool :=
  (length proof =? 132)%nat.

Definition spec_signature (proof : bytes) (i : nat) : bytes :=
  firstn 65 (skipn (65 * i) proof).

Definition spec_selector (proof : bytes) (i : nat) : Z :=
  byte_at proof (130 + i).

(** 4.3 IndexValidator: both selectors in {0,1}, and distinct. *)
Definition selector_in_range (s : Z) : bool := ((s =? 0) || (s =? 1))%Z.

Definition IndexValidator_ok (s0 s1 : Z) : bool :=
  selector_in_range s0 && selector_in_range s1 && negb (s0 =? s1)%Z.

(** 4.4 KeyRecoverer: the discriminant is in 0-3 and the primitive accepts. *)
Definition KeyRecoverer (messageHash signature : bytes) : option bytes :=
  let discriminant := byte_at signature 64 in
  if ((0 <=? discriminant) && (discriminant <=? 3))%Z then
    match secp256k1_recover (firstn 64 signature) (Num discriminant)
                            messageHash with
    | Some key => secp256k1_serializePubkey key false
    | None => None
    end
  else None.

(** 4.5 FingerprintHasher: the first 20 bytes of the content hash. *)
Definition FingerprintHasher (key : bytes) : bytes := firstn 20 (hashCkb key).

(** Steps 5a-5d for signature [i]: two checks, recovery then fingerprint. *)
Definition recovery_passes (proof messageHash : bytes) (i : nat) : bool :=
  match KeyRecoverer messageHash (spec_signature proof i) with
  | Some _ => true
  | None => false
  end.

Definition fingerprint_passes (config proof messageHash : bytes) (i : nat)
  : bool :=
  match KeyRecoverer messageHash (spec_signature proof i) with
  | Some key =>
      if list_eq_dec byte_eq_dec
           (FingerprintHasher key)
           (KeyFingerprintPair config (spec_selector proof i))
      then true else false
  | None => false
  end.

(** 4.6 Verifier: the checks in their fixed order, each with the outcome
    code it reports when it fails. *)
Definition pipeline (config proof messageHash : bytes) : list (bool * Z) :=
  [ (ConfigParser_ok config, 2%Z);
    (AuthorizationParser_ok proof, 3%Z);
    (IndexValidator_ok (spec_selector proof 0) (spec_selector proof 1), 4%Z);
    (recovery_passes proof messageHash 0, 5%Z);
    (fingerprint_passes config proof messageHash 0, 1%Z);
    (recovery_passes proof messageHash 1, 5%Z);
    (fingerprint_passes config proof messageHash 1, 1%Z) ].

(** The code of the first check that fails, or success. *)
Fixpoint first_failure (checks : list (bool * Z)) : Z :=
  match checks with
  | [] => 0%Z
  | (passes, code) :: rest => if passes then first_failure rest else code
  end.

Definition spec_verify (config proof messageHash : bytes) : Z :=
  first_failure (pipeline config proof messageHash).

End Specification.

Arguments KeyRecoverer {PubKey}.
Arguments recovery_passes {PubKey}.
Arguments fingerprint_passes {PubKey}.
Arguments pipeline {PubKey}.
Arguments spec_verify {PubKey}.

(** ** Trace observations *)

Section TraceObservations.

Variable PubKey : Type.

Definition is_recover_call (e : event PubKey) : bool :=
  match e with
  | EvRecover _ _ _ => true
  | _ => false
  end.

Definition is_hash_call (e : event PubKey) : bool :=
  match e with
  | EvHashCkb _ => true
  | _ => false
  end.

(** The calls of the cryptographic bindings, in program order. *)
Definition is_binding_call (e : event PubKey) : bool :=
  match e with
  | EvRecover _ _ _ | EvSerializePubkey _ _ | EvHashCkb _ => true
  | _ => false
  end.

Definition binding_calls (t : list (event PubKey)) : list (event PubKey) :=
  filter is_binding_call t.

(** What secp256k1.recover requires of its arguments: a 64-byte payload
    and a recovery id that is a number from 0 to 3. *)
Definition recover_precondition (e : event PubKey) : Prop :=
  match e with
  | EvRecover signature_data recovery_id _ =>
      length signature_data = 64 /\
      exists n, recovery_id = Num n /\ (0 <= n <= 3)%Z
  | _ => True
  end.

(** The message of the signature-length branch of [recoverPublicKey]. *)
Definition is_signature_length_failure (e : event PubKey) : bool :=
  match e with
  | EvDebug (MsgInvalidSignatureLength _ _) => true
  | _ => false
  end.

End TraceObservations.

Arguments is_recover_call {PubKey}.
Arguments is_hash_call {PubKey}.
Arguments is_binding_call {PubKey}.
Arguments binding_calls {PubKey}.
Arguments recover_precondition {PubKey}.
Arguments is_signature_length_failure {PubKey}.

(** ** The order of the verifier's steps, as the specification words it

    Section 4.6 of the specification lists what the verifier does, in
    order, and where it stops.  What can be observed of a run from outside
    are its steps: the three loads of the environment and the calls of the
    bindings.  The definitions below follow that text, so that the trace of
    the code can be compared with it. *)

Section ExpectedOrder.

Variable PubKey : Type.
Variable secp256k1_recover : bytes -> jsnum -> bytes -> option PubKey.
Variable secp256k1_serializePubkey : PubKey -> bool -> option bytes.
Variable hashCkb : bytes -> bytes.

(** The steps of a trace: everything but the debug messages, in order. *)
Definition is_step (e : event PubKey) : bool :=
  match e with
  | EvDebug _ => false
  | _ => true
  end.

Definition steps (t : list (event PubKey)) : list (event PubKey) :=
  filter is_step t.

(** Steps 5a and 5b for one signature: with a discriminant in 0-3 the
    recovery primitive is invoked once; the key it reconstructs is
    serialized once, uncompressed; the serialized key is hashed once.  A
    failure ends the list where it happens. *)
Definition signature_steps (messageHash signature : bytes)
  : list (event PubKey) :=
  let discriminant := byte_at signature 64 in
  if ((0 <=? discriminant) && (discriminant <=? 3))%Z then
    EvRecover (firstn 64 signature) (Num discriminant) messageHash ::
    match secp256k1_recover (firstn 64 signature) (Num discriminant)
                            messageHash with
    | None => []
    | Some key =>
        EvSerializePubkey key false ::
        match secp256k1_serializePubkey key false with
        | None => []
        | Some serialized => [EvHashCkb serialized]
        end
    end
  else [].

(** Iteration [i] of step 5 passes: the key is recovered and its
    fingerprint is the expected one. *)
Definition signature_passes (config proof messageHash : bytes) (i : nat)
  : bool :=
  recovery_passes secp256k1_recover secp256k1_serializePubkey
                  proof messageHash i
  && fingerprint_passes secp256k1_recover secp256k1_serializePubkey hashCkb
                        config proof messageHash i.

(** Steps 1 to 6: load the configuration; if it parses, load the proof; if
    it parses and the selectors are valid, obtain the message hash, then
    signature 0, then, only if signature 0 passed, signature 1. *)
Definition expected_steps (config proof messageHash : bytes)
  : list (event PubKey) :=
  EvLoadScript ::
  if ConfigParser_ok config then
    EvLoadWitnessArgs ::
    if AuthorizationParser_ok proof
       && IndexValidator_ok (spec_selector proof 0) (spec_selector proof 1)
    then
      EvLoadTxHash ::
      signature_steps messageHash (spec_signature proof 0) ++
      if signature_passes config proof messageHash 0
      then signature_steps messageHash (spec_signature proof 1)
      else []
    else []
  else [].

End ExpectedOrder.

Arguments is_step {PubKey}.
Arguments steps {PubKey}.
Arguments signature_steps {PubKey}.
Arguments signature_passes {PubKey}.
Arguments expected_steps {PubKey}.

(** ** Executions on a host whose bindings need not be pure

    In [main] above the bindings are functions, so one input has one run.
    To speak of two executions that might differ, the bindings are taken
    here as relations between the arguments of a call and what the call
    gives back ([None]: it throws): a binding that keeps hidden state or
    draws random numbers relates one call to several answers.  The script
    args, the witness and the transaction hash are those of [Env].  Each
    relation follows one source function, one constructor for each path to
    one of its [return] statements. *)

Section Executions.

Variable PubKey : Type.
Variable recover_answers : bytes -> jsnum -> bytes -> option PubKey -> Prop.
Variable serializePubkey_answers : PubKey -> bool -> option bytes -> Prop.
Variable hashCkb_answers : bytes -> bytes -> Prop.

Inductive recoverPublicKey_returns (message_hash signature : bytes)
  : option bytes -> Prop :=
| invalid_signature_length :
    length signature <> SIGNATURE_LENGTH ->
    recoverPublicKey_returns message_hash signature None
| invalid_recovery_id :
    length signature = SIGNATURE_LENGTH ->
    js_gt (u8_get signature RECOVERY_ID_OFFSET) 3 = true ->
    recoverPublicKey_returns message_hash signature None
| recover_throws :
    length signature = SIGNATURE_LENGTH ->
    js_gt (u8_get signature RECOVERY_ID_OFFSET) 3 = false ->
    recover_answers (slice signature 0 SIGNATURE_DATA_LENGTH)
                    (u8_get signature RECOVERY_ID_OFFSET) message_hash None ->
    recoverPublicKey_returns message_hash signature None
| serializePubkey_throws (recovered_pubkey : PubKey) :
    length signature = SIGNATURE_LENGTH ->
    js_gt (u8_get signature RECOVERY_ID_OFFSET) 3 = false ->
    recover_answers (slice signature 0 SIGNATURE_DATA_LENGTH)
                    (u8_get signature RECOVERY_ID_OFFSET) message_hash
                    (Some recovered_pubkey) ->
    serializePubkey_answers recovered_pubkey false None ->
    recoverPublicKey_returns message_hash signature None
| pubkey_recovered (recovered_pubkey : PubKey) (serialized : bytes) :
    length signature = SIGNATURE_LENGTH ->
    js_gt (u8_get signature RECOVERY_ID_OFFSET) 3 = false ->
    recover_answers (slice signature 0 SIGNATURE_DATA_LENGTH)
                    (u8_get signature RECOVERY_ID_OFFSET) message_hash
                    (Some recovered_pubkey) ->
    serializePubkey_answers recovered_pubkey false (Some serialized) ->
    recoverPublicKey_returns message_hash signature
                             (Some (new_Uint8Array (Some serialized))).

Inductive hashPublicKey_returns (pubkey : bytes) : bytes -> Prop :=
| pubkey_hashed (hash : bytes) :
    hashCkb_answers pubkey hash ->
    hashPublicKey_returns pubkey
      (new_Uint8Array (Some (slice hash 0 BLAKE160_HASH_LENGTH))).

Inductive verifySignature_returns (params : SignatureVerificationParams)
  : Z -> Prop :=
| recovery_failed :
    recoverPublicKey_returns (p_messageHash params) (p_signature params)
                             None ->
    verifySignature_returns params SIGNATURE_RECOVERY_FAILED
| hash_differs (recoveredPubkey recoveredHash : bytes) :
    recoverPublicKey_returns (p_messageHash params) (p_signature params)
                             (Some recoveredPubkey) ->
    hashPublicKey_returns recoveredPubkey recoveredHash ->
    bytesEq recoveredHash
            (getExpectedHash (p_pubkeyHashes params) (p_pubkeyIndex params))
      = false ->
    verifySignature_returns params INVALID_SIGNATURE
| hash_matches (recoveredPubkey recoveredHash : bytes) :
    recoverPublicKey_returns (p_messageHash params) (p_signature params)
                             (Some recoveredPubkey) ->
    hashPublicKey_returns recoveredPubkey recoveredHash ->
    bytesEq recoveredHash
            (getExpectedHash (p_pubkeyHashes params) (p_pubkeyIndex params))
      = true ->
    verifySignature_returns params SUCCESS_CODE.

(** The parameters [main] passes for its first and its second signature. *)
Definition first_params (env : Env) (inputData : InputData)
  : SignatureVerificationParams :=
  mkParams (fst (@getSigningMessageHash PubKey env))
           (fst (signatures inputData)) (pubkeyHashes inputData)
           (fst (pubkeyIndices inputData)) "signature1"%string.

Definition second_params (env : Env) (inputData : InputData)
  : SignatureVerificationParams :=
  mkParams (fst (@getSigningMessageHash PubKey env))
           (snd (signatures inputData)) (pubkeyHashes inputData)
           (snd (pubkeyIndices inputData)) "signature2"%string.

Inductive main_returns (env : Env) : Z -> Prop :=
| inputs_rejected (code : Z) :
    fst (@loadAndValidateInputs PubKey env) = inl code ->
    main_returns env code
| first_signature_fails (inputData : InputData) (firstSigResult : Z) :
    fst (@loadAndValidateInputs PubKey env) = inr inputData ->
    verifySignature_returns (first_params env inputData) firstSigResult ->
    firstSigResult <> SUCCESS_CODE ->
    main_returns env firstSigResult
| second_signature_fails (inputData : InputData) (secondSigResult : Z) :
    fst (@loadAndValidateInputs PubKey env) = inr inputData ->
    verifySignature_returns (first_params env inputData) SUCCESS_CODE ->
    verifySignature_returns (second_params env inputData) secondSigResult ->
    secondSigResult <> SUCCESS_CODE ->
    main_returns env secondSigResult
| both_signatures_pass (inputData : InputData) :
    fst (@loadAndValidateInputs PubKey env) = inr inputData ->
    verifySignature_returns (first_params env inputData) SUCCESS_CODE ->
    verifySignature_returns (second_params env inputData) SUCCESS_CODE ->
    main_returns env SUCCESS_CODE.

End Executions.

Arguments recoverPublicKey_returns {PubKey}.
Arguments verifySignature_returns {PubKey}.
Arguments main_returns {PubKey}.

(** A pure binding, as a relation: the one answer of each call is the value
    of a function of the arguments. *)
Definition recover_of {PubKey : Type}
    (recover : bytes -> jsnum -> bytes -> option PubKey)
  : bytes -> jsnum -> bytes -> option PubKey -> Prop :=
  fun signature_data recovery_id message_hash answer =>
    answer = recover signature_data recovery_id message_hash.

Definition serializePubkey_of {PubKey : Type}
    (serializePubkey : PubKey -> bool -> option bytes)
  : PubKey -> bool -> option bytes -> Prop :=
  fun pubkey compressed answer => answer = serializePubkey pubkey compressed.

Definition hashCkb_of (hashCkb : bytes -> bytes) : bytes -> bytes -> Prop :=
  fun data answer => answer = hashCkb data.

(** A recovery binding that is not pure: it may answer anything. *)
Definition erratic_recover {PubKey : Type}
  : bytes -> jsnum -> bytes -> option PubKey -> Prop :=
  fun _ _ _ _ => True.

(** ** Deterministic stand-ins for the bindings, and sample inputs

    Used to run the contract on concrete buffers.  The stand-in recovery
    rejects a payload that starts with 0xff and otherwise returns the
    payload as the key; serialization prefixes 0x04; the hash is the
    identity. *)

Module Sample.

Definition PubKey : Type := bytes.

Definition recover (signature_data : bytes) (recovery_id : jsnum)
                   (message_hash : bytes) : option PubKey :=
  match signature_data with
  | xff :: _ => None
  | _ => Some signature_data
  end.

Definition serializePubkey (k : PubKey) (compressed : bool) : option bytes :=
  Some (x04 :: k).

Definition hashCkb (data : bytes) : bytes := data.

Definition run (env : Env) : Z * list (event PubKey) :=
  main recover serializePubkey hashCkb env.

(** A signature whose payload repeats [b], with recovery id [r]. *)
Definition sig (b r : byte) : bytes := repeat b 64 ++ [r].

(** The fingerprint the stand-ins give to [sig b _]. *)
Definition fp (b : byte) : bytes := x04 :: repeat b 19.

Definition prefix : bytes := repeat x00 37.
Definition config : bytes := prefix ++ fp x0a ++ fp x0b.
Definition txHash : bytes := repeat x11 32.

Definition proof (s0 s1 : bytes) (i0 i1 : byte) : bytes :=
  s0 ++ s1 ++ [i0; i1].

Definition env_of (cfg prf : bytes) : Env := mkEnv cfg (Some prf) txHash.

(** Both signatures valid, selectors (0,1). *)
Definition good_proof : bytes := proof (sig x0a x00) (sig x0b x01) x00 x01.
Definition good : Env := env_of config good_proof.

(** The same configuration behind another 37-byte prefix. *)
Definition other_prefix : bytes := repeat xff 37.
Definition good_other_prefix : Env :=
  env_of (other_prefix ++ fp x0a ++ fp x0b) good_proof.

(** Script args truncated to 30 bytes. *)
Definition short_config : Env := env_of (repeat x00 30) good_proof.

(** Witness data of 100 bytes. *)
Definition short_proof : Env := env_of config (repeat x00 100).

(** Selectors (0,0). *)
Definition same_selectors : Env :=
  env_of config (proof (sig x0a x00) (sig x0b x01) x00 x00).

(** Recovery id 7 in signature 0. *)
Definition bad_recovery_id_proof : bytes :=
  proof (sig x0a x07) (sig x0b x01) x00 x01.
Definition bad_recovery_id : Env := env_of config bad_recovery_id_proof.

(** Recovery id 7 in signature 0, and no script args at all. *)
Definition bad_recovery_id_no_config : Env := env_of [] bad_recovery_id_proof.

(** Signature 0 made with the key of slot 1. *)
Definition wrong_key_slot0 : Env :=
  env_of config (proof (sig x0b x00) (sig x0b x01) x00 x01).

End Sample.

(** ** Outcomes of one signature check

    Vocabulary for stating what an exit code means, in terms of the
    bindings. *)

Section Outcomes.

Variable PubKey : Type.
Variable secp256k1_recover : bytes -> jsnum -> bytes -> option PubKey.
Variable secp256k1_serializePubkey : PubKey -> bool -> option bytes.
Variable hashCkb : bytes -> bytes.

(** [key] is the serialized key recovered from a 65-byte signature: the
    recovery id (last byte) is at most 3, the binding recovers a key from
    the first 64 bytes and serializes it, uncompressed, to [key]. *)
Definition recovered_key (message_hash signature key : bytes) : Prop :=
  length signature = 65
  /\ (byte_at signature 64 <= 3)%Z
  /\ exists k,
       secp256k1_recover (firstn 64 signature) (Num (byte_at signature 64))
                         message_hash = Some k
       /\ secp256k1_serializePubkey k false = Some key.

(** No key comes out of the signature: wrong length, recovery id above 3,
    or one of the two bindings throws. *)
Definition recovery_rejected (message_hash signature : bytes) : Prop :=
  length signature <> 65
  \/ (3 < byte_at signature 64)%Z
  \/ secp256k1_recover (firstn 64 signature) (Num (byte_at signature 64))
                       message_hash = None
  \/ exists k,
       secp256k1_recover (firstn 64 signature) (Num (byte_at signature 64))
                         message_hash = Some k
       /\ secp256k1_serializePubkey k false = None.

Definition signature_matches (message_hash signature expected : bytes)
  : Prop :=
  exists key, recovered_key message_hash signature key
              /\ firstn 20 (hashCkb key) = expected.

Definition signature_mismatches (message_hash signature expected : bytes)
  : Prop :=
  exists key, recovered_key message_hash signature key
              /\ firstn 20 (hashCkb key) <> expected.

(** The two registered hashes, and the two signatures and index bytes of
    the witness. *)
Definition registered_hash (config : bytes) (slot : nat) : bytes :=
  firstn 20 (skipn (37 + 20 * slot) config).

Definition witness_signature (w : bytes) (i : nat) : bytes :=
  firstn 65 (skipn (65 * i) w).

(** The inputs pass the three structural checks: at least 77 bytes of
    script args, 132 bytes of witness data, index bytes (0,1) or (1,0). *)
Definition inputs_accepted (env : Env) : Prop :=
  let w := new_Uint8Array (witness_lock env) in
  77 <= length (script_args env) /\ length w = 132
  /\ ((byte_at w 130 = 0 /\ byte_at w 131 = 1)
      \/ (byte_at w 130 = 1 /\ byte_at w 131 = 0))%Z.

(** The registered hash that the index byte of signature [i] selects. *)
Definition selected_hash (env : Env) (i : nat) : bytes :=
  registered_hash (script_args env)
    (Z.to_nat (byte_at (new_Uint8Array (witness_lock env)) (130 + i))).

(** Where each argument of a binding call comes from: the recovery binding
    gets the transaction hash and the payload and recovery id of one of the
    two signatures of the witness, the serialization is asked for the
    uncompressed form of a key the recovery binding returned, and the hash
    binding gets a key the serialization returned. *)
Definition binding_call_justified (env : Env) (e : event PubKey) : Prop :=
  let w := new_Uint8Array (witness_lock env) in
  match e with
  | EvRecover signature_data recovery_id message_hash =>
      message_hash = tx_hash env
      /\ exists i, i < 2
           /\ signature_data = firstn 64 (skipn (65 * i) w)
           /\ recovery_id = Num (byte_at w (65 * i + 64))
  | EvSerializePubkey k compressed =>
      compressed = false
      /\ exists signature_data recovery_id,
           secp256k1_recover signature_data recovery_id (tx_hash env) = Some k
  | EvHashCkb data =>
      exists k, secp256k1_serializePubkey k false = Some data
  | _ => True
  end.

End Outcomes.

Arguments recovered_key {PubKey}.
Arguments recovery_rejected {PubKey}.
Arguments signature_matches {PubKey}.
Arguments signature_mismatches {PubKey}.
Arguments binding_call_justified {PubKey}.

(** ** The inputs built by the tests

    The devnet test (tests/2of2.devnet.test.ts) and one mock test
    (tests/2of2.mock.test.ts, 'invalid script args length') build the
    script args and the witness data in line, with typed-array writes and a
    concatenation of hex strings.  The hex strings are modelled by the bytes
    they denote: [codeHash] is the 32-byte code hash of the deployed
    contract and [hashType] the single byte of [hashTypeToBytes]. *)

(** [new Uint8Array(n)] *)
Definition zeros (n : nat) : bytes := repeat x00 n.

(** [a[i] = v] on a typed array; a write past the end is ignored. *)
Definition u8_store (a : bytes) (i : nat) (v : byte) : bytes :=
  if (i <? length a)%nat then firstn i a ++ v :: skipn (S i) a else a.

(** [a.set(src, offset)]; [None] is the RangeError raised when [src] does
    not fit. *)
Definition u8_set (a src : bytes) (offset : nat) : option bytes :=
  if (length a <? offset + length src)%nat then None
  else Some (firstn offset a ++ src ++ skipn (offset + length src) a).

(** ['0x0000' + codeHash + hashType + scriptArgs], as bytes. *)
Definition mainScript_args (codeHash : bytes) (hashType : byte)
                           (scriptArgs : bytes) : bytes :=
  [x00; x00] ++ codeHash ++ [hashType] ++ scriptArgs.

Module DevnetTest.

Definition build_scriptArgs (pubkeyHash1 pubkeyHash2 : bytes) : option bytes :=
  let scriptArgs := zeros 42 in
  let scriptArgs := u8_store scriptArgs 0 x02 in
  let scriptArgs := u8_store scriptArgs 1 x02 in
  match u8_set scriptArgs pubkeyHash1 2 with
  | None => None
  | Some scriptArgs => u8_set scriptArgs pubkeyHash2 22
  end.

Definition build_witnessData (signature1 signature2 : bytes) : option bytes :=
  let witnessData := zeros 132 in
  match u8_set witnessData signature1 0 with
  | None => None
  | Some witnessData =>
      match u8_set witnessData signature2 65 with
      | None => None
      | Some witnessData =>
          let witnessData := u8_store witnessData 130 x00 in
          let witnessData := u8_store witnessData 131 x01 in
          Some witnessData
      end
  end.

(** The environment the contract sees when the transaction built by the
    test is verified; [None] when a typed-array write raised. *)
Definition build_env (codeHash : bytes) (hashType : byte)
                     (pubkeyHash1 pubkeyHash2 signature1 signature2 tx : bytes)
  : option Env :=
  match build_scriptArgs pubkeyHash1 pubkeyHash2,
        build_witnessData signature1 signature2 with
  | Some scriptArgs, Some witnessData =>
      Some (mkEnv (mainScript_args codeHash hashType scriptArgs)
                  (Some witnessData) tx)
  | _, _ => None
  end.

End DevnetTest.

Module MockTest.

(** The script args of the test 'invalid script args length'. *)
Definition shortArgs : bytes :=
  let shortArgs := zeros 30 in
  let shortArgs := u8_store shortArgs 0 x02 in
  let shortArgs := u8_store shortArgs 1 x02 in
  shortArgs.

Definition short_mainScript_args (codeHash : bytes) (hashType : byte)
  : bytes :=
  mainScript_args codeHash hashType shortArgs.

End MockTest.

(** More sample inputs for the stand-in bindings. *)

Module SampleMore.

(** The same key hash registered in both slots, the same signature twice. *)
Definition twin_config : bytes :=
  Sample.prefix ++ Sample.fp x0a ++ Sample.fp x0a.
Definition twin : Env :=
  Sample.env_of twin_config
    (Sample.proof (Sample.sig x0a x00) (Sample.sig x0a x00) x00 x01).

(** The two signatures and the two index bytes of [Sample.good],
    exchanged. *)
Definition swapped : Env :=
  Sample.env_of Sample.config
    (Sample.proof (Sample.sig x0b x01) (Sample.sig x0a x00) x01 x00).

(** Another prefix and two bytes appended after the key hashes. *)
Definition padded_config : bytes :=
  Sample.other_prefix ++ Sample.fp x0a ++ Sample.fp x0b ++ [xff; xff].

Definition codeHash : bytes := repeat x11 32.

End SampleMore.

(** ** The message hash decoded by the devnet test

    The test turns the hexadecimal transaction hash into the 32 bytes that
    are signed:
      messageHash = new Uint8Array(32); hashStr = secondTxHash.slice(2);
      for (i = 0; i < 32; i++)
        messageHash[i] = parseInt(hashStr.substr(i * 2, 2), 16).
    Strings are lists of characters.  [parseInt] is the language built-in,
    taken as a parameter; [None] is its result NaN. *)

(** [s.substr(start, length)] for non-negative arguments. *)
Definition substr (s : list Ascii.ascii) (start len : nat)
  : list Ascii.ascii :=
  firstn len (skipn start s).

(** Storing a number in a Uint8Array: NaN becomes 0, an integer is taken
    modulo 256. *)
Definition ToUint8 (n : option Z) : byte :=
  match n with
  | None => x00
  | Some z =>
      match Byte.of_N (Z.to_N (z mod 256)) with
      | Some b => b
      | None => x00
      end
  end.

Definition decode_messageHash
           (parseInt : list Ascii.ascii -> Z -> option Z)
           (secondTxHash : list Ascii.ascii) : bytes :=
  let messageHash := zeros 32 in
  let hashStr := skipn 2 secondTxHash in
  fold_left
    (fun messageHash i =>
       u8_store messageHash i
                (ToUint8 (parseInt (substr hashStr (i * 2) 2) 16%Z)))
    (seq 0 32) messageHash.

(** The value of a hexadecimal digit, and the usual lower-case hexadecimal
    text of bytes, used to state what the loop decodes. *)
Definition hex_digit (n : N) : Ascii.ascii :=
  Ascii.ascii_of_N (if (n <? 10)%N then 48 + n else 87 + n).

Definition hex_value (c : Ascii.ascii) : option Z :=
  let n := Ascii.N_of_ascii c in
  if ((48 <=? n) && (n <=? 57))%N then Some (Z.of_N (n - 48))
  else if ((97 <=? n) && (n <=? 102))%N then Some (Z.of_N (n - 87))
  else if ((65 <=? n) && (n <=? 70))%N then Some (Z.of_N (n - 55))
  else None.

Definition hex_of_byte (b : byte) : list Ascii.ascii :=
  [hex_digit (Byte.to_N b / 16); hex_digit (Byte.to_N b mod 16)].

Definition hex_of_bytes (bs : bytes) : list Ascii.ascii :=
  flat_map hex_of_byte bs.

(** A stand-in for [parseInt] on hexadecimal text: NaN unless every
    character is a hexadecimal digit. *)
Fixpoint parse_hex_digits (acc : Z) (s : list Ascii.ascii) : option Z :=
  match s with
  | [] => Some acc
  | c :: s' =>
      match hex_value c with
      | Some v => parse_hex_digits (16 * acc + v) s'
      | None => None
      end
  end.

Definition sample_parseInt (s : list Ascii.ascii) (radix : Z) : option Z :=
  match s with
  | [] => None
  | _ => parse_hex_digits 0 s
  end.

(** * The snake game of the front end

    frontend/src/components/SnakeGame.tsx.  The component keeps the game
    state with React's useState and updates it with updater functions
    (prevState => newState); the pending directions are a mutable queue
    (directionQueue.current), and the food is placed with Math.random.
    Each updater is embedded as a function of the previous state, the queue
    and the random draws still to come, returning the new ones.  The draws
    are the successive values of Math.floor(Math.random() * GRID_SIZE). *)

Module SnakeGame.

Record Position : Type := mkPosition { x : Z; y : Z }.

Inductive Direction : Type := UP | DOWN | LEFT | RIGHT.

Record GameState : Type := mkGameState {
  snake : list Position;
  food : Position;
  direction : Direction;
  gameOver : bool;
  score : Z;
  gameRunning : bool;
  speed : Z
}.

Definition GRID_SIZE : Z := 20.
Definition INITIAL_SNAKE : list Position := [mkPosition 10 10].
Definition INITIAL_FOOD : Position := mkPosition 15 15.

(** The state the component starts with. *)
Definition initialGameState : GameState :=
  mkGameState INITIAL_SNAKE INITIAL_FOOD RIGHT false 0 false 150.

Definition Direction_eqb (a b : Direction) : bool :=
  match a, b with
  | UP, UP | DOWN, DOWN | LEFT, LEFT | RIGHT, RIGHT => true
  | _, _ => false
  end.

(** [segment.x === p.x && segment.y === p.y] *)
Definition same_cell (segment p : Position) : bool :=
  (x segment =? x p)%Z && (y segment =? y p)%Z.

(** [generateFood]: draw a cell until it is not on the snake.  [None]: the
    loop has not ended when the draws are used up. *)
Fixpoint generateFood (draws : list Z) (snake : list Position)
  : option (Position * list Z) :=
  match draws with
  | dx :: dy :: rest =>
      let newFood := mkPosition dx dy in
      if existsb (fun segment => same_cell segment newFood) snake
      then generateFood rest snake
      else Some (newFood, rest)
  | _ => None
  end.

Definition checkCollision (head : Position) (snake : list Position) : bool :=
  existsb (fun segment => same_cell segment head) snake.

(** The switch on the direction in [gameLoop]. *)
Definition move (direction : Direction) (head : Position) : Position :=
  match direction with
  | UP => mkPosition (x head) (y head - 1)
  | DOWN => mkPosition (x head) (y head + 1)
  | LEFT => mkPosition (x head - 1) (y head)
  | RIGHT => mkPosition (x head + 1) (y head)
  end.

(** The wall wrapping in [gameLoop]. *)
Definition wrap (head : Position) : Position :=
  let hx := if (x head <? 0)%Z then (GRID_SIZE - 1)%Z
            else if (GRID_SIZE <=? x head)%Z then 0%Z
            else x head in
  let hy := if (y head <? 0)%Z then (GRID_SIZE - 1)%Z
            else if (GRID_SIZE <=? y head)%Z then 0%Z
            else y head in
  mkPosition hx hy.

(** The updater of [gameLoop].  With an empty snake array the new head has
    no coordinates; it equals no cell, and is popped again. *)
Definition gameLoop (queue : list Direction) (draws : list Z)
                    (prevState : GameState)
  : option (GameState * list Direction * list Z) :=
  if negb (gameRunning prevState) || gameOver prevState
  then Some (prevState, queue, draws)
  else
    let snake := snake prevState in
    let food := food prevState in
    let '(direction, queue) :=
      match queue with
      | next :: rest => (next, rest)
      | [] => (direction prevState, [])
      end in
    match snake with
    | [] =>
        Some (mkGameState [] food direction (gameOver prevState)
                          (score prevState) (gameRunning prevState)
                          (speed prevState),
              queue, draws)
    | first :: _ =>
        let head := wrap (move direction first) in
        if checkCollision head snake then
          Some (mkGameState snake food (SnakeGame.direction prevState) true
                            (score prevState) false (speed prevState),
                queue, draws)
        else
          let newSnake := head :: snake in
          if same_cell head food then
            match generateFood draws newSnake with
            | None => None
            | Some (newFood, draws) =>
                Some (mkGameState newSnake newFood direction
                                  (gameOver prevState)
                                  (score prevState + 10)
                                  (gameRunning prevState) (speed prevState),
                      queue, draws)
            end
          else
            Some (mkGameState (removelast newSnake) food direction
                              (gameOver prevState) (score prevState)
                              (gameRunning prevState) (speed prevState),
                  queue, draws)
    end.

(** The switch on the key in [handleKeyPress]. *)
Definition key_direction (key : string) : option Direction :=
  if (String.eqb key "ArrowUp" || String.eqb key "w" || String.eqb key "W")
  then Some UP
  else if (String.eqb key "ArrowDown" || String.eqb key "s"
           || String.eqb key "S")
  then Some DOWN
  else if (String.eqb key "ArrowLeft" || String.eqb key "a"
           || String.eqb key "A")
  then Some LEFT
  else if (String.eqb key "ArrowRight" || String.eqb key "d"
           || String.eqb key "D")
  then Some RIGHT
  else None.

Definition isValidDirection (newDirection lastDirection : Direction) : bool :=
  (Direction_eqb newDirection UP && negb (Direction_eqb lastDirection DOWN))
  || (Direction_eqb newDirection DOWN && negb (Direction_eqb lastDirection UP))
  || (Direction_eqb newDirection LEFT
      && negb (Direction_eqb lastDirection RIGHT))
  || (Direction_eqb newDirection RIGHT
      && negb (Direction_eqb lastDirection LEFT)).

(** The updater of [handleKeyPress]: the state is returned as it is, the
    queue may get the new direction. *)
Definition handleKeyPress (key : string) (queue : list Direction)
                          (prevState : GameState)
  : GameState * list Direction :=
  if negb (gameRunning prevState) then (prevState, queue)
  else
    match key_direction key with
    | None => (prevState, queue)
    | Some newDirection =>
        let lastDirection :=
          match queue with
          | [] => direction prevState
          | _ :: _ => last queue (direction prevState)
          end in
        if isValidDirection newDirection lastDirection
           && negb (Direction_eqb newDirection lastDirection)
        then
          if (length queue <? 2)%nat
          then (prevState, queue ++ [newDirection])
          else
            match queue with
            | q0 :: _ :: rest => (prevState, q0 :: newDirection :: rest)
            | _ => (prevState, queue)
            end
        else (prevState, queue)
    end.

(** [startGame] and [resetGame] differ in [gameRunning] only. *)
Definition newGame (running : bool) (draws : list Z)
  : option (GameState * list Direction * list Z) :=
  match generateFood draws INITIAL_SNAKE with
  | None => None
  | Some (newFood, draws) =>
      Some (mkGameState INITIAL_SNAKE newFood RIGHT false 0 running 150,
            [], draws)
  end.

Definition startGame (draws : list Z) := newGame true draws.
Definition resetGame (draws : list Z) := newGame false draws.

Definition toggleGame (prev : GameState) : GameState :=
  mkGameState (snake prev) (food prev) (direction prev) (gameOver prev)
              (score prev) (negb (gameRunning prev)) (speed prev).

(** What can happen to the component, and the effect of a sequence of
    such events on the state, the queue and the draws. *)
Inductive GameEvent : Type :=
| Tick
| KeyDown (key : string)
| StartGame
| ToggleGame
| ResetGame.

Definition World : Type := (GameState * list Direction * list Z)%type.

Definition initialWorld (draws : list Z) : World :=
  (initialGameState, [], draws).

Definition step (e : GameEvent) (w : World) : option World :=
  let '(st, queue, draws) := w in
  match e with
  | Tick => gameLoop queue draws st
  | KeyDown key =>
      let '(st', queue') := handleKeyPress key queue st in
      Some (st', queue', draws)
  | StartGame => startGame draws
  | ToggleGame => Some (toggleGame st, queue, draws)
  | ResetGame => resetGame draws
  end.

Fixpoint play (events : list GameEvent) (w : World) : option World :=
  match events with
  | [] => Some w
  | e :: rest =>
      match step e w with
      | None => None
      | Some w' => play rest w'
      end
  end.

(** Vocabulary of the statements. *)
Definition on_board (p : Position) : Prop :=
  (0 <= x p < GRID_SIZE)%Z /\ (0 <= y p < GRID_SIZE)%Z.

Definition draws_in_range (draws : list Z) : Prop :=
  Forall (fun d => 0 <= d < GRID_SIZE)%Z draws.

(** What holds of every state the component can be in. *)
Definition invariant (w : World) : Prop :=
  let '(st, queue, draws) := w in
  Forall on_board (snake st)
  /\ on_board (food st)
  /\ existsb (fun segment => same_cell segment (food st)) (snake st) = false
  /\ score st = (10 * (Z.of_nat (length (snake st)) - 1))%Z
  /\ (1 <= length (snake st))%nat
  /\ (length queue <= 2)%nat
  /\ draws_in_range draws
  /\ (gameOver st = true -> 2 <= length (snake st))%nat.

(** The events that leave a finished game as it is. *)
Definition starts_game (e : GameEvent) : bool :=
  match e with
  | StartGame | ResetGame => true
  | _ => false
  end.

End SnakeGame.

(** ** The theme store of the snake game

    The payment channel and the themes of SnakeGame.tsx: the handlers
    [openPaymentChannel], [closePaymentChannel] and [purchaseTheme], and the
    Select button.  A handler reads the state of the last render and queues
    updaters; each handler is embedded as a function of the store it was
    rendered with, one event being handled per render. *)

Module ThemeStore.

(** ['snake' | 'board'] *)
Inductive ThemeType : Type := SnakeTheme | BoardTheme.

(** The texts appended to [transactions], with the numbers they show. *)
Inductive Transaction : Type :=
| ChannelOpened (capacity : Z)
| ChannelClosed (refund : Z)
| ThemePurchased (themeType : ThemeType) (price : Z).

Record PaymentChannelState : Type := mkChannel {
  isOpen : bool;
  balance : Z;
  capacity : Z;
  transactions : list Transaction
}.

Record Store : Type := mkStore {
  paymentChannel : PaymentChannelState;
  currentSnakeTheme : string;
  currentBoardTheme : string;
  ownedSnakeThemes : list string;
  ownedBoardThemes : list string
}.

Definition initialStore : Store :=
  mkStore (mkChannel false 0 100 []) "classic" "classic"
          ["classic"%string] ["classic"%string].

Definition setPaymentChannel (s : Store) (c : PaymentChannelState) : Store :=
  mkStore c (currentSnakeTheme s) (currentBoardTheme s)
          (ownedSnakeThemes s) (ownedBoardThemes s).

Definition openPaymentChannel (s : Store) : Store :=
  let prev := paymentChannel s in
  setPaymentChannel s
    (mkChannel true (capacity prev) (capacity prev)
               (transactions prev ++ [ChannelOpened (capacity prev)])).

Definition closePaymentChannel (s : Store) : Store :=
  let refund := balance (paymentChannel s) in
  let prev := paymentChannel s in
  setPaymentChannel s
    (mkChannel false 0 (capacity prev)
               (transactions prev ++ [ChannelClosed refund])).

Definition purchaseTheme (themeType : ThemeType) (themeId : string)
                         (price : Z) (s : Store) : Store * bool :=
  if (price <=? balance (paymentChannel s))%Z then
    let prev := paymentChannel s in
    let channel :=
      mkChannel (isOpen prev) (balance prev - price) (capacity prev)
                (transactions prev ++ [ThemePurchased themeType price]) in
    match themeType with
    | SnakeTheme =>
        (mkStore channel themeId (currentBoardTheme s)
                 (ownedSnakeThemes s ++ [themeId]) (ownedBoardThemes s),
         true)
    | BoardTheme =>
        (mkStore channel (currentSnakeTheme s) themeId
                 (ownedSnakeThemes s) (ownedBoardThemes s ++ [themeId]),
         true)
    end
  else (s, false).

(** [ownedSnakeThemes.includes(theme.id)] *)
Definition includes (l : list string) (id : string) : bool :=
  existsb (String.eqb id) l.

(** The Select button of a theme: rendered for an owned theme only. *)
Definition selectTheme (themeType : ThemeType) (themeId : string)
                       (s : Store) : Store :=
  match themeType with
  | SnakeTheme =>
      if includes (ownedSnakeThemes s) themeId
      then mkStore (paymentChannel s) themeId (currentBoardTheme s)
                   (ownedSnakeThemes s) (ownedBoardThemes s)
      else s
  | BoardTheme =>
      if includes (ownedBoardThemes s) themeId
      then mkStore (paymentChannel s) (currentSnakeTheme s) themeId
                   (ownedSnakeThemes s) (ownedBoardThemes s)
      else s
  end.

Inductive StoreEvent : Type :=
| OpenChannel
| CloseChannel
| Buy (themeType : ThemeType) (themeId : string) (price : Z)
| Select (themeType : ThemeType) (themeId : string).

Definition handle (s : Store) (e : StoreEvent) : Store :=
  match e with
  | OpenChannel => openPaymentChannel s
  | CloseChannel => closePaymentChannel s
  | Buy themeType themeId price => fst (purchaseTheme themeType themeId price s)
  | Select themeType themeId => selectTheme themeType themeId s
  end.

Definition visit (events : list StoreEvent) (s : Store) : Store :=
  fold_left handle events s.

(** Prices are not negative. *)
Definition fair_price (e : StoreEvent) : Prop :=
  match e with
  | Buy _ _ price => (0 <= price)%Z
  | _ => True
  end.

(** What the transactions say was spent since the channel was last
    opened. *)
Definition record_spending (spent : Z) (t : Transaction) : Z :=
  match t with
  | ChannelOpened _ => 0%Z
  | ChannelClosed _ => 0%Z
  | ThemePurchased _ price => (spent + price)%Z
  end.

Definition spent (transactions : list Transaction) : Z :=
  fold_left record_spending transactions 0%Z.

Definition store_invariant (s : Store) : Prop :=
  let c := paymentChannel s in
  capacity c = 100%Z
  /\ (0 <= balance c <= capacity c)%Z
  /\ (isOpen c = false -> balance c = 0%Z)
  /\ (isOpen c = true -> balance c = (capacity c - spent (transactions c))%Z)
  /\ In (currentSnakeTheme s) (ownedSnakeThemes s)
  /\ In (currentBoardTheme s) (ownedBoardThemes s).

End ThemeStore.

(** Sample plays of the snake game and visits of the store. *)

Module FrontendSample.

Import SnakeGame ThemeStore.

Definition draws : list Z := [11; 10; 5; 5; 3; 3]%Z.

(** Start, eat the food at (11,10), turn up, move twice. *)
Definition events : list GameEvent :=
  [StartGame; Tick; KeyDown "w"; Tick; Tick].

Definition final : World :=
  (mkGameState [mkPosition 11 8; mkPosition 11 9] (mkPosition 5 5) UP
               false 10 true 150,
   [], [3; 3]%Z).

(** Start, eat, press up, left, down, then two ticks: the snake turns back
    on itself. *)
Definition fatal_events : list GameEvent :=
  [StartGame; Tick; KeyDown "w"; KeyDown "a"; KeyDown "s"; Tick; Tick].

Definition fatal_final : World :=
  (mkGameState [mkPosition 11 9; mkPosition 11 10] (mkPosition 5 5) UP
               true 10 false 150,
   [], [3; 3]%Z).

(** After the end: a tick, a key and a pause. *)
Definition idle_events : list GameEvent := [Tick; KeyDown "d"; ToggleGame; Tick].

Definition idle_final : World :=
  (mkGameState [mkPosition 11 9; mkPosition 11 10] (mkPosition 5 5) UP
               true 10 true 150,
   [], [3; 3]%Z).

(** A board covered by the snake. *)
Definition full_board : list Position :=
  flat_map (fun i => map (fun j => mkPosition (Z.of_nat i) (Z.of_nat j))
                         (seq 0 20))
           (seq 0 20).

Definition shopping : list StoreEvent :=
  [OpenChannel; Buy SnakeTheme "golden" 15; Buy BoardTheme "space" 35;
   Buy SnakeTheme "rainbow" 50; Buy SnakeTheme "fire" 25;
   Select SnakeTheme "golden"; CloseChannel; Buy BoardTheme "neon" 12].

End FrontendSample.

(** * Properties *)

(** Case analysis on every conditional and option match of the goal. *)
Ltac split_branches :=
  repeat match goal with
         | |- context [if ?c then _ else _] => destruct c
         | |- context [match ?x with Some _ => _ | None => _ end] =>
             destruct x
         end.

(** ** Arrays and numbers *)

Lemma byte_to_Z_range (b : byte) : (0 <= byte_to_Z b <= 255)%Z.
Proof.
  unfold byte_to_Z. pose proof (Byte.to_N_bounded b). lia.
Qed.

Lemma bytesEq_refl (a : bytes) : bytesEq a a = true.
Proof.
  induction a as [|x a IH]; simpl; [reflexivity|].
  rewrite IH, andb_true_r.
  destruct (Byte.eqb x x) eqn:E; [reflexivity|].
  apply Byte.eqb_false in E. congruence.
Qed.

Lemma bytesEq_true_iff (a b : bytes) : bytesEq a b = true <-> a = b.
Proof.
  split.
  - revert b. induction a as [|x a IH]; intros [|y b] H; simpl in H;
      try discriminate; [reflexivity|].
    apply andb_true_iff in H. destruct H as [Hxy Hab].
    apply Byte.byte_dec_bl in Hxy. apply IH in Hab. congruence.
  - intros ->. apply bytesEq_refl.
Qed.

Lemma bytesEq_false_iff (a b : bytes) : bytesEq a b = false <-> a <> b.
Proof.
  rewrite <- bytesEq_true_iff. destruct (bytesEq a b); intuition congruence.
Qed.

Lemma length_slice (a : bytes) (s e : nat) :
  length (slice a s e) = Nat.min (e - s) (length a - s).
Proof.
  unfold slice. rewrite length_firstn, length_skipn. reflexivity.
Qed.

Lemma u8_get_in_range (a : bytes) (i : nat) :
  i < length a -> u8_get a i = Num (byte_at a i).
Proof.
  intros H. unfold u8_get, byte_at.
  rewrite (nth_error_nth' a x00 H). reflexivity.
Qed.

Lemma byte_at_range (a : bytes) (i : nat) : (0 <= byte_at a i <= 255)%Z.
Proof.
  apply byte_to_Z_range.
Qed.

Section Properties.

Variable PubKey : Type.
Variable secp256k1_recover : bytes -> jsnum -> bytes -> option PubKey.
Variable secp256k1_serializePubkey : PubKey -> bool -> option bytes.
Variable hashCkb : bytes -> bytes.

Local Abbreviation validate := (@validatePubkeyIndices PubKey).
Local Abbreviation load := (@loadAndValidateInputs PubKey).
Local Abbreviation recoverPK :=
  (recoverPublicKey secp256k1_recover secp256k1_serializePubkey).
Local Abbreviation hashPK := (@hashPublicKey PubKey hashCkb).
Local Abbreviation verifySig :=
  (verifySignature secp256k1_recover secp256k1_serializePubkey hashCkb).
Local Abbreviation run :=
  (main secp256k1_recover secp256k1_serializePubkey hashCkb).

(** ** The writer monad *)

Lemma fst_bind {A B : Type} (m : M PubKey A) (k : A -> M PubKey B) :
  fst (bind PubKey m k) = fst (k (fst m)).
Proof.
  unfold bind. destruct m as [a t1]. simpl. destruct (k a). reflexivity.
Qed.

Lemma snd_bind {A B : Type} (m : M PubKey A) (k : A -> M PubKey B) :
  snd (bind PubKey m k) = snd m ++ snd (k (fst m)).
Proof.
  unfold bind. destruct m as [a t1]. simpl. destruct (k a). reflexivity.
Qed.

(** ** What each function returns *)

Lemma validatePubkeyIndices_code (indices : jsnum * jsnum) :
  fst (validate indices) =
  if js_gt (fst indices) 1 || js_gt (snd indices) 1
     || js_strict_eq (fst indices) (snd indices)
  then 4%Z else 0%Z.
Proof.
  unfold validatePubkeyIndices, SECOND_PUBKEY_INDEX.
  destruct (js_gt (fst indices) 1 || js_gt (snd indices) 1); simpl;
    [reflexivity|].
  destruct (js_strict_eq (fst indices) (snd indices)); reflexivity.
Qed.

Lemma loadAndValidateInputs_result (env : Env) :
  fst (load env) =
  let witnessData := new_Uint8Array (witness_lock env) in
  if (length (script_args env) <? 77)%nat then inl 2%Z
  else if negb (length witnessData =? 132)%nat then inl 3%Z
  else if negb (fst (validate (witness_pubkeyIndices witnessData)) =? 0)%Z
  then inl (fst (validate (witness_pubkeyIndices witnessData)))
  else inr (mkInputData (args_pubkeyHashes (script_args env))
                        (witness_signatures witnessData)
                        (witness_pubkeyIndices witnessData)).
Proof.
  unfold loadAndValidateInputs.
  rewrite fst_bind. cbv zeta.
  change EXPECTED_SCRIPT_ARGS_LENGTH with 77.
  change EXPECTED_WITNESS_DATA_LENGTH with 132.
  change SUCCESS_CODE with 0%Z.
  change (new_Uint8Array (Some (script_args env))) with (script_args env).
  destruct (length (script_args env) <? 77)%nat; [reflexivity|].
  rewrite !fst_bind.
  destruct (negb (length (new_Uint8Array (witness_lock env)) =? 132)%nat);
    [reflexivity|].
  rewrite fst_bind.
  destruct (negb (fst (validate (witness_pubkeyIndices
                                   (new_Uint8Array (witness_lock env)))) =? 0)%Z);
    reflexivity.
Qed.

Lemma recoverPublicKey_result (message_hash signature : bytes) :
  fst (recoverPK message_hash signature) =
  if negb (length signature =? 65)%nat then None
  else if js_gt (u8_get signature 64) 3 then None
  else match secp256k1_recover (slice signature 0 64)
                               (u8_get signature 64) message_hash with
       | None => None
       | Some k => secp256k1_serializePubkey k false
       end.
Proof.
  unfold recoverPublicKey.
  change SIGNATURE_LENGTH with 65. change RECOVERY_ID_OFFSET with 64.
  change SIGNATURE_DATA_LENGTH with 64.
  destruct (negb (length signature =? 65)%nat); [reflexivity|].
  cbv zeta.
  destruct (js_gt (u8_get signature 64) 3); [reflexivity|].
  rewrite fst_bind.
  destruct (secp256k1_recover _ _ _) as [k|]; [|reflexivity].
  rewrite fst_bind.
  destruct (secp256k1_serializePubkey k false); reflexivity.
Qed.

Lemma verifySignature_code (params : SignatureVerificationParams) :
  fst (verifySig params) =
  match fst (recoverPK (p_messageHash params) (p_signature params)) with
  | None => 5%Z
  | Some pubkey =>
      if bytesEq (slice (hashCkb pubkey) 0 20)
                 (getExpectedHash (p_pubkeyHashes params)
                                  (p_pubkeyIndex params))
      then 0%Z else 1%Z
  end.
Proof.
  unfold verifySignature. cbv zeta. rewrite fst_bind.
  destruct (fst (recoverPK _ _)) as [pubkey|]; [|reflexivity].
  rewrite fst_bind. simpl.
  change BLAKE160_HASH_LENGTH with 20.
  destruct (bytesEq _ _); reflexivity.
Qed.

Lemma main_code (env : Env) :
  fst (run env) =
  match fst (load env) with
  | inl code => code
  | inr d =>
      let first :=
        fst (verifySig (mkParams (tx_hash env) (fst (signatures d))
                                 (pubkeyHashes d) (fst (pubkeyIndices d))
                                 "signature1")) in
      if negb (first =? 0)%Z then first
      else
        let second :=
          fst (verifySig (mkParams (tx_hash env) (snd (signatures d))
                                   (pubkeyHashes d) (snd (pubkeyIndices d))
                                   "signature2")) in
        if negb (second =? 0)%Z then second else 0%Z
  end.
Proof.
  unfold main. rewrite fst_bind.
  destruct (fst (load env)) as [code|d]; [reflexivity|].
  cbv zeta. rewrite !fst_bind. simpl fst at 3.
  change SUCCESS_CODE with 0%Z.
  unfold new_Uint8Array.
  destruct (negb (_ =? 0)%Z); [reflexivity|].
  rewrite fst_bind.
  destruct (negb (_ =? 0)%Z); reflexivity.
Qed.

(** ** What each function records *)

Lemma validatePubkeyIndices_trace (indices : jsnum * jsnum) :
  snd (validate indices) =
  if js_gt (fst indices) 1 || js_gt (snd indices) 1
  then [EvDebug (MsgInvalidPubkeyIndices (fst indices) (snd indices))]
  else if js_strict_eq (fst indices) (snd indices)
  then [EvDebug (MsgSamePubkeyIndex (fst indices))]
  else [].
Proof.
  unfold validatePubkeyIndices, SECOND_PUBKEY_INDEX.
  destruct (js_gt (fst indices) 1 || js_gt (snd indices) 1); simpl;
    [reflexivity|].
  destruct (js_strict_eq (fst indices) (snd indices)); reflexivity.
Qed.

Lemma loadAndValidateInputs_trace (env : Env) :
  snd (load env) =
  let witnessData := new_Uint8Array (witness_lock env) in
  let signatures := witness_signatures witnessData in
  let pubkeyIndices := witness_pubkeyIndices witnessData in
  EvLoadScript ::
  if (length (script_args env) <? 77)%nat
  then [EvDebug (MsgInvalidScriptArgsLength (length (script_args env)) 77)]
  else
    EvLoadWitnessArgs :: EvDebug (MsgWitnessData witnessData) ::
    if negb (length witnessData =? 132)%nat
    then [EvDebug (MsgInvalidWitnessDataLength (length witnessData) 132)]
    else
      snd (validate pubkeyIndices) ++
      if negb (fst (validate pubkeyIndices) =? 0)%Z then []
      else [EvDebug (MsgSignatures (fst signatures) (snd signatures));
            EvDebug (MsgPubkeyIndices (fst pubkeyIndices)
                                      (snd pubkeyIndices))].
Proof.
  unfold loadAndValidateInputs.
  rewrite snd_bind. cbv zeta.
  change EXPECTED_SCRIPT_ARGS_LENGTH with 77.
  change EXPECTED_WITNESS_DATA_LENGTH with 132.
  change SUCCESS_CODE with 0%Z.
  change (new_Uint8Array (Some (script_args env))) with (script_args env).
  cbn [snd fst app emit debug ret]. f_equal.
  destruct (length (script_args env) <? 77)%nat; [reflexivity|].
  rewrite !snd_bind. cbn [snd fst app emit debug ret]. do 2 f_equal.
  destruct (negb (length (new_Uint8Array (witness_lock env)) =? 132)%nat);
    [reflexivity|].
  rewrite snd_bind. f_equal.
  destruct (negb (fst (validate (witness_pubkeyIndices
                                   (new_Uint8Array (witness_lock env)))) =? 0)%Z);
    reflexivity.
Qed.

Lemma recoverPublicKey_trace (message_hash signature : bytes) :
  snd (recoverPK message_hash signature) =
  if negb (length signature =? 65)%nat
  then [EvDebug (MsgInvalidSignatureLength (length signature) 65)]
  else if js_gt (u8_get signature 64) 3
  then [EvDebug (MsgInvalidRecoveryId (u8_get signature 64))]
  else
    EvRecover (slice signature 0 64) (u8_get signature 64) message_hash ::
    match secp256k1_recover (slice signature 0 64)
                            (u8_get signature 64) message_hash with
    | None => [EvDebug MsgSignatureRecoveryFailed]
    | Some k =>
        EvSerializePubkey k false ::
        match secp256k1_serializePubkey k false with
        | None => [EvDebug MsgSignatureRecoveryFailed]
        | Some _ => []
        end
    end.
Proof.
  unfold recoverPublicKey.
  change SIGNATURE_LENGTH with 65. change RECOVERY_ID_OFFSET with 64.
  change SIGNATURE_DATA_LENGTH with 64.
  destruct (negb (length signature =? 65)%nat); [reflexivity|].
  cbv zeta.
  destruct (js_gt (u8_get signature 64) 3); [reflexivity|].
  rewrite snd_bind. cbn [snd fst app emit debug ret]. f_equal.
  destruct (secp256k1_recover _ _ _) as [k|]; [|reflexivity].
  rewrite snd_bind. cbn [snd fst app emit debug ret]. f_equal.
  destruct (secp256k1_serializePubkey k false); reflexivity.
Qed.

Lemma hashPublicKey_eq (pubkey : bytes) :
  hashPK pubkey = (firstn 20 (hashCkb pubkey), [EvHashCkb pubkey]).
Proof.
  reflexivity.
Qed.

Lemma verifySignature_trace (params : SignatureVerificationParams) :
  snd (verifySig params) =
  snd (recoverPK (p_messageHash params) (p_signature params)) ++
  match fst (recoverPK (p_messageHash params) (p_signature params)) with
  | None => [EvDebug (MsgFailedToRecover (p_signatureName params))]
  | Some pubkey =>
      EvHashCkb pubkey ::
      if bytesEq (slice (hashCkb pubkey) 0 20)
                 (getExpectedHash (p_pubkeyHashes params)
                                  (p_pubkeyIndex params))
      then []
      else [EvDebug (MsgInvalidHash (p_signatureName params)
                       (slice (hashCkb pubkey) 0 20)
                       (getExpectedHash (p_pubkeyHashes params)
                                        (p_pubkeyIndex params)))]
  end.
Proof.
  unfold verifySignature. cbv zeta. rewrite snd_bind. f_equal.
  destruct (fst (recoverPK _ _)) as [pubkey|]; [|reflexivity].
  rewrite snd_bind. simpl.
  change BLAKE160_HASH_LENGTH with 20.
  destruct (bytesEq _ _); reflexivity.
Qed.

Lemma main_trace (env : Env) :
  snd (run env) =
  snd (load env) ++
  match fst (load env) with
  | inl _ => []
  | inr d =>
      let first :=
        verifySig (mkParams (tx_hash env) (fst (signatures d))
                            (pubkeyHashes d) (fst (pubkeyIndices d))
                            "signature1") in
      let second :=
        verifySig (mkParams (tx_hash env) (snd (signatures d))
                            (pubkeyHashes d) (snd (pubkeyIndices d))
                            "signature2") in
      [EvLoadTxHash; EvDebug (MsgTransactionHash (tx_hash env));
       EvDebug (MsgSigningMessageHash (tx_hash env) (length (tx_hash env)))]
      ++ snd first
      ++ if negb (fst first =? 0)%Z then [] else snd second
  end.
Proof.
  unfold main. rewrite snd_bind. f_equal.
  destruct (fst (load env)) as [code|d]; [reflexivity|].
  cbv zeta. rewrite !snd_bind. rewrite ?fst_bind.
  change SUCCESS_CODE with 0%Z.
  change (@getSigningMessageHash PubKey env)
    with (tx_hash env,
          [@EvLoadTxHash PubKey; EvDebug (MsgTransactionHash (tx_hash env))]).
  cbn [snd fst app emit debug ret]. do 3 f_equal.
  destruct (negb (_ =? 0)%Z); [reflexivity|].
  rewrite snd_bind.
  destruct (negb (_ =? 0)%Z); simpl; rewrite app_nil_r; reflexivity.
Qed.

(** ** The code against the specification's components *)

Lemma witness_signatures_spec (w : bytes) :
  witness_signatures w = (spec_signature w 0, spec_signature w 1).
Proof.
  reflexivity.
Qed.

Lemma length_spec_signature (w : bytes) (i : nat) :
  length w = 132 -> i < 2 -> length (spec_signature w i) = 65.
Proof.
  intros Hw Hi. unfold spec_signature.
  rewrite length_firstn, length_skipn. lia.
Qed.

Lemma witness_pubkeyIndices_spec (w : bytes) :
  length w = 132 ->
  witness_pubkeyIndices w = (Num (spec_selector w 0), Num (spec_selector w 1)).
Proof.
  intros Hw. unfold witness_pubkeyIndices, spec_selector.
  change FIRST_PUBKEY_INDEX_OFFSET with 130.
  change SECOND_PUBKEY_INDEX_OFFSET with 131.
  rewrite !u8_get_in_range by lia. reflexivity.
Qed.

Lemma getExpectedHash_spec (config : bytes) (selector : Z) :
  getExpectedHash (args_pubkeyHashes config) (Num selector) =
  KeyFingerprintPair config selector.
Proof.
  unfold getExpectedHash, KeyFingerprintPair, js_strict_eq.
  change FIRST_PUBKEY_INDEX with 0%Z.
  destruct (selector =? 0)%Z; reflexivity.
Qed.

Lemma validatePubkeyIndices_spec (s0 s1 : Z) :
  (0 <= s0)%Z -> (0 <= s1)%Z ->
  fst (validate (Num s0, Num s1)) =
  if IndexValidator_ok s0 s1 then 0%Z else 4%Z.
Proof.
  intros H0 H1. rewrite validatePubkeyIndices_code.
  unfold IndexValidator_ok, selector_in_range. cbn [fst snd js_gt js_strict_eq].
  destruct (1 <? s0)%Z eqn:E0, (1 <? s1)%Z eqn:E1, (s0 =? s1)%Z eqn:E,
           (s0 =? 0)%Z eqn:A0, (s0 =? 1)%Z eqn:A1,
           (s1 =? 0)%Z eqn:B0, (s1 =? 1)%Z eqn:B1;
    try reflexivity; exfalso; lia.
Qed.

Lemma recoverPublicKey_spec (message_hash signature : bytes) :
  length signature = 65 ->
  fst (recoverPK message_hash signature) =
  KeyRecoverer secp256k1_recover secp256k1_serializePubkey
               message_hash signature.
Proof.
  intros Hlen. rewrite recoverPublicKey_result. unfold KeyRecoverer.
  rewrite Hlen. cbn [Nat.eqb negb].
  rewrite u8_get_in_range by lia. cbn [js_gt].
  pose proof (byte_at_range signature 64) as Hr.
  change (slice signature 0 64) with (firstn 64 signature).
  destruct (3 <? byte_at signature 64)%Z eqn:E.
  - replace (byte_at signature 64 <=? 3)%Z with false by lia.
    rewrite andb_false_r. reflexivity.
  - replace (0 <=? byte_at signature 64)%Z with true by lia.
    replace (byte_at signature 64 <=? 3)%Z with true by lia.
    reflexivity.
Qed.

Lemma verifySignature_spec (config proof messageHash : bytes) (i : nat)
      (name : string) :
  length proof = 132 -> i < 2 ->
  fst (verifySig (mkParams messageHash (spec_signature proof i)
                           (args_pubkeyHashes config)
                           (Num (spec_selector proof i)) name)) =
  first_failure
    [ (recovery_passes secp256k1_recover secp256k1_serializePubkey
                       proof messageHash i, 5%Z);
      (fingerprint_passes secp256k1_recover secp256k1_serializePubkey hashCkb
                          config proof messageHash i, 1%Z) ].
Proof.
  intros Hw Hi. rewrite verifySignature_code. cbn [p_messageHash p_signature
    p_pubkeyHashes p_pubkeyIndex].
  rewrite recoverPublicKey_spec by (apply length_spec_signature; assumption).
  unfold recovery_passes, fingerprint_passes, first_failure.
  destruct (KeyRecoverer _ _ _ _) as [key|]; [|reflexivity].
  rewrite getExpectedHash_spec. unfold FingerprintHasher.
  change (slice (hashCkb key) 0 20) with (firstn 20 (hashCkb key)).
  destruct (list_eq_dec _ _ _) as [Heq|Hne].
  - apply bytesEq_true_iff in Heq. rewrite Heq. reflexivity.
  - apply bytesEq_false_iff in Hne. rewrite Hne. reflexivity.
Qed.

(** The code of every run, in terms of the buffers. *)
Lemma loadAndValidateInputs_valid (env : Env) :
  let config := script_args env in
  let proof := new_Uint8Array (witness_lock env) in
  77 <= length config -> length proof = 132 ->
  IndexValidator_ok (spec_selector proof 0) (spec_selector proof 1) = true ->
  fst (load env) =
    inr (mkInputData (args_pubkeyHashes config)
                     (spec_signature proof 0, spec_signature proof 1)
                     (Num (spec_selector proof 0), Num (spec_selector proof 1))).
Proof.
  intros config proof Hc Hp Hsel. rewrite loadAndValidateInputs_result.
  cbv zeta. fold config proof.
  replace (length config <? 77) with false by (symmetry; apply Nat.ltb_ge; lia).
  rewrite Hp. cbn [Nat.eqb negb].
  rewrite witness_pubkeyIndices_spec by assumption.
  rewrite validatePubkeyIndices_spec by apply byte_at_range.
  rewrite Hsel. reflexivity.
Qed.

(** ** The calls of the bindings made by each function *)

Lemma binding_calls_app (t1 t2 : list (event PubKey)) :
  binding_calls (t1 ++ t2) = binding_calls t1 ++ binding_calls t2.
Proof.
  apply filter_app.
Qed.

Lemma validatePubkeyIndices_calls (indices : jsnum * jsnum) :
  binding_calls (snd (validate indices)) = [].
Proof.
  rewrite validatePubkeyIndices_trace.
  destruct (js_gt _ _ || js_gt _ _); [reflexivity|].
  destruct (js_strict_eq _ _); reflexivity.
Qed.

Lemma loadAndValidateInputs_calls (env : Env) :
  binding_calls (snd (load env)) = [].
Proof.
  rewrite loadAndValidateInputs_trace. cbv zeta.
  destruct (length (script_args env) <? 77); [reflexivity|].
  destruct (negb (length _ =? 132)); [reflexivity|].
  change (binding_calls (?a :: ?b :: ?c :: ?t)) with (binding_calls t).
  cbn [binding_calls filter is_binding_call].
  fold (@binding_calls PubKey).
  rewrite binding_calls_app, validatePubkeyIndices_calls.
  destruct (negb (_ =? 0)%Z); reflexivity.
Qed.

Lemma recoverPublicKey_calls (message_hash signature : bytes) :
  binding_calls (snd (recoverPK message_hash signature)) =
  if negb (length signature =? 65)%nat then []
  else if js_gt (u8_get signature 64) 3 then []
  else
    EvRecover (slice signature 0 64) (u8_get signature 64) message_hash ::
    match secp256k1_recover (slice signature 0 64)
                            (u8_get signature 64) message_hash with
    | None => []
    | Some k => [EvSerializePubkey k false]
    end.
Proof.
  rewrite recoverPublicKey_trace.
  destruct (negb (length signature =? 65)); [reflexivity|].
  destruct (js_gt _ _); [reflexivity|].
  destruct (secp256k1_recover _ _ _) as [k|]; [|reflexivity].
  destruct (secp256k1_serializePubkey k false); reflexivity.
Qed.

Lemma verifySignature_calls (params : SignatureVerificationParams) :
  binding_calls (snd (verifySig params)) =
  binding_calls (snd (recoverPK (p_messageHash params) (p_signature params)))
  ++ match fst (recoverPK (p_messageHash params) (p_signature params)) with
     | None => []
     | Some pubkey => [EvHashCkb pubkey]
     end.
Proof.
  rewrite verifySignature_trace, binding_calls_app. f_equal.
  destruct (fst (recoverPK _ _)) as [pubkey|]; [|reflexivity].
  destruct (bytesEq _ _); reflexivity.
Qed.

Lemma main_calls (env : Env) :
  binding_calls (snd (run env)) =
  match fst (load env) with
  | inl _ => []
  | inr d =>
      let first :=
        verifySig (mkParams (tx_hash env) (fst (signatures d))
                            (pubkeyHashes d) (fst (pubkeyIndices d))
                            "signature1") in
      let second :=
        verifySig (mkParams (tx_hash env) (snd (signatures d))
                            (pubkeyHashes d) (snd (pubkeyIndices d))
                            "signature2") in
      binding_calls (snd first)
      ++ if negb (fst first =? 0)%Z then [] else binding_calls (snd second)
  end.
Proof.
  rewrite main_trace, binding_calls_app, loadAndValidateInputs_calls.
  destruct (fst (load env)) as [code|d]; [reflexivity|].
  cbv zeta. rewrite !binding_calls_app. cbn [app].
  change (binding_calls [EvLoadTxHash; _; _]) with (@nil (event PubKey)).
  cbn [app]. f_equal.
  destruct (negb (_ =? 0)%Z); reflexivity.
Qed.

Lemma filter_recover_binding_calls (t : list (event PubKey)) :
  filter is_recover_call t = filter is_recover_call (binding_calls t).
Proof.
  induction t as [|e t IH]; [reflexivity|].
  destruct e; cbn; rewrite ?IH; reflexivity.
Qed.

Lemma filter_hash_binding_calls (t : list (event PubKey)) :
  filter is_hash_call t = filter is_hash_call (binding_calls t).
Proof.
  induction t as [|e t IH]; [reflexivity|].
  destruct e; cbn; rewrite ?IH; reflexivity.
Qed.

Lemma verifySignature_recover_once (params : SignatureVerificationParams) :
  length (filter is_recover_call (snd (verifySig params))) <= 1.
Proof.
  rewrite filter_recover_binding_calls, verifySignature_calls,
    recoverPublicKey_calls.
  split_branches; cbn; lia.
Qed.

Lemma verifySignature_hash_once (params : SignatureVerificationParams) :
  length (filter is_hash_call (snd (verifySig params))) <= 1.
Proof.
  rewrite filter_hash_binding_calls, verifySignature_calls,
    recoverPublicKey_calls.
  split_branches; cbn; lia.
Qed.

(** The exit code of every run is the one the specification's pipeline
    gives. *)
Lemma main_code_spec (env : Env) :
  fst (run env) =
    spec_verify secp256k1_recover secp256k1_serializePubkey hashCkb
                (script_args env) (new_Uint8Array (witness_lock env))
                (tx_hash env).
Proof.
  rewrite main_code, loadAndValidateInputs_result. cbv zeta.
  unfold spec_verify, pipeline, ConfigParser_ok, AuthorizationParser_ok.
  change (spec_prefix_length + 40) with 77.
  set (config := script_args env).
  set (proof := new_Uint8Array (witness_lock env)).
  cbn [first_failure].
  destruct (length config <? 77) eqn:Hc.
  { apply Nat.ltb_lt in Hc.
    replace (77 <=? length config) with false
      by (symmetry; apply Nat.leb_gt; lia).
    reflexivity. }
  apply Nat.ltb_ge in Hc.
  replace (77 <=? length config) with true
    by (symmetry; apply Nat.leb_le; lia).
  destruct (length proof =? 132) eqn:Hp; cbn [negb]; [|reflexivity].
  apply Nat.eqb_eq in Hp.
  rewrite witness_pubkeyIndices_spec by assumption.
  rewrite validatePubkeyIndices_spec by apply byte_at_range.
  destruct (IndexValidator_ok _ _); [|reflexivity].
  cbn [Z.eqb negb signatures pubkeyHashes pubkeyIndices fst snd].
  rewrite witness_signatures_spec. cbn [fst snd].
  rewrite (verifySignature_spec config proof (tx_hash env) 0) by lia.
  rewrite (verifySignature_spec config proof (tx_hash env) 1) by lia.
  cbn [first_failure].
  destruct (recovery_passes _ _ _ _ 0); [|reflexivity].
  destruct (fingerprint_passes _ _ _ _ _ _ 0); [|reflexivity].
  cbn [Z.eqb negb].
  destruct (recovery_passes _ _ _ _ 1); [|reflexivity].
  destruct (fingerprint_passes _ _ _ _ _ _ 1); reflexivity.
Qed.

Lemma IndexValidator_ok_false_iff (s0 s1 : Z) :
  (0 <= s0)%Z -> (0 <= s1)%Z ->
  IndexValidator_ok s0 s1 = false <-> (1 < s0 \/ 1 < s1 \/ s0 = s1)%Z.
Proof.
  intros H0 H1. unfold IndexValidator_ok, selector_in_range.
  destruct (s0 =? s1)%Z eqn:E,
           (s0 =? 0)%Z eqn:A0, (s0 =? 1)%Z eqn:A1,
           (s1 =? 0)%Z eqn:B0, (s1 =? 1)%Z eqn:B1;
    cbn; split; intros; try reflexivity; try discriminate; lia.
Qed.

(** Two index bytes that are at most 1 and differ are valid. *)
Lemma indices_valid (w : bytes) :
  (byte_at w 130 <= 1)%Z -> (byte_at w 131 <= 1)%Z ->
  byte_at w 130 <> byte_at w 131 ->
  IndexValidator_ok (spec_selector w 0) (spec_selector w 1) = true.
Proof.
  intros H0 H1 Hne.
  destruct (IndexValidator_ok (spec_selector w 0) (spec_selector w 1)) eqn:E;
    [reflexivity|].
  apply IndexValidator_ok_false_iff in E; try apply byte_at_range.
  change (spec_selector w 0) with (byte_at w 130) in E.
  change (spec_selector w 1) with (byte_at w 131) in E.
  lia.
Qed.

(** ** The steps of each function *)

Lemma steps_app (t1 t2 : list (event PubKey)) :
  steps (t1 ++ t2) = steps t1 ++ steps t2.
Proof.
  apply filter_app.
Qed.

Lemma validatePubkeyIndices_steps (indices : jsnum * jsnum) :
  steps (snd (validate indices)) = [].
Proof.
  rewrite validatePubkeyIndices_trace.
  destruct (js_gt _ _ || js_gt _ _); [reflexivity|].
  destruct (js_strict_eq _ _); reflexivity.
Qed.

(** The loader reads the script, and the witness only behind the length
    check of the script args. *)
Lemma loadAndValidateInputs_steps (env : Env) :
  steps (snd (load env)) =
  EvLoadScript ::
  if (length (script_args env) <? 77)%nat then [] else [EvLoadWitnessArgs].
Proof.
  rewrite loadAndValidateInputs_trace. cbv zeta.
  cbn [steps filter is_step]. f_equal.
  destruct (length (script_args env) <? 77); [reflexivity|].
  cbn [filter is_step]. f_equal.
  destruct (negb (length _ =? 132)); [reflexivity|].
  change (filter is_step ?t) with (steps t).
  rewrite steps_app, validatePubkeyIndices_steps.
  destruct (negb (_ =? 0)%Z); reflexivity.
Qed.

(** One signature check makes the calls of steps 5a and 5b, once each and
    in that order. *)
Lemma verifySignature_steps (messageHash signature : bytes)
      (hashes : bytes * bytes) (index : jsnum) (name : string) :
  length signature = 65 ->
  steps (snd (verifySig (mkParams messageHash signature hashes index name))) =
  signature_steps secp256k1_recover secp256k1_serializePubkey
                  messageHash signature.
Proof.
  intros Hlen. rewrite verifySignature_trace, steps_app.
  cbn [p_messageHash p_signature p_pubkeyHashes p_pubkeyIndex p_signatureName].
  rewrite recoverPublicKey_result, recoverPublicKey_trace.
  rewrite Hlen. cbn [Nat.eqb negb].
  rewrite u8_get_in_range by lia. cbn [js_gt].
  unfold signature_steps. cbv zeta.
  change (slice signature 0 64) with (firstn 64 signature).
  pose proof (byte_at_range signature 64) as Hr.
  destruct (3 <? byte_at signature 64)%Z eqn:E.
  - replace (byte_at signature 64 <=? 3)%Z with false by lia.
    rewrite andb_false_r. reflexivity.
  - replace (0 <=? byte_at signature 64)%Z with true by lia.
    replace (byte_at signature 64 <=? 3)%Z with true by lia.
    cbn [andb].
    destruct (secp256k1_recover _ _ _) as [k|]; [|reflexivity].
    destruct (secp256k1_serializePubkey k false) as [serialized|];
      [|reflexivity].
    destruct (bytesEq _ _); reflexivity.
Qed.

(** The steps of every run are those of the specification's verifier, in
    its order. *)
Lemma main_steps (env : Env) :
  steps (snd (run env)) =
    expected_steps secp256k1_recover secp256k1_serializePubkey hashCkb
                   (script_args env) (new_Uint8Array (witness_lock env))
                   (tx_hash env).
Proof.
  rewrite main_trace, steps_app, loadAndValidateInputs_steps,
    loadAndValidateInputs_result.
  cbv zeta.
  unfold expected_steps, ConfigParser_ok, AuthorizationParser_ok.
  change (spec_prefix_length + 40) with 77.
  set (config := script_args env).
  set (proof := new_Uint8Array (witness_lock env)).
  destruct (length config <? 77) eqn:Hc.
  { apply Nat.ltb_lt in Hc.
    replace (77 <=? length config) with false
      by (symmetry; apply Nat.leb_gt; lia).
    reflexivity. }
  apply Nat.ltb_ge in Hc.
  replace (77 <=? length config) with true
    by (symmetry; apply Nat.leb_le; lia).
  cbn [app]. do 2 f_equal.
  destruct (length proof =? 132) eqn:Hp; cbn [negb andb]; [|reflexivity].
  apply Nat.eqb_eq in Hp.
  rewrite witness_pubkeyIndices_spec by assumption.
  rewrite validatePubkeyIndices_spec by apply byte_at_range.
  destruct (IndexValidator_ok _ _); [|reflexivity].
  cbn [Z.eqb negb signatures pubkeyHashes pubkeyIndices fst snd].
  rewrite witness_signatures_spec. cbn [fst snd].
  change (steps (?a :: ?b :: ?c :: ?t)) with (a :: steps t).
  f_equal. rewrite steps_app.
  rewrite verifySignature_steps by (apply length_spec_signature; lia).
  rewrite (verifySignature_spec config proof (tx_hash env) 0) by lia.
  f_equal.
  unfold signature_passes. cbn [first_failure].
  destruct (recovery_passes _ _ _ _ 0); [|reflexivity].
  destruct (fingerprint_passes _ _ _ _ _ _ 0); [|reflexivity].
  cbn [Z.eqb negb andb].
  apply verifySignature_steps, length_spec_signature; lia.
Qed.

(** C1: the verifier runs the checks in the fixed order (configuration
    length, proof length, selectors, then recovery and fingerprint of
    signature 0 before those of signature 1) and its exit code is the code
    of the first check that fails, or 0: it equals [spec_verify], the
    pipeline of the specification.  A configuration buffer shorter than 77
    bytes gives code 2 whatever the proof buffer holds.  The order and the
    early exit are those of the specification: the loads and binding calls
    of the run, in program order, are exactly [expected_steps] - the
    witness is loaded only behind the configuration check, the message
    hash only behind the three structural checks, the calls for signature 0
    come before those for signature 1, and those for signature 1 are made
    only when signature 0 passed.  Nothing is retried: each signature's
    calls appear once in that list, so the recovery binding and the hash
    binding are each called at most twice. *)
Theorem main_returns_first_failing_check (env : Env) :
  fst (run env) =
    spec_verify secp256k1_recover secp256k1_serializePubkey hashCkb
                (script_args env) (new_Uint8Array (witness_lock env))
                (tx_hash env)
  /\ (length (script_args env) < 77 -> fst (run env) = 2%Z)
  /\ steps (snd (run env)) =
       expected_steps secp256k1_recover secp256k1_serializePubkey hashCkb
                      (script_args env) (new_Uint8Array (witness_lock env))
                      (tx_hash env)
  /\ length (filter is_recover_call (snd (run env))) <= 2
  /\ length (filter is_hash_call (snd (run env))) <= 2.
Proof.
  split; [apply main_code_spec|]. split; [|split; [apply main_steps|]].
  - intros Hshort. rewrite main_code, loadAndValidateInputs_result. cbv zeta.
    replace (length (script_args env) <? 77) with true
      by (symmetry; apply Nat.ltb_lt; lia).
    reflexivity.
  - rewrite filter_recover_binding_calls, filter_hash_binding_calls, main_calls.
    destruct (fst (load env)) as [code|d]; [cbn; lia|].
    cbv zeta.
    pose proof (verifySignature_recover_once
      (mkParams (tx_hash env) (fst (signatures d)) (pubkeyHashes d)
                (fst (pubkeyIndices d)) "signature1")) as R0.
    pose proof (verifySignature_hash_once
      (mkParams (tx_hash env) (fst (signatures d)) (pubkeyHashes d)
                (fst (pubkeyIndices d)) "signature1")) as H0.
    pose proof (verifySignature_recover_once
      (mkParams (tx_hash env) (snd (signatures d)) (pubkeyHashes d)
                (snd (pubkeyIndices d)) "signature2")) as R1.
    pose proof (verifySignature_hash_once
      (mkParams (tx_hash env) (snd (signatures d)) (pubkeyHashes d)
                (snd (pubkeyIndices d)) "signature2")) as H1.
    destruct (negb (_ =? 0)%Z);
      rewrite !filter_app, !length_app,
        <- !filter_recover_binding_calls, <- !filter_hash_binding_calls;
      cbn [filter length]; lia.
Qed.

(** ** Configuration parsing *)

Lemma args_pubkeyHashes_offsets (config : bytes) :
  args_pubkeyHashes config =
  (firstn 20 (skipn 37 config), firstn 20 (skipn 57 config)).
Proof.
  reflexivity.
Qed.

Lemma args_pubkeyHashes_prefix (prefix rest : bytes) :
  length prefix = 37 ->
  args_pubkeyHashes (prefix ++ rest) =
  (firstn 20 rest, firstn 20 (skipn 20 rest)).
Proof.
  intros Hp. rewrite args_pubkeyHashes_offsets, !skipn_app, Hp.
  rewrite (skipn_all2 prefix (n := 37)) by lia.
  rewrite (skipn_all2 prefix (n := 57)) by lia.
  reflexivity.
Qed.

(** The script args reach the run only through their length and the two
    slices. *)
Lemma loadAndValidateInputs_args_ext (env1 env2 : Env) :
  length (script_args env1) = length (script_args env2) ->
  args_pubkeyHashes (script_args env1) = args_pubkeyHashes (script_args env2) ->
  witness_lock env1 = witness_lock env2 ->
  load env1 = load env2.
Proof.
  intros Hlen Hslices Hlock.
  rewrite (surjective_pairing (load env1)), (surjective_pairing (load env2)).
  rewrite !loadAndValidateInputs_result, !loadAndValidateInputs_trace.
  cbv zeta. rewrite Hlen, Hslices, Hlock. reflexivity.
Qed.

Lemma main_args_ext (env1 env2 : Env) :
  load env1 = load env2 ->
  tx_hash env1 = tx_hash env2 ->
  run env1 = run env2.
Proof.
  intros Hload Htx.
  rewrite (surjective_pairing (run env1)), (surjective_pairing (run env2)).
  rewrite !main_code, !main_trace. cbv zeta. rewrite Hload, Htx. reflexivity.
Qed.

(** C2: parsing the configuration fails with code 2 exactly when the
    script args are shorter than 77 bytes (the 37-byte prefix and 40 bytes).
    Otherwise it succeeds: with a 132-byte witness and valid indices the
    loader does return input data, and the two expected hashes in it are
    the 20-byte slices at offsets 37 and 57 (they are the hashes of any
    input data the loader returns).  Two configurations that differ only in
    their first 37 bytes give the same run, result and trace. *)
Theorem config_too_short_iff_and_slices (env : Env) :
  let witnessData := new_Uint8Array (witness_lock env) in
  (fst (load env) = inl 2%Z <-> length (script_args env) < 37 + 40)
  /\ (fst (run env) = 2%Z <-> length (script_args env) < 77)
  /\ (forall d, fst (load env) = inr d ->
        pubkeyHashes d = (firstn 20 (skipn 37 (script_args env)),
                          firstn 20 (skipn 57 (script_args env)))
        /\ length (fst (pubkeyHashes d)) = 20
        /\ length (snd (pubkeyHashes d)) = 20)
  /\ (77 <= length (script_args env) ->
      length witnessData = 132 ->
      (byte_at witnessData 130 <= 1)%Z ->
      (byte_at witnessData 131 <= 1)%Z ->
      byte_at witnessData 130 <> byte_at witnessData 131 ->
      exists d, fst (load env) = inr d
        /\ pubkeyHashes d = (firstn 20 (skipn 37 (script_args env)),
                             firstn 20 (skipn 57 (script_args env))))
  /\ (forall prefix1 prefix2 rest,
        length prefix1 = 37 -> length prefix2 = 37 ->
        script_args env = prefix1 ++ rest ->
        let env' := mkEnv (prefix2 ++ rest) (witness_lock env) (tx_hash env) in
        load env' = load env /\ run env' = run env).
Proof.
  intros witnessData. split; [|split; [|split; [|split]]].
  - rewrite loadAndValidateInputs_result. cbv zeta.
    destruct (length (script_args env) <? 77) eqn:Hc.
    + apply Nat.ltb_lt in Hc. split; [lia|reflexivity].
    + apply Nat.ltb_ge in Hc.
      destruct (negb (length _ =? 132)).
      * split; [discriminate|lia].
      * destruct (negb (_ =? 0)%Z).
        -- rewrite validatePubkeyIndices_code.
           destruct (_ || _); split; try discriminate; lia.
        -- split; [discriminate|lia].
  - rewrite main_code_spec. unfold spec_verify, pipeline, ConfigParser_ok.
    change (spec_prefix_length + 40) with 77. cbn [first_failure].
    destruct (77 <=? length (script_args env)) eqn:Hc.
    + apply Nat.leb_le in Hc.
      split_branches; split; try discriminate; lia.
    + apply Nat.leb_gt in Hc. split; [lia|reflexivity].
  - intros d Hd. rewrite loadAndValidateInputs_result in Hd. cbv zeta in Hd.
    destruct (length (script_args env) <? 77) eqn:Hc; [discriminate|].
    apply Nat.ltb_ge in Hc.
    destruct (negb (length _ =? 132)); [discriminate|].
    destruct (negb (_ =? 0)%Z); [discriminate|].
    injection Hd as <-. cbn [pubkeyHashes].
    rewrite args_pubkeyHashes_offsets. cbn [fst snd].
    rewrite !length_firstn, !length_skipn. repeat split; lia.
  - intros Hc Hp H130 H131 Hne.
    eexists. split.
    + apply loadAndValidateInputs_valid; [exact Hc|exact Hp|].
      apply indices_valid; assumption.
    + reflexivity.
  - intros prefix1 prefix2 rest H1 H2 Hargs env'.
    assert (Hload : load env' = load env).
    { apply loadAndValidateInputs_args_ext; cbn [script_args witness_lock env'].
      - rewrite Hargs, !length_app. lia.
      - rewrite Hargs, !args_pubkeyHashes_prefix by assumption. reflexivity.
      - reflexivity. }
    split; [exact Hload|].
    apply main_args_ext; [exact Hload|reflexivity].
Qed.

(** ** Proof-buffer parsing *)

(** C3: with script args of at least 77 bytes, the run exits with code 3
    exactly when the witness data is not 132 bytes long, whatever its
    content.  At 132 bytes parsing goes on: the two signatures are the
    65-byte slices at offsets 0 and 65 and the two indices are the bytes at
    offsets 130 and 131; the loader rejects with code 4 exactly when those
    two bytes are not valid indices, and otherwise it does return input
    data, which carries exactly these signatures and indices. *)
Theorem proof_wrong_length_iff_and_slices (env : Env) :
  let witnessData := new_Uint8Array (witness_lock env) in
  let index1 := byte_at witnessData 130 in
  let index2 := byte_at witnessData 131 in
  77 <= length (script_args env) ->
  (fst (run env) = 3%Z <-> length witnessData <> 132)
  /\ (fst (load env) = inl 3%Z <-> length witnessData <> 132)
  /\ (length witnessData = 132 ->
        witness_signatures witnessData =
          (firstn 65 witnessData, firstn 65 (skipn 65 witnessData))
        /\ length (fst (witness_signatures witnessData)) = 65
        /\ length (snd (witness_signatures witnessData)) = 65
        /\ witness_pubkeyIndices witnessData = (Num index1, Num index2)
        /\ (forall d, fst (load env) = inr d ->
              signatures d = witness_signatures witnessData
              /\ pubkeyIndices d = witness_pubkeyIndices witnessData)
        /\ (fst (load env) = inl 4%Z <->
              (1 < index1 \/ 1 < index2 \/ index1 = index2)%Z)
        /\ ((index1 <= 1)%Z -> (index2 <= 1)%Z -> index1 <> index2 ->
              fst (load env) =
                inr (mkInputData
                       (args_pubkeyHashes (script_args env))
                       (firstn 65 witnessData,
                        firstn 65 (skipn 65 witnessData))
                       (Num index1, Num index2)))).
Proof.
  intros witnessData index1 index2 Hc. split; [|split].
  - rewrite main_code_spec.
    unfold spec_verify, pipeline, ConfigParser_ok, AuthorizationParser_ok.
    change (spec_prefix_length + 40) with 77. fold witnessData.
    replace (77 <=? length (script_args env)) with true
      by (symmetry; apply Nat.leb_le; lia).
    cbn [first_failure].
    destruct (length witnessData =? 132) eqn:Hp.
    + apply Nat.eqb_eq in Hp.
      split_branches; split; try discriminate; lia.
    + apply Nat.eqb_neq in Hp. split; [intros _; exact Hp|reflexivity].
  - rewrite loadAndValidateInputs_result. cbv zeta. fold witnessData.
    replace (length (script_args env) <? 77) with false
      by (symmetry; apply Nat.ltb_ge; lia).
    destruct (length witnessData =? 132) eqn:Hp; cbn [negb].
    + apply Nat.eqb_eq in Hp.
      destruct (negb (_ =? 0)%Z).
      * rewrite validatePubkeyIndices_code.
        destruct (_ || _); split; try discriminate; lia.
      * split; [discriminate|lia].
    + apply Nat.eqb_neq in Hp. split; [intros _; exact Hp|reflexivity].
  - intros Hp. split; [reflexivity|].
    rewrite witness_signatures_spec. cbn [fst snd].
    rewrite !length_spec_signature by lia.
    split; [reflexivity|]. split; [reflexivity|].
    split; [apply witness_pubkeyIndices_spec; assumption|].
    split; [|split].
    + intros d Hd. rewrite loadAndValidateInputs_result in Hd. cbv zeta in Hd.
      fold witnessData in Hd.
      destruct (length (script_args env) <? 77); [discriminate|].
      destruct (negb (length witnessData =? 132)); [discriminate|].
      destruct (negb (_ =? 0)%Z); [discriminate|].
      injection Hd as <-. split; reflexivity.
    + rewrite <- IndexValidator_ok_false_iff by apply byte_at_range.
      rewrite loadAndValidateInputs_result. cbv zeta. fold witnessData.
      replace (length (script_args env) <? 77) with false
        by (symmetry; apply Nat.ltb_ge; lia).
      rewrite Hp. cbn [Nat.eqb negb].
      rewrite witness_pubkeyIndices_spec by assumption.
      rewrite validatePubkeyIndices_spec by apply byte_at_range.
      change (spec_selector witnessData 0) with index1.
      change (spec_selector witnessData 1) with index2.
      destruct (IndexValidator_ok index1 index2); cbn [Z.eqb negb];
        split; try discriminate; reflexivity.
    + intros H1 H2 Hne.
      apply (loadAndValidateInputs_valid env Hc Hp).
      apply indices_valid; assumption.
Qed.

(** ** Selector validation *)

(** C4: with script args of at least 77 bytes and witness data of 132
    bytes, the run exits with code 4 exactly when one of the two index
    bytes (offsets 130 and 131) is greater than 1 or the two are equal.  So
    equal indices give code 4, and so does any index of 2 or more. *)
Theorem bad_selector_iff (env : Env) :
  let witnessData := new_Uint8Array (witness_lock env) in
  let index1 := byte_at witnessData 130 in
  let index2 := byte_at witnessData 131 in
  77 <= length (script_args env) ->
  length witnessData = 132 ->
  (fst (run env) = 4%Z <-> (1 < index1 \/ 1 < index2 \/ index1 = index2)%Z)
  /\ (index1 = index2 -> fst (run env) = 4%Z)
  /\ ((2 <= index1 \/ 2 <= index2)%Z -> fst (run env) = 4%Z).
Proof.
  intros witnessData index1 index2 Hc Hp.
  assert (Hiff : fst (run env) = 4%Z <->
                 (1 < index1 \/ 1 < index2 \/ index1 = index2)%Z).
  { rewrite <- IndexValidator_ok_false_iff by apply byte_at_range.
    rewrite main_code_spec.
    unfold spec_verify, pipeline, ConfigParser_ok, AuthorizationParser_ok.
    change (spec_prefix_length + 40) with 77. fold witnessData.
    replace (77 <=? length (script_args env)) with true
      by (symmetry; apply Nat.leb_le; lia).
    rewrite Hp. cbn [Nat.eqb first_failure].
    change (spec_selector witnessData 0) with index1.
    change (spec_selector witnessData 1) with index2.
    destruct (IndexValidator_ok index1 index2).
    - split_branches; split; discriminate.
    - split; reflexivity. }
  split; [exact Hiff|]. split.
  - intros Heq. apply Hiff. auto.
  - intros Hge. apply Hiff. lia.
Qed.

(** ** Key recovery on the two signatures of a 132-byte witness *)

Lemma byte_at_spec_signature (w : bytes) (i : nat) :
  byte_at (spec_signature w i) 64 = byte_at w (65 * i + 64).
Proof.
  unfold byte_at, spec_signature.
  rewrite nth_firstn, nth_skipn. reflexivity.
Qed.

Lemma payload_spec_signature (w : bytes) (i : nat) :
  slice (spec_signature w i) 0 64 = firstn 64 (skipn (65 * i) w).
Proof.
  change (slice (spec_signature w i) 0 64)
    with (firstn 64 (spec_signature w i)).
  unfold spec_signature. rewrite firstn_firstn. reflexivity.
Qed.

Lemma recoverPublicKey_signature_result (w message_hash : bytes) (i : nat) :
  length w = 132 -> i < 2 ->
  fst (recoverPK message_hash (spec_signature w i)) =
  if (3 <? byte_at w (65 * i + 64))%Z then None
  else match secp256k1_recover (firstn 64 (skipn (65 * i) w))
                               (Num (byte_at w (65 * i + 64)))
                               message_hash with
       | None => None
       | Some k => secp256k1_serializePubkey k false
       end.
Proof.
  intros Hw Hi. rewrite recoverPublicKey_result.
  rewrite length_spec_signature by assumption. cbn [Nat.eqb negb].
  rewrite u8_get_in_range
    by (rewrite length_spec_signature by assumption; lia).
  rewrite byte_at_spec_signature, payload_spec_signature. reflexivity.
Qed.

Lemma recoverPublicKey_signature_calls (w message_hash : bytes) (i : nat) :
  length w = 132 -> i < 2 ->
  binding_calls (snd (recoverPK message_hash (spec_signature w i))) =
  if (3 <? byte_at w (65 * i + 64))%Z then []
  else
    EvRecover (firstn 64 (skipn (65 * i) w))
              (Num (byte_at w (65 * i + 64))) message_hash ::
    match secp256k1_recover (firstn 64 (skipn (65 * i) w))
                            (Num (byte_at w (65 * i + 64)))
                            message_hash with
    | None => []
    | Some k => [EvSerializePubkey k false]
    end.
Proof.
  intros Hw Hi. rewrite recoverPublicKey_calls.
  rewrite length_spec_signature by assumption. cbn [Nat.eqb negb].
  rewrite u8_get_in_range
    by (rewrite length_spec_signature by assumption; lia).
  rewrite byte_at_spec_signature, payload_spec_signature. reflexivity.
Qed.

Lemma IndexValidator_ok_intro (s0 s1 : Z) :
  (0 <= s0 <= 1)%Z -> (0 <= s1 <= 1)%Z -> s0 <> s1 ->
  IndexValidator_ok s0 s1 = true.
Proof.
  intros H0 H1 Hne.
  destruct (IndexValidator_ok s0 s1) eqn:E; [reflexivity|].
  apply IndexValidator_ok_false_iff in E; lia.
Qed.

(** The run on inputs that pass the three structural checks. *)
Lemma main_valid_inputs (env : Env) :
  let w := new_Uint8Array (witness_lock env) in
  let hashes := args_pubkeyHashes (script_args env) in
  let first :=
    verifySig (mkParams (tx_hash env) (firstn 65 w) hashes
                        (Num (byte_at w 130)) "signature1") in
  let second :=
    verifySig (mkParams (tx_hash env) (firstn 65 (skipn 65 w)) hashes
                        (Num (byte_at w 131)) "signature2") in
  77 <= length (script_args env) -> length w = 132 ->
  (byte_at w 130 <= 1)%Z -> (byte_at w 131 <= 1)%Z ->
  byte_at w 130 <> byte_at w 131 ->
  fst (run env) =
    (if negb (fst first =? 0)%Z then fst first
     else if negb (fst second =? 0)%Z then fst second else 0%Z)
  /\ binding_calls (snd (run env)) =
       binding_calls (snd first)
       ++ if negb (fst first =? 0)%Z then [] else binding_calls (snd second).
Proof.
  intros w hashes first second Hc Hw H0 H1 Hne.
  assert (Hload := loadAndValidateInputs_valid env Hc Hw).
  cbv zeta in Hload. fold w in Hload.
  pose proof (byte_at_range w 130). pose proof (byte_at_range w 131).
  assert (Hsel : IndexValidator_ok (spec_selector w 0) (spec_selector w 1)
                 = true).
  { apply IndexValidator_ok_intro;
      unfold spec_selector; cbn [Nat.add]; (lia || assumption). }
  specialize (Hload Hsel).
  rewrite main_code, main_calls, Hload. split; reflexivity.
Qed.

(** The signature checks are reached exactly on inputs that pass the three
    structural checks. *)
Lemma loadAndValidateInputs_accepts (env : Env) (d : InputData) :
  let w := new_Uint8Array (witness_lock env) in
  fst (load env) = inr d ->
  77 <= length (script_args env) /\ length w = 132
  /\ (byte_at w 130 <= 1)%Z /\ (byte_at w 131 <= 1)%Z
  /\ byte_at w 130 <> byte_at w 131
  /\ d = mkInputData (args_pubkeyHashes (script_args env))
                     (firstn 65 w, firstn 65 (skipn 65 w))
                     (Num (byte_at w 130), Num (byte_at w 131)).
Proof.
  intros w Hd. rewrite loadAndValidateInputs_result in Hd. cbv zeta in Hd.
  fold w in Hd.
  destruct (length (script_args env) <? 77) eqn:Hc; [discriminate|].
  apply Nat.ltb_ge in Hc.
  destruct (length w =? 132) eqn:Hw; [|discriminate].
  apply Nat.eqb_eq in Hw. cbn [negb] in Hd.
  rewrite witness_pubkeyIndices_spec in Hd by assumption.
  rewrite validatePubkeyIndices_spec in Hd by apply byte_at_range.
  change (spec_selector w 0) with (byte_at w 130) in Hd.
  change (spec_selector w 1) with (byte_at w 131) in Hd.
  destruct (IndexValidator_ok (byte_at w 130) (byte_at w 131)) eqn:Hsel;
    [|discriminate].
  cbn [Z.eqb negb] in Hd. injection Hd as <-.
  pose proof (byte_at_range w 130). pose proof (byte_at_range w 131).
  assert (Hnot : ~ (1 < byte_at w 130 \/ 1 < byte_at w 131
                    \/ byte_at w 130 = byte_at w 131)%Z).
  { intros Hbad. apply IndexValidator_ok_false_iff in Hbad; [|lia|lia].
    congruence. }
  split; [exact Hc|]. split; [exact Hw|].
  split; [lia|]. split; [lia|]. split; [lia|reflexivity].
Qed.

(** ** Recovery failures *)

(** C5, amended with the structural checks that run first: when the script
    args have at least 77 bytes, the witness data has 132 bytes and the two
    indices are valid, (1) a recovery id of signature 0 (offset 64) above 3
    gives code 5 and no binding is called; (2) if signature 0 verifies and
    the recovery id of signature 1 (offset 129) is above 3, the code is 5
    and the recovery binding was called for signature 0 only; (3) code 5 is
    also returned when a recovery id is in 0-3 and the recovery binding
    rejects the signature. *)
Theorem recovery_failure_gives_code_5 (env : Env) :
  let w := new_Uint8Array (witness_lock env) in
  let hashes := args_pubkeyHashes (script_args env) in
  let first :=
    verifySig (mkParams (tx_hash env) (firstn 65 w) hashes
                        (Num (byte_at w 130)) "signature1") in
  77 <= length (script_args env) -> length w = 132 ->
  (byte_at w 130 <= 1)%Z -> (byte_at w 131 <= 1)%Z ->
  byte_at w 130 <> byte_at w 131 ->
  ((3 < byte_at w 64)%Z ->
     fst (run env) = 5%Z /\ binding_calls (snd (run env)) = [])
  /\ (fst first = 0%Z -> (3 < byte_at w 129)%Z ->
        fst (run env) = 5%Z
        /\ filter is_recover_call (snd (run env)) =
             [EvRecover (firstn 64 w) (Num (byte_at w 64)) (tx_hash env)])
  /\ ((byte_at w 64 <= 3)%Z ->
        secp256k1_recover (firstn 64 w) (Num (byte_at w 64)) (tx_hash env)
          = None ->
        fst (run env) = 5%Z)
  /\ (fst first = 0%Z -> (byte_at w 129 <= 3)%Z ->
        secp256k1_recover (firstn 64 (skipn 65 w)) (Num (byte_at w 129))
                          (tx_hash env) = None ->
        fst (run env) = 5%Z).
Proof.
  intros w hashes first Hc Hw H0 H1 Hne.
  destruct (main_valid_inputs env Hc Hw H0 H1 Hne) as [Hcode Hcalls].
  fold w hashes first in Hcode, Hcalls.
  rewrite Hcode, filter_recover_binding_calls, Hcalls.
  assert (Hfirst := verifySignature_code
    (mkParams (tx_hash env) (firstn 65 w) hashes (Num (byte_at w 130))
              "signature1")).
  assert (Hfirst_calls := verifySignature_calls
    (mkParams (tx_hash env) (firstn 65 w) hashes (Num (byte_at w 130))
              "signature1")).
  fold first in Hfirst, Hfirst_calls.
  cbn [p_messageHash p_signature p_pubkeyHashes p_pubkeyIndex]
    in Hfirst, Hfirst_calls.
  change (firstn 65 w) with (spec_signature w 0) in Hfirst, Hfirst_calls.
  rewrite (recoverPublicKey_signature_result w (tx_hash env) 0 Hw)
    in Hfirst, Hfirst_calls by lia.
  rewrite (recoverPublicKey_signature_calls w (tx_hash env) 0 Hw)
    in Hfirst_calls by lia.
  rewrite verifySignature_code, verifySignature_calls.
  cbn [p_messageHash p_signature p_pubkeyHashes p_pubkeyIndex].
  change (firstn 65 (skipn 65 w)) with (spec_signature w 1).
  rewrite (recoverPublicKey_signature_result w (tx_hash env) 1 Hw) by lia.
  rewrite (recoverPublicKey_signature_calls w (tx_hash env) 1 Hw) by lia.
  change (65 * 0 + 64) with 64 in *. change (65 * 1 + 64) with 129 in *.
  change (skipn (65 * 0) w) with w in *.
  change (65 * 1) with 65 in *.
  split; [|split; [|split]].
  - intros Hrid. rewrite Hfirst, Hfirst_calls.
    replace (3 <? byte_at w 64)%Z with true by lia.
    split; reflexivity.
  - intros Hok Hrid. rewrite Hok. cbn [Z.eqb negb].
    replace (3 <? byte_at w 129)%Z with true by lia.
    split; [reflexivity|].
    rewrite Hfirst_calls. rewrite Hfirst in Hok.
    destruct (3 <? byte_at w 64)%Z; [discriminate|].
    destruct (secp256k1_recover (firstn 64 w) _ _) as [k|]; [|discriminate].
    destruct (secp256k1_serializePubkey k false); [|discriminate].
    reflexivity.
  - intros Hrid Hrej. rewrite Hfirst, Hrej.
    replace (3 <? byte_at w 64)%Z with false by lia. reflexivity.
  - intros Hok Hrid Hrej. rewrite Hok, Hrej. cbn [Z.eqb negb].
    replace (3 <? byte_at w 129)%Z with false by lia. reflexivity.
Qed.

(** ** Fingerprint comparison *)

Lemma In_binding_calls (e : event PubKey) (t : list (event PubKey)) :
  In e (binding_calls t) -> In e t.
Proof.
  unfold binding_calls. rewrite filter_In. tauto.
Qed.

Lemma verifySignature_recovered (params : SignatureVerificationParams)
      (pubkey : bytes) :
  fst (recoverPK (p_messageHash params) (p_signature params)) = Some pubkey ->
  (fst (verifySig params) =
     if bytesEq (firstn 20 (hashCkb pubkey))
                (getExpectedHash (p_pubkeyHashes params) (p_pubkeyIndex params))
     then 0%Z else 1%Z)
  /\ In (EvHashCkb pubkey) (binding_calls (snd (verifySig params))).
Proof.
  intros Hrec. rewrite verifySignature_code, verifySignature_calls, Hrec.
  split; [reflexivity|]. apply in_or_app. right. left. reflexivity.
Qed.

(** C6: when the signature checks are reached ([loadAndValidateInputs]
    returns input data), the fingerprint of a signature is [hashPublicKey]
    of the recovered key, that is the first 20 bytes of [hashCkb] applied to
    the key that [serializePubkey] returned in uncompressed form for the key
    recovered from that signature.  If it differs from the configured hash
    selected by the signature's index byte (the slice of the script args at
    offset 37 for index 0, 57 for index 1) the run exits with code 1;
    signature 1 is reached when signature 0 matched; and if the fingerprints
    match for both signatures the run exits with code 0. *)
Theorem fingerprint_mismatch_gives_code_1 (env : Env) (d : InputData) :
  let config := script_args env in
  let w := new_Uint8Array (witness_lock env) in
  let tx := tx_hash env in
  let fingerprint := fun key : bytes => firstn 20 (hashCkb key) in
  let expected := fun i : nat => KeyFingerprintPair config (byte_at w (130 + i)) in
  fst (load env) = inr d ->
  (forall key, hashPK key = (fingerprint key, [EvHashCkb key]))
  /\ (forall key0,
        fst (recoverPK tx (fst (signatures d))) = Some key0 ->
        (exists k,
            secp256k1_recover (firstn 64 w) (Num (byte_at w 64)) tx = Some k
            /\ secp256k1_serializePubkey k false = Some key0)
        /\ In (EvHashCkb key0) (snd (run env))
        /\ (fingerprint key0 <> expected 0 -> fst (run env) = 1%Z)
        /\ (fingerprint key0 = expected 0 ->
            forall key1,
              fst (recoverPK tx (snd (signatures d))) = Some key1 ->
              (exists k,
                  secp256k1_recover (firstn 64 (skipn 65 w))
                                    (Num (byte_at w 129)) tx = Some k
                  /\ secp256k1_serializePubkey k false = Some key1)
              /\ In (EvHashCkb key1) (snd (run env))
              /\ (fingerprint key1 <> expected 1 -> fst (run env) = 1%Z)
              /\ (fingerprint key1 = expected 1 -> fst (run env) = 0%Z))).
Proof.
  intros config w tx fingerprint expected Hd.
  destruct (loadAndValidateInputs_accepts env d Hd)
    as (Hc & Hw & H0 & H1 & Hne & ->).
  fold w. cbn [signatures fst snd].
  split; [intros key; apply hashPublicKey_eq|].
  destruct (main_valid_inputs env Hc Hw H0 H1 Hne) as [Hcode Hcalls].
  fold config w tx in Hcode, Hcalls.
  intros key0 Hrec0.
  destruct (verifySignature_recovered
              (mkParams tx (firstn 65 w) (args_pubkeyHashes config)
                        (Num (byte_at w 130)) "signature1") key0 Hrec0)
    as [Hfirst Hin0].
  cbn [p_pubkeyHashes p_pubkeyIndex] in Hfirst.
  rewrite getExpectedHash_spec in Hfirst.
  change (KeyFingerprintPair config (byte_at w 130)) with (expected 0) in Hfirst.
  fold (fingerprint key0) in Hfirst.
  split.
  { change (firstn 65 w) with (spec_signature w 0) in Hrec0.
    rewrite (recoverPublicKey_signature_result w tx 0 Hw) in Hrec0 by lia.
    change (65 * 0 + 64) with 64 in Hrec0.
    change (skipn (65 * 0) w) with w in Hrec0.
    destruct (3 <? byte_at w 64)%Z; [discriminate|].
    destruct (secp256k1_recover (firstn 64 w) _ _) as [k|]; [|discriminate].
    exists k. split; [reflexivity|exact Hrec0]. }
  split.
  { apply In_binding_calls. rewrite Hcalls. apply in_or_app. left.
    exact Hin0. }
  split.
  { intros Hdiff. apply bytesEq_false_iff in Hdiff.
    rewrite Hdiff in Hfirst. rewrite Hcode, Hfirst. reflexivity. }
  intros Hsame key1 Hrec1. apply bytesEq_true_iff in Hsame.
  rewrite Hsame in Hfirst.
  destruct (verifySignature_recovered
              (mkParams tx (firstn 65 (skipn 65 w)) (args_pubkeyHashes config)
                        (Num (byte_at w 131)) "signature2") key1 Hrec1)
    as [Hsecond Hin1].
  cbn [p_pubkeyHashes p_pubkeyIndex] in Hsecond.
  rewrite getExpectedHash_spec in Hsecond.
  change (KeyFingerprintPair config (byte_at w 131)) with (expected 1)
    in Hsecond.
  fold (fingerprint key1) in Hsecond.
  rewrite Hfirst in Hcode, Hcalls. cbn [Z.eqb negb] in Hcode, Hcalls.
  split.
  { change (firstn 65 (skipn 65 w)) with (spec_signature w 1) in Hrec1.
    rewrite (recoverPublicKey_signature_result w tx 1 Hw) in Hrec1 by lia.
    change (65 * 1 + 64) with 129 in Hrec1.
    change (65 * 1) with 65 in Hrec1.
    destruct (3 <? byte_at w 129)%Z; [discriminate|].
    destruct (secp256k1_recover (firstn 64 (skipn 65 w)) _ _) as [k|];
      [|discriminate].
    exists k. split; [reflexivity|exact Hrec1]. }
  split.
  { apply In_binding_calls. rewrite Hcalls. apply in_or_app. right.
    exact Hin1. }
  split.
  - intros Hdiff. apply bytesEq_false_iff in Hdiff.
    rewrite Hdiff in Hsecond. rewrite Hcode, Hsecond. reflexivity.
  - intros Hsame1. apply bytesEq_true_iff in Hsame1.
    rewrite Hsame1 in Hsecond. rewrite Hcode, Hsecond. reflexivity.
Qed.

(** ** Signature 1 after a failure of signature 0 *)

Lemma witness_layout (sig0 sig1 : bytes) (i0 i1 : byte) :
  length sig0 = 65 -> length sig1 = 65 ->
  let w := sig0 ++ sig1 ++ [i0; i1] in
  length w = 132
  /\ firstn 65 w = sig0
  /\ firstn 65 (skipn 65 w) = sig1
  /\ byte_at w 130 = byte_to_Z i0
  /\ byte_at w 131 = byte_to_Z i1.
Proof.
  intros H0 H1 w. unfold w, byte_at.
  repeat split.
  - rewrite !length_app, H0, H1. reflexivity.
  - rewrite firstn_app, H0, firstn_all2 by lia. apply app_nil_r.
  - rewrite skipn_app, H0, skipn_all2 by lia. cbn [app Nat.sub skipn].
    rewrite firstn_app, H1, firstn_all2 by lia. apply app_nil_r.
  - rewrite app_nth2, H0 by lia. rewrite app_nth2, H1 by lia. reflexivity.
  - rewrite app_nth2, H0 by lia. rewrite app_nth2, H1 by lia. reflexivity.
Qed.

(** C7: two runs that agree on the script args, the transaction hash,
    signature 0 and both indices, and differ in the bytes of signature 1.
    If the check of signature 0 is reached in the first run
    ([loadAndValidateInputs] returns input data) and fails, with any code
    other than 0, both runs exit with that code, and in both the only calls
    of the bindings are those made for signature 0: signature 1 is neither
    recovered nor hashed. *)
Theorem signature1_ignored_when_signature0_fails
        (config tx sig0 sig1 sig1' : bytes) (i0 i1 : byte) (d : InputData) :
  let env1 := mkEnv config (Some (sig0 ++ sig1 ++ [i0; i1])) tx in
  let env2 := mkEnv config (Some (sig0 ++ sig1' ++ [i0; i1])) tx in
  let first :=
    verifySig (mkParams tx sig0 (args_pubkeyHashes config)
                        (Num (byte_to_Z i0)) "signature1") in
  length sig0 = 65 -> length sig1 = 65 -> length sig1' = 65 ->
  fst (load env1) = inr d ->
  fst first <> 0%Z ->
  fst (run env1) = fst first
  /\ fst (run env2) = fst first
  /\ binding_calls (snd (run env1)) = binding_calls (snd first)
  /\ binding_calls (snd (run env2)) = binding_calls (snd first)
  /\ length (filter is_recover_call (snd (run env2))) <= 1
  /\ length (filter is_hash_call (snd (run env2))) <= 1.
Proof.
  intros env1 env2 first L0 L1 L1' Hd Hfail.
  destruct (loadAndValidateInputs_accepts env1 d Hd)
    as (Hc & _ & Hi0 & Hi1 & Hne & _).
  cbn [script_args witness_lock env1 new_Uint8Array] in Hc, Hi0, Hi1, Hne.
  destruct (witness_layout sig0 sig1 i0 i1 L0 L1) as (_ & _ & _ & E0 & E1).
  rewrite E0 in Hi0, Hne. rewrite E1 in Hi1, Hne. clear E0 E1.
  assert (Hrun : forall s1, length s1 = 65 ->
            let env := mkEnv config (Some (sig0 ++ s1 ++ [i0; i1])) tx in
            fst (run env) = fst first
            /\ binding_calls (snd (run env)) = binding_calls (snd first)).
  { intros s1 Ls1 env.
    destruct (witness_layout sig0 s1 i0 i1 L0 Ls1)
      as (Hw & Hs0 & _ & Hb0 & Hb1).
    pose proof (main_valid_inputs env) as Hmain. cbv zeta in Hmain.
    cbn [script_args witness_lock tx_hash env new_Uint8Array] in Hmain.
    rewrite Hs0, Hb0, Hb1 in Hmain.
    specialize (Hmain Hc Hw Hi0 Hi1 Hne). fold first in Hmain.
    destruct Hmain as [Hcode Hcalls].
    apply Z.eqb_neq in Hfail. rewrite Hfail in Hcode, Hcalls.
    cbn [negb] in Hcode, Hcalls. rewrite app_nil_r in Hcalls.
    split; assumption. }
  destruct (Hrun sig1 L1) as [Hcode1 Hcalls1].
  destruct (Hrun sig1' L1') as [Hcode2 Hcalls2].
  fold env1 in Hcode1, Hcalls1. fold env2 in Hcode2, Hcalls2.
  repeat split; try assumption.
  - rewrite filter_recover_binding_calls, Hcalls2,
      <- filter_recover_binding_calls.
    apply verifySignature_recover_once.
  - rewrite filter_hash_binding_calls, Hcalls2, <- filter_hash_binding_calls.
    apply verifySignature_hash_once.
Qed.

(** ** The signature-length branch of [recoverPublicKey] *)

Lemma loadAndValidateInputs_no_length_failure (env : Env) :
  filter is_signature_length_failure (snd (load env)) = [].
Proof.
  rewrite loadAndValidateInputs_trace. cbv zeta.
  rewrite validatePubkeyIndices_trace.
  split_branches; reflexivity.
Qed.

Lemma verifySignature_no_length_failure
      (params : SignatureVerificationParams) :
  length (p_signature params) = 65 ->
  filter is_signature_length_failure (snd (verifySig params)) = [].
Proof.
  intros Hlen. rewrite verifySignature_trace, recoverPublicKey_trace, Hlen.
  cbn [Nat.eqb negb]. rewrite filter_app.
  split_branches; reflexivity.
Qed.

Lemma loadAndValidateInputs_signature_lengths (env : Env) (d : InputData) :
  fst (load env) = inr d ->
  length (fst (signatures d)) = 65 /\ length (snd (signatures d)) = 65.
Proof.
  intros Hd. rewrite loadAndValidateInputs_result in Hd. cbv zeta in Hd.
  destruct (length (script_args env) <? 77); [discriminate|].
  destruct (length (new_Uint8Array (witness_lock env)) =? 132) eqn:Hw;
    [|discriminate].
  apply Nat.eqb_eq in Hw. cbn [negb] in Hd.
  destruct (negb (_ =? 0)%Z); [discriminate|].
  injection Hd as <-. cbn [signatures].
  rewrite witness_signatures_spec. cbn [fst snd].
  split; apply length_spec_signature; (assumption || lia).
Qed.

(** C9: every signature handed to [recoverPublicKey] by the verifier is a
    65-byte slice of witness data already checked to be 132 bytes long, so
    the signature-length branch is never taken: its debug message occurs in
    the trace of no run. *)
Theorem signature_length_branch_unreachable (env : Env) :
  (forall d, fst (load env) = inr d ->
     length (fst (signatures d)) = 65 /\ length (snd (signatures d)) = 65)
  /\ filter is_signature_length_failure (snd (run env)) = []
  /\ (forall len expected,
        ~ In (EvDebug (MsgInvalidSignatureLength len expected))
             (snd (run env))).
Proof.
  assert (Hnone : filter is_signature_length_failure (snd (run env)) = []).
  { rewrite main_trace, filter_app, loadAndValidateInputs_no_length_failure.
    destruct (fst (load env)) as [code|d] eqn:Hd; [reflexivity|].
    destruct (loadAndValidateInputs_signature_lengths env d Hd) as [L0 L1].
    cbv zeta. rewrite !filter_app.
    rewrite verifySignature_no_length_failure by exact L0.
    destruct (negb (_ =? 0)%Z); [reflexivity|].
    rewrite verifySignature_no_length_failure by exact L1. reflexivity. }
  split; [apply loadAndValidateInputs_signature_lengths|].
  split; [exact Hnone|].
  intros len expected Hin.
  assert (Hf : In (EvDebug (MsgInvalidSignatureLength len expected))
                  (filter is_signature_length_failure (snd (run env)))).
  { apply filter_In. split; [exact Hin|reflexivity]. }
  rewrite Hnone in Hf. exact Hf.
Qed.

(** ** The precondition of the recovery binding *)

Lemma recover_precondition_binding_calls (t : list (event PubKey)) :
  Forall recover_precondition (binding_calls t) ->
  Forall recover_precondition t.
Proof.
  induction t as [|e t IH]; intros H; [constructor|].
  destruct e; cbn in H;
    try (constructor; [exact I|apply IH; exact H]);
    inversion H; subst; constructor; auto.
Qed.

Lemma recoverPublicKey_precondition (message_hash signature : bytes) :
  Forall recover_precondition
         (binding_calls (snd (recoverPK message_hash signature))).
Proof.
  rewrite recoverPublicKey_calls.
  destruct (length signature =? 65) eqn:Hlen; cbn [negb]; [|constructor].
  apply Nat.eqb_eq in Hlen.
  destruct (js_gt (u8_get signature 64) 3) eqn:Hrid; [constructor|].
  constructor.
  - split.
    + rewrite length_slice. lia.
    + rewrite u8_get_in_range in * by lia. cbn [js_gt] in Hrid.
      exists (byte_at signature 64). split; [reflexivity|].
      pose proof (byte_at_range signature 64). lia.
  - destruct (secp256k1_recover _ _ _); repeat constructor.
Qed.

Lemma verifySignature_precondition (params : SignatureVerificationParams) :
  Forall recover_precondition (binding_calls (snd (verifySig params))).
Proof.
  rewrite verifySignature_calls. apply Forall_app. split.
  - apply recoverPublicKey_precondition.
  - destruct (fst (recoverPK _ _)); repeat constructor.
Qed.

(** C10: [secp256k1.recover] is only ever called with a 64-byte payload
    and a recovery id that is a number from 0 to 3: in [recoverPublicKey],
    for any message and any signature, and so in every run of the
    verifier. *)
Theorem recover_called_with_valid_recovery_id :
  (forall message_hash signature,
     Forall recover_precondition (snd (recoverPK message_hash signature)))
  /\ (forall env, Forall recover_precondition (snd (run env))).
Proof.
  split.
  - intros message_hash signature.
    apply recover_precondition_binding_calls, recoverPublicKey_precondition.
  - intros env. apply recover_precondition_binding_calls.
    rewrite main_calls.
    destruct (fst (load env)) as [code|d]; [constructor|].
    cbv zeta. apply Forall_app. split.
    + apply verifySignature_precondition.
    + destruct (negb (_ =? 0)%Z);
        [constructor|apply verifySignature_precondition].
Qed.

(** ** The range of exit codes *)

Lemma main_code_range (env : Env) :
  In (fst (run env)) [0; 1; 2; 3; 4; 5]%Z.
Proof.
  rewrite main_code_spec. unfold spec_verify, pipeline. cbn [first_failure].
  split_branches; cbn; tauto.
Qed.

End Properties.

(** ** Determinism *)

Section Determinism.

Variable PubKey : Type.
Variable recover_answers : bytes -> jsnum -> bytes -> option PubKey -> Prop.
Variable serializePubkey_answers : PubKey -> bool -> option bytes -> Prop.
Variable hashCkb_answers : bytes -> bytes -> Prop.

Local Abbreviation recover_returns :=
  (recoverPublicKey_returns recover_answers serializePubkey_answers).
Local Abbreviation verify_returns :=
  (verifySignature_returns recover_answers serializePubkey_answers
                           hashCkb_answers).
Local Abbreviation returns :=
  (main_returns recover_answers serializePubkey_answers hashCkb_answers).

(** No hypothesis on the bindings is needed for the range of the codes. *)
Lemma verifySignature_returns_range (params : SignatureVerificationParams)
      (code : Z) :
  verify_returns params code -> In code [0; 1; 5]%Z.
Proof.
  intros H. destruct H; cbn; tauto.
Qed.

Lemma loadAndValidateInputs_rejection_range (env : Env) (code : Z) :
  fst (@loadAndValidateInputs PubKey env) = inl code ->
  In code [2; 3; 4]%Z.
Proof.
  intros H. rewrite loadAndValidateInputs_result in H. cbv zeta in H.
  destruct (length (script_args env) <? 77).
  { injection H as <-. cbn; tauto. }
  destruct (negb (length _ =? 132)).
  { injection H as <-. cbn; tauto. }
  destruct (negb (_ =? 0)%Z) eqn:E; [|discriminate].
  injection H as <-. rewrite validatePubkeyIndices_code in E |- *.
  destruct (_ || _); [cbn; tauto|discriminate E].
Qed.

Lemma main_returns_range (env : Env) (code : Z) :
  returns env code -> In code [0; 1; 2; 3; 4; 5]%Z.
Proof.
  intros H. destruct H as [code Hl|d code _ Hv _|d code _ _ Hv _|d _ _ _].
  - apply loadAndValidateInputs_rejection_range in Hl.
    cbn in Hl |- *. tauto.
  - apply verifySignature_returns_range in Hv. cbn in Hv |- *. tauto.
  - apply verifySignature_returns_range in Hv. cbn in Hv |- *. tauto.
  - cbn. tauto.
Qed.

(** The bindings are pure: what a call gives back is a function of its
    arguments. *)
Hypothesis recover_pure :
  forall signature_data recovery_id message_hash answer1 answer2,
    recover_answers signature_data recovery_id message_hash answer1 ->
    recover_answers signature_data recovery_id message_hash answer2 ->
    answer1 = answer2.
Hypothesis serializePubkey_pure :
  forall pubkey compressed answer1 answer2,
    serializePubkey_answers pubkey compressed answer1 ->
    serializePubkey_answers pubkey compressed answer2 ->
    answer1 = answer2.
Hypothesis hashCkb_pure :
  forall data answer1 answer2,
    hashCkb_answers data answer1 -> hashCkb_answers data answer2 ->
    answer1 = answer2.

(** Two answers to the same call are the same answer. *)
Ltac same_answers :=
  repeat match goal with
         | A : recover_answers ?d ?i ?m ?x, B : recover_answers ?d ?i ?m ?y
           |- _ =>
             pose proof (recover_pure d i m x y A B); clear B;
             try discriminate; subst
         | A : serializePubkey_answers ?k ?c ?x,
           B : serializePubkey_answers ?k ?c ?y |- _ =>
             pose proof (serializePubkey_pure k c x y A B); clear B;
             try discriminate; subst
         | A : hashCkb_answers ?d ?x, B : hashCkb_answers ?d ?y |- _ =>
             pose proof (hashCkb_pure d x y A B); clear B; subst
         | H : Some _ = Some _ |- _ => injection H as H; subst
         end.

Lemma recoverPublicKey_returns_functional (message_hash signature : bytes)
      (r1 r2 : option bytes) :
  recover_returns message_hash signature r1 ->
  recover_returns message_hash signature r2 ->
  r1 = r2.
Proof.
  intros H1 H2.
  destruct H1; inversion H2; subst; try reflexivity; try congruence;
    same_answers; reflexivity.
Qed.

Lemma hashPublicKey_returns_functional (pubkey h1 h2 : bytes) :
  hashPublicKey_returns hashCkb_answers pubkey h1 ->
  hashPublicKey_returns hashCkb_answers pubkey h2 ->
  h1 = h2.
Proof.
  intros H1 H2. destruct H1; inversion H2; subst. same_answers. reflexivity.
Qed.

Lemma verifySignature_returns_functional
      (params : SignatureVerificationParams) (c1 c2 : Z) :
  verify_returns params c1 -> verify_returns params c2 -> c1 = c2.
Proof.
  intros H1 H2.
  destruct H1 as [R1|k1 h1 R1 Hh1 E1|k1 h1 R1 Hh1 E1];
    destruct H2 as [R2|k2 h2 R2 Hh2 E2|k2 h2 R2 Hh2 E2];
    try reflexivity;
    pose proof (recoverPublicKey_returns_functional _ _ _ _ R1 R2) as Hk;
    try discriminate;
    injection Hk as <-;
    pose proof (hashPublicKey_returns_functional _ _ _ Hh1 Hh2) as <-;
    congruence.
Qed.

Lemma main_returns_functional (env : Env) (code1 code2 : Z) :
  returns env code1 -> returns env code2 -> code1 = code2.
Proof.
  intros H1 H2.
  destruct H1 as [c1 L1|d1 c1 L1 V1 N1|d1 c1 L1 V1 W1 N1|d1 L1 V1 W1];
    destruct H2 as [c2 L2|d2 c2 L2 V2 N2|d2 c2 L2 V2 W2 N2|d2 L2 V2 W2];
    try congruence;
    assert (d2 = d1) by congruence; subst d2;
    repeat match goal with
           | A : verify_returns ?p ?x, B : verify_returns ?p ?y |- _ =>
               pose proof (verifySignature_returns_functional p x y A B);
               clear B
           end;
    congruence.
Qed.

(** Every call of a binding ends, returning or throwing. *)
Hypothesis recover_answers_always :
  forall signature_data recovery_id message_hash,
    exists answer,
      recover_answers signature_data recovery_id message_hash answer.
Hypothesis serializePubkey_answers_always :
  forall pubkey compressed,
    exists answer, serializePubkey_answers pubkey compressed answer.
Hypothesis hashCkb_answers_always :
  forall data, exists answer, hashCkb_answers data answer.

Lemma recoverPublicKey_returns_always (message_hash signature : bytes) :
  exists r, recover_returns message_hash signature r.
Proof.
  destruct (Nat.eq_dec (length signature) SIGNATURE_LENGTH) as [Hlen|Hlen];
    [|exists None; apply invalid_signature_length; exact Hlen].
  destruct (js_gt (u8_get signature RECOVERY_ID_OFFSET) 3) eqn:Hid;
    [exists None; apply invalid_recovery_id; assumption|].
  destruct (recover_answers_always
              (slice signature 0 SIGNATURE_DATA_LENGTH)
              (u8_get signature RECOVERY_ID_OFFSET) message_hash)
    as [[k|] Hk];
    [|exists None; apply recover_throws; assumption].
  destruct (serializePubkey_answers_always k false) as [[serialized|] Hs].
  - eexists. eapply pubkey_recovered; eassumption.
  - exists None. eapply serializePubkey_throws; eassumption.
Qed.

Lemma verifySignature_returns_always (params : SignatureVerificationParams) :
  exists code, verify_returns params code.
Proof.
  destruct (recoverPublicKey_returns_always (p_messageHash params)
                                            (p_signature params))
    as [[pubkey|] Hr];
    [|eexists; apply recovery_failed; exact Hr].
  destruct (hashCkb_answers_always pubkey) as [hash Hh].
  apply pubkey_hashed in Hh.
  destruct (bytesEq (new_Uint8Array (Some (slice hash 0 BLAKE160_HASH_LENGTH)))
                    (getExpectedHash (p_pubkeyHashes params)
                                     (p_pubkeyIndex params))) eqn:E.
  - eexists. eapply hash_matches; eassumption.
  - eexists. eapply hash_differs; eassumption.
Qed.

Lemma main_returns_always (env : Env) : exists code, returns env code.
Proof.
  destruct (fst (@loadAndValidateInputs PubKey env)) as [code|d] eqn:L;
    [exists code; apply inputs_rejected; exact L|].
  destruct (verifySignature_returns_always (first_params PubKey env d)) as [c1 V1].
  destruct (Z.eq_dec c1 SUCCESS_CODE) as [->|N1];
    [|exists c1; eapply first_signature_fails; eassumption].
  destruct (verifySignature_returns_always (second_params PubKey env d)) as [c2 V2].
  destruct (Z.eq_dec c2 SUCCESS_CODE) as [->|N2].
  - eexists. eapply both_signatures_pass; eassumption.
  - exists c2. eapply second_signature_fails; eassumption.
Qed.

(** C8: for fixed script args, witness lock and transaction hash, on a host
    whose bindings are pure (each call has one answer, a function of its
    arguments), the verifier has an execution, any two executions return
    the same exit code, and that code is one of 0, 1, 2, 3, 4, 5.  The
    executions are those of [main_returns], where a binding that is not
    pure would let two executions differ. *)
Theorem main_deterministic (env : Env) :
  (exists code, returns env code)
  /\ (forall code1 code2,
        returns env code1 -> returns env code2 ->
        code1 = code2 /\ In code1 [0; 1; 2; 3; 4; 5]%Z).
Proof.
  split; [apply main_returns_always|].
  intros code1 code2 H1 H2. split.
  - exact (main_returns_functional env code1 code2 H1 H2).
  - exact (main_returns_range env code1 H1).
Qed.

End Determinism.

(** ** Executions with pure bindings are the runs of [main] *)

Section PureBindings.

Variable PubKey : Type.
Variable secp256k1_recover : bytes -> jsnum -> bytes -> option PubKey.
Variable secp256k1_serializePubkey : PubKey -> bool -> option bytes.
Variable hashCkb : bytes -> bytes.

Local Abbreviation recover_returns :=
  (recoverPublicKey_returns (recover_of secp256k1_recover)
                            (serializePubkey_of secp256k1_serializePubkey)).
Local Abbreviation verify_returns :=
  (verifySignature_returns (recover_of secp256k1_recover)
                           (serializePubkey_of secp256k1_serializePubkey)
                           (hashCkb_of hashCkb)).
Local Abbreviation returns :=
  (main_returns (recover_of secp256k1_recover)
                (serializePubkey_of secp256k1_serializePubkey)
                (hashCkb_of hashCkb)).

Lemma recoverPublicKey_returns_fst (message_hash signature : bytes) :
  recover_returns message_hash signature
    (fst (recoverPublicKey secp256k1_recover secp256k1_serializePubkey
                           message_hash signature)).
Proof.
  rewrite recoverPublicKey_result.
  destruct (length signature =? 65) eqn:Hlen; cbn [negb].
  - apply Nat.eqb_eq in Hlen.
    destruct (js_gt (u8_get signature 64) 3) eqn:Hid;
      [apply invalid_recovery_id; assumption|].
    destruct (secp256k1_recover (slice signature 0 64) (u8_get signature 64)
                                message_hash) as [k|] eqn:Hk.
    + destruct (secp256k1_serializePubkey k false) as [serialized|] eqn:Hs.
      * apply pubkey_recovered with (recovered_pubkey := k);
          try assumption; symmetry; assumption.
      * apply serializePubkey_throws with (recovered_pubkey := k);
          try assumption; symmetry; assumption.
    + apply recover_throws; try assumption. symmetry. exact Hk.
  - apply Nat.eqb_neq in Hlen. apply invalid_signature_length. exact Hlen.
Qed.

Lemma verifySignature_returns_fst (params : SignatureVerificationParams) :
  verify_returns params
    (fst (verifySignature secp256k1_recover secp256k1_serializePubkey
                          hashCkb params)).
Proof.
  rewrite verifySignature_code.
  pose proof (recoverPublicKey_returns_fst (p_messageHash params)
                                           (p_signature params)) as Hr.
  destruct (fst (recoverPublicKey _ _ _ _)) as [pubkey|];
    [|apply recovery_failed; exact Hr].
  assert (Hh : hashPublicKey_returns (hashCkb_of hashCkb) pubkey
                                     (slice (hashCkb pubkey) 0 20))
    by (apply pubkey_hashed with (hash := hashCkb pubkey); reflexivity).
  destruct (bytesEq _ _) eqn:E.
  - eapply hash_matches; eassumption.
  - eapply hash_differs; eassumption.
Qed.

(** The run of [main] is an execution. *)
Lemma main_returns_fst (env : Env) :
  returns env
    (fst (main secp256k1_recover secp256k1_serializePubkey hashCkb env)).
Proof.
  rewrite main_code.
  destruct (fst (loadAndValidateInputs env)) as [code|d] eqn:L;
    [apply inputs_rejected; exact L|].
  cbv zeta.
  pose proof (verifySignature_returns_fst (first_params PubKey env d)) as V1.
  pose proof (verifySignature_returns_fst (second_params PubKey env d)) as V2.
  unfold first_params in V1 at 2. unfold second_params in V2 at 2.
  cbn [fst getSigningMessageHash bind emit debug ret new_Uint8Array] in V1, V2.
  destruct (_ =? 0)%Z eqn:E1; cbn [negb].
  - apply Z.eqb_eq in E1. rewrite E1 in V1.
    destruct (_ =? 0)%Z eqn:E2; cbn [negb].
    + apply Z.eqb_eq in E2. rewrite E2 in V2.
      eapply both_signatures_pass; eassumption.
    + apply Z.eqb_neq in E2.
      eapply second_signature_fails; eassumption.
  - apply Z.eqb_neq in E1.
    eapply first_signature_fails; eassumption.
Qed.

End PureBindings.

(** Without purity two executions can differ: with a recovery binding that
    may answer anything, the sample input has an execution that exits with
    5 and one that exits with 0. *)
Lemma erratic_recover_two_codes :
  main_returns erratic_recover (serializePubkey_of Sample.serializePubkey)
               (hashCkb_of Sample.hashCkb) Sample.good 5%Z
  /\ main_returns erratic_recover (serializePubkey_of Sample.serializePubkey)
                  (hashCkb_of Sample.hashCkb) Sample.good 0%Z.
Proof.
  set (d := mkInputData (Sample.fp x0a, Sample.fp x0b)
                        (Sample.sig x0a x00, Sample.sig x0b x01)
                        (Num 0, Num 1)).
  assert (L : fst (@loadAndValidateInputs Sample.PubKey Sample.good) = inr d)
    by (vm_compute; reflexivity).
  split.
  - apply first_signature_fails with (inputData := d);
      [exact L| |discriminate].
    apply recovery_failed. apply recover_throws;
      [reflexivity|reflexivity|exact I].
  - apply both_signatures_pass with (inputData := d); [exact L| |].
    + apply hash_matches with (recoveredPubkey := x04 :: repeat x0a 64)
                              (recoveredHash := Sample.fp x0a).
      * apply pubkey_recovered with (recovered_pubkey := repeat x0a 64)
                                    (serialized := x04 :: repeat x0a 64);
          [reflexivity|reflexivity|exact I|reflexivity].
      * apply pubkey_hashed with (hash := x04 :: repeat x0a 64). reflexivity.
      * reflexivity.
    + apply hash_matches with (recoveredPubkey := x04 :: repeat x0b 64)
                              (recoveredHash := Sample.fp x0b).
      * apply pubkey_recovered with (recovered_pubkey := repeat x0b 64)
                                    (serialized := x04 :: repeat x0b 64);
          [reflexivity|reflexivity|exact I|reflexivity].
      * apply pubkey_hashed with (hash := x04 :: repeat x0b 64). reflexivity.
      * reflexivity.
Qed.

(** ** Concrete runs

    The theorems above, applied to the sample inputs with the stand-in
    bindings. *)

Lemma short_config_gives_code_2 :
  length (script_args Sample.short_config) < 77
  /\ fst (Sample.run Sample.short_config) = 2%Z
  /\ steps (snd (Sample.run Sample.short_config)) = [EvLoadScript]
  /\ steps (snd (Sample.run Sample.wrong_key_slot0)) =
       [EvLoadScript; EvLoadWitnessArgs; EvLoadTxHash;
        EvRecover (repeat x0b 64) (Num 0) Sample.txHash;
        EvSerializePubkey (repeat x0b 64) false;
        EvHashCkb (x04 :: repeat x0b 64)].
Proof.
  destruct (main_returns_first_failing_check
              Sample.PubKey Sample.recover Sample.serializePubkey
              Sample.hashCkb Sample.short_config) as (_ & Hcode & Hsteps & _).
  destruct (main_returns_first_failing_check
              Sample.PubKey Sample.recover Sample.serializePubkey
              Sample.hashCkb Sample.wrong_key_slot0) as (_ & _ & Hsteps' & _).
  split; [vm_compute; lia|].
  split; [apply Hcode; vm_compute; lia|].
  split.
  - etransitivity; [exact Hsteps|]. vm_compute. reflexivity.
  - etransitivity; [exact Hsteps'|]. vm_compute. reflexivity.
Defined.

Lemma good_config_parses_to_hash_slices :
  (exists d,
     fst (@loadAndValidateInputs Sample.PubKey Sample.good) = inr d
     /\ pubkeyHashes d = (Sample.fp x0a, Sample.fp x0b))
  /\ length Sample.prefix = 37 /\ length Sample.other_prefix = 37
  /\ Sample.run Sample.good_other_prefix = Sample.run Sample.good.
Proof.
  destruct (config_too_short_iff_and_slices
              Sample.PubKey Sample.recover Sample.serializePubkey
              Sample.hashCkb Sample.good) as (_ & _ & _ & Hdata & Hprefix).
  split.
  - destruct Hdata as (d & Hd & Hhashes).
    + vm_compute; lia.
    + reflexivity.
    + vm_compute; discriminate.
    + vm_compute; discriminate.
    + vm_compute; discriminate.
    + exists d. split; [exact Hd|exact Hhashes].
  - split; [reflexivity|]. split; [reflexivity|].
    exact (proj2 (Hprefix Sample.prefix Sample.other_prefix
                          (Sample.fp x0a ++ Sample.fp x0b)
                          eq_refl eq_refl eq_refl)).
Defined.

Lemma good_proof_parses_to_signature_slices :
  fst (@loadAndValidateInputs Sample.PubKey Sample.good) =
    inr (mkInputData (Sample.fp x0a, Sample.fp x0b)
                     (Sample.sig x0a x00, Sample.sig x0b x01)
                     (Num 0, Num 1))
  /\ length (new_Uint8Array (witness_lock Sample.short_proof)) <> 132
  /\ fst (Sample.run Sample.short_proof) = 3%Z.
Proof.
  split; [|split].
  - apply (proof_wrong_length_iff_and_slices
             Sample.PubKey Sample.recover Sample.serializePubkey
             Sample.hashCkb Sample.good).
    + vm_compute; lia.
    + reflexivity.
    + vm_compute; discriminate.
    + vm_compute; discriminate.
    + vm_compute; discriminate.
  - vm_compute; lia.
  - apply (proof_wrong_length_iff_and_slices
             Sample.PubKey Sample.recover Sample.serializePubkey
             Sample.hashCkb Sample.short_proof).
    + vm_compute; lia.
    + vm_compute; lia.
Defined.

Lemma same_selectors_give_code_4 :
  77 <= length (script_args Sample.same_selectors)
  /\ length (new_Uint8Array (witness_lock Sample.same_selectors)) = 132
  /\ fst (Sample.run Sample.same_selectors) = 4%Z.
Proof.
  assert (Hc : 77 <= length (script_args Sample.same_selectors))
    by (vm_compute; lia).
  assert (Hp : length (new_Uint8Array (witness_lock Sample.same_selectors))
               = 132) by reflexivity.
  split; [exact Hc|]. split; [exact Hp|].
  exact (proj1 (proj2 (bad_selector_iff
                         Sample.PubKey Sample.recover Sample.serializePubkey
                         Sample.hashCkb Sample.same_selectors Hc Hp))
               eq_refl).
Defined.

(** C5 as stated fails: with recovery id 7 in signature 0 and script args
    that are too short, the run exits with code 2, not 5.  The length
    checks come first. *)
Lemma bad_recovery_id_behind_short_config :
  (3 < byte_at (new_Uint8Array (witness_lock Sample.bad_recovery_id_no_config))
               64)%Z
  /\ fst (Sample.run Sample.bad_recovery_id_no_config) = 2%Z
  /\ fst (Sample.run Sample.bad_recovery_id_no_config) <> 5%Z.
Proof.
  split; [vm_compute; reflexivity|].
  split; [vm_compute; reflexivity|].
  vm_compute. discriminate.
Qed.

Lemma bad_recovery_id_gives_code_5 :
  (3 < byte_at (new_Uint8Array (witness_lock Sample.bad_recovery_id)) 64)%Z
  /\ fst (Sample.run Sample.bad_recovery_id) = 5%Z
  /\ binding_calls (snd (Sample.run Sample.bad_recovery_id)) = [].
Proof.
  assert (Hr : (3 < byte_at (new_Uint8Array
                               (witness_lock Sample.bad_recovery_id)) 64)%Z)
    by (vm_compute; reflexivity).
  split; [exact Hr|].
  apply (recovery_failure_gives_code_5
           Sample.PubKey Sample.recover Sample.serializePubkey Sample.hashCkb
           Sample.bad_recovery_id);
    try exact Hr; vm_compute; try lia; discriminate.
Defined.

Lemma wrong_key_gives_code_1 :
  fst (Sample.run Sample.wrong_key_slot0) = 1%Z.
Proof.
  apply (fingerprint_mismatch_gives_code_1
           Sample.PubKey Sample.recover Sample.serializePubkey Sample.hashCkb
           Sample.wrong_key_slot0
           (mkInputData (Sample.fp x0a, Sample.fp x0b)
                        (Sample.sig x0b x00, Sample.sig x0b x01)
                        (Num 0, Num 1))
           ltac:(vm_compute; reflexivity))
    with (key0 := x04 :: repeat x0b 64).
  - reflexivity.
  - vm_compute. discriminate.
Defined.

Lemma signature1_ignored_sample :
  fst (Sample.run Sample.wrong_key_slot0) = 1%Z
  /\ fst (Sample.run
            (Sample.env_of Sample.config
               (Sample.proof (Sample.sig x0b x00) (Sample.sig xff x01)
                             x00 x01))) = 1%Z.
Proof.
  destruct (signature1_ignored_when_signature0_fails
              Sample.PubKey Sample.recover Sample.serializePubkey Sample.hashCkb
              Sample.config Sample.txHash
              (Sample.sig x0b x00) (Sample.sig x0b x01) (Sample.sig xff x01)
              x00 x01
              (mkInputData (Sample.fp x0a, Sample.fp x0b)
                           (Sample.sig x0b x00, Sample.sig x0b x01)
                           (Num 0, Num 1))
              eq_refl eq_refl eq_refl
              ltac:(vm_compute; reflexivity)
              ltac:(vm_compute; discriminate))
    as (H1 & H2 & _).
  split; [exact H1|exact H2].
Defined.

Lemma same_bindings_same_code :
  main_returns (recover_of Sample.recover)
               (serializePubkey_of Sample.serializePubkey)
               (hashCkb_of Sample.hashCkb) Sample.good 0%Z
  /\ (forall code,
        main_returns (recover_of Sample.recover)
                     (serializePubkey_of Sample.serializePubkey)
                     (hashCkb_of Sample.hashCkb) Sample.good code ->
        code = 0%Z).
Proof.
  assert (H0 : main_returns (recover_of Sample.recover)
                 (serializePubkey_of Sample.serializePubkey)
                 (hashCkb_of Sample.hashCkb) Sample.good 0%Z)
    by exact (main_returns_fst Sample.PubKey Sample.recover
                Sample.serializePubkey Sample.hashCkb Sample.good).
  split; [exact H0|].
  intros code Hcode.
  refine (proj1 (proj2 (main_deterministic
            Sample.PubKey (recover_of Sample.recover)
            (serializePubkey_of Sample.serializePubkey)
            (hashCkb_of Sample.hashCkb)
            _ _ _ _ _ _ Sample.good) code 0%Z Hcode H0)).
  - intros d i m a1 a2 H1 H2. unfold recover_of in *. congruence.
  - intros k c a1 a2 H1 H2. unfold serializePubkey_of in *. congruence.
  - intros d a1 a2 H1 H2. unfold hashCkb_of in *. congruence.
  - intros d i m. eexists. reflexivity.
  - intros k c. eexists. reflexivity.
  - intros d. eexists. reflexivity.
Defined.

Lemma good_signatures_have_65_bytes :
  length (Sample.sig x0a x00) = 65 /\ length (Sample.sig x0b x01) = 65.
Proof.
  apply (proj1 (signature_length_branch_unreachable
                  Sample.PubKey Sample.recover Sample.serializePubkey
                  Sample.hashCkb Sample.good)
               (mkInputData (Sample.fp x0a, Sample.fp x0b)
                            (Sample.sig x0a x00, Sample.sig x0b x01)
                            (Num 0, Num 1))).
  vm_compute. reflexivity.
Defined.

(** * Further properties of the contract *)

Section OutcomeProperties.

Variable PubKey : Type.
Variable secp256k1_recover : bytes -> jsnum -> bytes -> option PubKey.
Variable secp256k1_serializePubkey : PubKey -> bool -> option bytes.
Variable hashCkb : bytes -> bytes.

Local Abbreviation validate := (@validatePubkeyIndices PubKey).
Local Abbreviation load := (@loadAndValidateInputs PubKey).
Local Abbreviation recoverPK :=
  (recoverPublicKey secp256k1_recover secp256k1_serializePubkey).
Local Abbreviation verifySig :=
  (verifySignature secp256k1_recover secp256k1_serializePubkey hashCkb).
Local Abbreviation run :=
  (main secp256k1_recover secp256k1_serializePubkey hashCkb).
Local Abbreviation recovered :=
  (recovered_key secp256k1_recover secp256k1_serializePubkey).
Local Abbreviation rejected :=
  (recovery_rejected secp256k1_recover secp256k1_serializePubkey).
Local Abbreviation matches :=
  (signature_matches secp256k1_recover secp256k1_serializePubkey hashCkb).
Local Abbreviation mismatches :=
  (signature_mismatches secp256k1_recover secp256k1_serializePubkey hashCkb).

(** ** One signature *)

Lemma recoverPublicKey_Some_iff (message_hash signature key : bytes) :
  fst (recoverPK message_hash signature) = Some key
  <-> recovered message_hash signature key.
Proof.
  rewrite recoverPublicKey_result. unfold recovered_key.
  destruct (length signature =? 65) eqn:Hlen; cbn [negb].
  - apply Nat.eqb_eq in Hlen.
    rewrite u8_get_in_range by lia. cbn [js_gt].
    change (slice signature 0 64) with (firstn 64 signature).
    destruct (3 <? byte_at signature 64)%Z eqn:Hrid.
    + split; [discriminate|]. intros (_ & Hle & _). lia.
    + destruct (secp256k1_recover _ _ _) as [k|] eqn:Hrec.
      * split.
        -- intros Hser. split; [exact Hlen|]. split; [lia|].
           exists k. split; [reflexivity|exact Hser].
        -- intros (_ & _ & k' & Hk' & Hser). congruence.
      * split; [discriminate|]. intros (_ & _ & k' & Hk' & _). discriminate.
  - apply Nat.eqb_neq in Hlen. split; [discriminate|].
    intros (Hl & _). contradiction.
Qed.

Lemma recoverPublicKey_None_iff (message_hash signature : bytes) :
  fst (recoverPK message_hash signature) = None
  <-> rejected message_hash signature.
Proof.
  rewrite recoverPublicKey_result. unfold recovery_rejected.
  destruct (length signature =? 65) eqn:Hlen; cbn [negb].
  - apply Nat.eqb_eq in Hlen.
    rewrite u8_get_in_range by lia. cbn [js_gt].
    change (slice signature 0 64) with (firstn 64 signature).
    destruct (3 <? byte_at signature 64)%Z eqn:Hrid.
    + split; [intros _; right; left; lia|reflexivity].
    + destruct (secp256k1_recover _ _ _) as [k|] eqn:Hrec.
      * split.
        -- intros Hser. right. right. right. exists k. split;
             [reflexivity|exact Hser].
        -- intros [H|[H|[H|(k' & Hk' & Hser)]]];
             [contradiction|lia|discriminate|congruence].
      * split; [intros _; right; right; left; reflexivity|reflexivity].
  - apply Nat.eqb_neq in Hlen. split; [intros _; left; exact Hlen|reflexivity].
Qed.

Lemma verifySignature_code_key (params : SignatureVerificationParams)
      (key : bytes) :
  recovered (p_messageHash params) (p_signature params) key ->
  fst (verifySig params) =
  if bytesEq (firstn 20 (hashCkb key))
             (getExpectedHash (p_pubkeyHashes params) (p_pubkeyIndex params))
  then 0%Z else 1%Z.
Proof.
  intros Hrec. apply recoverPublicKey_Some_iff in Hrec.
  rewrite verifySignature_code, Hrec. reflexivity.
Qed.

Lemma recovered_key_unique (message_hash signature key key' : bytes) :
  recovered message_hash signature key ->
  recovered message_hash signature key' ->
  key = key'.
Proof.
  intros H H'. apply recoverPublicKey_Some_iff in H, H'. congruence.
Qed.

Lemma verifySignature_0_iff (params : SignatureVerificationParams) :
  fst (verifySig params) = 0%Z
  <-> matches (p_messageHash params) (p_signature params)
              (getExpectedHash (p_pubkeyHashes params) (p_pubkeyIndex params)).
Proof.
  unfold signature_matches. split.
  - rewrite verifySignature_code.
    destruct (fst (recoverPK _ _)) as [key|] eqn:Hrec; [|discriminate].
    destruct (bytesEq _ _) eqn:Heq; [|discriminate].
    intros _. exists key. split.
    + apply recoverPublicKey_Some_iff. exact Hrec.
    + apply bytesEq_true_iff. exact Heq.
  - intros (key & Hrec & Heq).
    rewrite (verifySignature_code_key params key Hrec).
    apply bytesEq_true_iff in Heq. rewrite Heq. reflexivity.
Qed.

Lemma verifySignature_1_iff (params : SignatureVerificationParams) :
  fst (verifySig params) = 1%Z
  <-> mismatches (p_messageHash params) (p_signature params)
                 (getExpectedHash (p_pubkeyHashes params)
                                  (p_pubkeyIndex params)).
Proof.
  unfold signature_mismatches. split.
  - rewrite verifySignature_code.
    destruct (fst (recoverPK _ _)) as [key|] eqn:Hrec; [|discriminate].
    destruct (bytesEq _ _) eqn:Heq; [discriminate|].
    intros _. exists key. split.
    + apply recoverPublicKey_Some_iff. exact Hrec.
    + apply bytesEq_false_iff. exact Heq.
  - intros (key & Hrec & Hne).
    rewrite (verifySignature_code_key params key Hrec).
    apply bytesEq_false_iff in Hne. rewrite Hne. reflexivity.
Qed.

Lemma verifySignature_5_iff (params : SignatureVerificationParams) :
  fst (verifySig params) = 5%Z
  <-> rejected (p_messageHash params) (p_signature params).
Proof.
  rewrite <- recoverPublicKey_None_iff, verifySignature_code.
  destruct (fst (recoverPK _ _)) as [key|].
  - destruct (bytesEq _ _); split; discriminate.
  - split; reflexivity.
Qed.

(** X1: what the three results of [verifySignature] mean, for any
    parameters (whatever the length of the signature): 0 exactly when a key
    is recovered and the first 20 bytes of its hash are the expected hash;
    1 exactly when a key is recovered and they differ; 5 exactly when no key
    is recovered (signature not 65 bytes long, recovery id above 3, or a
    binding throws); and no other result occurs. *)
Theorem verifySignature_outcomes (params : SignatureVerificationParams) :
  let expected :=
    getExpectedHash (p_pubkeyHashes params) (p_pubkeyIndex params) in
  (fst (verifySig params) = 0%Z
   <-> matches (p_messageHash params) (p_signature params) expected)
  /\ (fst (verifySig params) = 1%Z
      <-> mismatches (p_messageHash params) (p_signature params) expected)
  /\ (fst (verifySig params) = 5%Z
      <-> rejected (p_messageHash params) (p_signature params))
  /\ In (fst (verifySig params)) [0; 1; 5]%Z.
Proof.
  cbv zeta. split; [apply verifySignature_0_iff|].
  split; [apply verifySignature_1_iff|].
  split; [apply verifySignature_5_iff|].
  rewrite verifySignature_code. split_branches; cbn; tauto.
Qed.

(** ** The whole run *)

Lemma inputs_accepted_iff (env : Env) :
  (exists d, fst (load env) = inr d) <-> inputs_accepted env.
Proof.
  unfold inputs_accepted. cbv zeta. split.
  - intros (d & Hd).
    destruct (loadAndValidateInputs_accepts PubKey env d Hd)
      as (Hc & Hw & H0 & H1 & Hne & _).
    pose proof (byte_at_range (new_Uint8Array (witness_lock env)) 130).
    pose proof (byte_at_range (new_Uint8Array (witness_lock env)) 131).
    split; [exact Hc|]. split; [exact Hw|]. lia.
  - intros (Hc & Hw & Hsel).
    eexists. apply loadAndValidateInputs_valid; try assumption.
    apply IndexValidator_ok_intro; unfold spec_selector; cbn [Nat.add]; lia.
Qed.

Lemma getExpectedHash_selected (env : Env) (i : nat) :
  inputs_accepted env -> i < 2 ->
  getExpectedHash (args_pubkeyHashes (script_args env))
                  (Num (byte_at (new_Uint8Array (witness_lock env)) (130 + i)))
  = selected_hash env i.
Proof.
  intros (_ & _ & Hsel) Hi. unfold selected_hash.
  destruct i as [|[|i]]; [| |lia]; cbn [Nat.add];
    destruct Hsel as [[E0 E1]|[E0 E1]]; rewrite ?E0, ?E1; reflexivity.
Qed.

(** The exit code on accepted inputs, in terms of the two checks. *)
Lemma main_code_accepted (env : Env) :
  let w := new_Uint8Array (witness_lock env) in
  let first :=
    verifySig (mkParams (tx_hash env) (witness_signature w 0)
                        (args_pubkeyHashes (script_args env))
                        (Num (byte_at w 130)) "signature1") in
  let second :=
    verifySig (mkParams (tx_hash env) (witness_signature w 1)
                        (args_pubkeyHashes (script_args env))
                        (Num (byte_at w 131)) "signature2") in
  inputs_accepted env ->
  fst (run env) =
    if negb (fst first =? 0)%Z then fst first
    else if negb (fst second =? 0)%Z then fst second else 0%Z.
Proof.
  intros w first second (Hc & Hw & Hsel). fold w in Hw, Hsel.
  apply (main_valid_inputs PubKey secp256k1_recover secp256k1_serializePubkey
           hashCkb env Hc Hw); fold w; lia.
Qed.

Lemma loadAndValidateInputs_inl (env : Env) (code : Z) :
  fst (load env) = inl code -> In code [2; 3; 4]%Z.
Proof.
  rewrite loadAndValidateInputs_result. cbv zeta.
  rewrite validatePubkeyIndices_code.
  destruct (length (script_args env) <? 77);
    [intros H; inversion H; cbn; tauto|].
  destruct (negb (length _ =? 132));
    [intros H; inversion H; cbn; tauto|].
  destruct (js_gt _ _ || js_gt _ _ || js_strict_eq _ _); cbn;
    intros H; inversion H; cbn; tauto.
Qed.

Lemma main_code_rejected (env : Env) :
  ~ inputs_accepted env -> In (fst (run env)) [2; 3; 4]%Z.
Proof.
  intros Hno. rewrite main_code.
  destruct (fst (load env)) as [code|d] eqn:Hload.
  - apply (loadAndValidateInputs_inl env code Hload).
  - exfalso. apply Hno. apply inputs_accepted_iff. exists d. exact Hload.
Qed.

Lemma main_code_015_accepted (env : Env) :
  In (fst (run env)) [0; 1; 5]%Z -> inputs_accepted env.
Proof.
  intros Hin.
  destruct (fst (load env)) as [code|d] eqn:Hload.
  - pose proof (loadAndValidateInputs_inl env code Hload) as Hrej.
    rewrite main_code, Hload in Hin. cbn in Hin, Hrej. lia.
  - apply inputs_accepted_iff. exists d. exact Hload.
Qed.

Lemma sequential_code_cases (a b : Z) :
  In a [0; 1; 5]%Z -> In b [0; 1; 5]%Z ->
  let c := if negb (a =? 0)%Z then a
           else if negb (b =? 0)%Z then b else 0%Z in
  (c = 0%Z <-> a = 0%Z /\ b = 0%Z)
  /\ (c = 1%Z <-> a = 1%Z \/ (a = 0%Z /\ b = 1%Z))
  /\ (c = 5%Z <-> a = 5%Z \/ (a = 0%Z /\ b = 5%Z)).
Proof.
  cbn [In]. intros [<-|[<-|[<-|[]]]] [<-|[<-|[<-|[]]]]; cbn; lia.
Qed.

Lemma verifySignature_code_in (params : SignatureVerificationParams) :
  In (fst (verifySig params)) [0; 1; 5]%Z.
Proof.
  rewrite verifySignature_code. split_branches; cbn; tauto.
Qed.

(** On accepted inputs, the exit code in terms of what each signature
    does against the hash its index selects. *)
Lemma main_outcome_accepted (env : Env) :
  let w := new_Uint8Array (witness_lock env) in
  let tx := tx_hash env in
  inputs_accepted env ->
  (fst (run env) = 0%Z
   <-> matches tx (witness_signature w 0) (selected_hash env 0)
       /\ matches tx (witness_signature w 1) (selected_hash env 1))
  /\ (fst (run env) = 1%Z
      <-> mismatches tx (witness_signature w 0) (selected_hash env 0)
          \/ (matches tx (witness_signature w 0) (selected_hash env 0)
              /\ mismatches tx (witness_signature w 1) (selected_hash env 1)))
  /\ (fst (run env) = 5%Z
      <-> rejected tx (witness_signature w 0)
          \/ (matches tx (witness_signature w 0) (selected_hash env 0)
              /\ rejected tx (witness_signature w 1))).
Proof.
  intros w tx Hacc.
  rewrite (main_code_accepted env Hacc). fold w tx.
  set (p0 := mkParams tx (witness_signature w 0)
                      (args_pubkeyHashes (script_args env))
                      (Num (byte_at w 130)) "signature1").
  set (p1 := mkParams tx (witness_signature w 1)
                      (args_pubkeyHashes (script_args env))
                      (Num (byte_at w 131)) "signature2").
  pose proof (verifySignature_0_iff p0) as A0.
  pose proof (verifySignature_1_iff p0) as A1.
  pose proof (verifySignature_5_iff p0) as A5.
  pose proof (verifySignature_0_iff p1) as B0.
  pose proof (verifySignature_1_iff p1) as B1.
  pose proof (verifySignature_5_iff p1) as B5.
  cbn [p0 p1 p_messageHash p_signature p_pubkeyHashes p_pubkeyIndex]
    in A0, A1, A5, B0, B1, B5.
  pose proof (getExpectedHash_selected env 0 Hacc ltac:(lia)) as E0.
  pose proof (getExpectedHash_selected env 1 Hacc ltac:(lia)) as E1.
  cbn [Nat.add] in E0, E1. fold w in E0, E1.
  rewrite E0 in A0, A1. rewrite E1 in B0, B1.
  rewrite <- A0, <- A1, <- A5, <- B0, <- B1, <- B5.
  apply sequential_code_cases; apply verifySignature_code_in.
Qed.

Lemma selected_hashes_cover (env : Env) :
  inputs_accepted env ->
  (selected_hash env 0 = registered_hash (script_args env) 0
   /\ selected_hash env 1 = registered_hash (script_args env) 1)
  \/ (selected_hash env 0 = registered_hash (script_args env) 1
      /\ selected_hash env 1 = registered_hash (script_args env) 0).
Proof.
  intros (_ & _ & [[E0 E1]|[E0 E1]]); unfold selected_hash; cbn [Nat.add];
    rewrite E0, E1; [left|right]; split; reflexivity.
Qed.

Lemma main_code_0_iff (env : Env) :
  let w := new_Uint8Array (witness_lock env) in
  let tx := tx_hash env in
  fst (run env) = 0%Z
  <-> inputs_accepted env
      /\ matches tx (witness_signature w 0) (selected_hash env 0)
      /\ matches tx (witness_signature w 1) (selected_hash env 1).
Proof.
  intros w tx. split.
  - intros H0.
    assert (Hacc : inputs_accepted env)
      by (apply main_code_015_accepted; rewrite H0; cbn; tauto).
    split; [exact Hacc|].
    apply (main_outcome_accepted env Hacc). exact H0.
  - intros (Hacc & Hm). apply (main_outcome_accepted env Hacc). exact Hm.
Qed.

Lemma main_code_0_covers (env : Env) :
  let w := new_Uint8Array (witness_lock env) in
  let config := script_args env in
  let tx := tx_hash env in
  fst (run env) = 0%Z ->
  (matches tx (witness_signature w 0) (registered_hash config 0)
   /\ matches tx (witness_signature w 1) (registered_hash config 1))
  \/ (matches tx (witness_signature w 1) (registered_hash config 0)
      /\ matches tx (witness_signature w 0) (registered_hash config 1)).
Proof.
  intros w config tx H0.
  apply main_code_0_iff in H0. destruct H0 as (Hacc & M0 & M1).
  destruct (selected_hashes_cover env Hacc) as [[E0 E1]|[E0 E1]];
    rewrite E0 in M0; rewrite E1 in M1; [left|right]; split; assumption.
Qed.

(** X2: the run exits with code 0 exactly when the inputs pass the
    structural checks and each signature recovers to a key whose 20-byte
    hash is the registered hash that its index byte selects.  A successful
    run therefore has, for each of the two registered hashes (script args
    offsets 37 and 57), one of the two signatures matching it. *)
Theorem main_success_iff (env : Env) :
  let w := new_Uint8Array (witness_lock env) in
  let config := script_args env in
  let tx := tx_hash env in
  (fst (run env) = 0%Z
   <-> inputs_accepted env
       /\ matches tx (witness_signature w 0) (selected_hash env 0)
       /\ matches tx (witness_signature w 1) (selected_hash env 1))
  /\ (fst (run env) = 0%Z ->
      (matches tx (witness_signature w 0) (registered_hash config 0)
       /\ matches tx (witness_signature w 1) (registered_hash config 1))
      \/ (matches tx (witness_signature w 1) (registered_hash config 0)
          /\ matches tx (witness_signature w 0) (registered_hash config 1))).
Proof.
  cbv zeta. split; [apply main_code_0_iff|apply main_code_0_covers].
Qed.

(** X3: the run exits with code 5 exactly when the inputs pass the
    structural checks and either no key comes out of signature 0, or
    signature 0 matches the hash it selects and no key comes out of
    signature 1.  "No key" covers a recovery id above 3, a rejection by the
    recovery binding, and an exception of the serialization. *)
Theorem main_code_5_iff (env : Env) :
  let w := new_Uint8Array (witness_lock env) in
  let tx := tx_hash env in
  fst (run env) = 5%Z
  <-> inputs_accepted env
      /\ (rejected tx (witness_signature w 0)
          \/ (matches tx (witness_signature w 0) (selected_hash env 0)
              /\ rejected tx (witness_signature w 1))).
Proof.
  intros w tx. split.
  - intros H5.
    assert (Hacc : inputs_accepted env)
      by (apply main_code_015_accepted; rewrite H5; cbn; tauto).
    split; [exact Hacc|].
    apply (main_outcome_accepted env Hacc). exact H5.
  - intros (Hacc & H). apply (main_outcome_accepted env Hacc). exact H.
Qed.

(** X4: the run exits with code 1 exactly when the inputs pass the
    structural checks and either signature 0 recovers to a key whose hash
    is not the one its index selects, or signature 0 matches and signature 1
    recovers to a key whose hash is not the one its index selects. *)
Theorem main_code_1_iff (env : Env) :
  let w := new_Uint8Array (witness_lock env) in
  let tx := tx_hash env in
  fst (run env) = 1%Z
  <-> inputs_accepted env
      /\ (mismatches tx (witness_signature w 0) (selected_hash env 0)
          \/ (matches tx (witness_signature w 0) (selected_hash env 0)
              /\ mismatches tx (witness_signature w 1) (selected_hash env 1))).
Proof.
  intros w tx. split.
  - intros H1.
    assert (Hacc : inputs_accepted env)
      by (apply main_code_015_accepted; rewrite H1; cbn; tauto).
    split; [exact Hacc|].
    apply (main_outcome_accepted env Hacc). exact H1.
  - intros (Hacc & H). apply (main_outcome_accepted env Hacc). exact H.
Qed.

(** ** Order of the signatures, and a signature used twice *)

Lemma success_on_layout (config tx s0 s1 : bytes) (i0 i1 : byte) :
  length s0 = 65 -> length s1 = 65 ->
  fst (run (mkEnv config (Some (s0 ++ s1 ++ [i0; i1])) tx)) = 0%Z
  <-> 77 <= length config
      /\ ((byte_to_Z i0 = 0 /\ byte_to_Z i1 = 1)
          \/ (byte_to_Z i0 = 1 /\ byte_to_Z i1 = 0))%Z
      /\ matches tx s0 (registered_hash config (Z.to_nat (byte_to_Z i0)))
      /\ matches tx s1 (registered_hash config (Z.to_nat (byte_to_Z i1))).
Proof.
  intros L0 L1.
  destruct (witness_layout s0 s1 i0 i1 L0 L1) as (Hw & E0 & E1 & B0 & B1).
  cbv zeta in Hw, E0, E1, B0, B1.
  set (env := mkEnv config (Some (s0 ++ s1 ++ [i0; i1])) tx).
  pose proof (main_code_0_iff env) as Hiff. cbv zeta in Hiff.
  rewrite Hiff. unfold inputs_accepted, selected_hash.
  cbn [env script_args witness_lock tx_hash new_Uint8Array Nat.add].
  change (witness_signature (s0 ++ s1 ++ [i0; i1]) 0)
    with (firstn 65 (s0 ++ s1 ++ [i0; i1])).
  change (witness_signature (s0 ++ s1 ++ [i0; i1]) 1)
    with (firstn 65 (skipn 65 (s0 ++ s1 ++ [i0; i1]))).
  rewrite E0, E1, B0, B1. tauto.
Qed.

(** X5: exchanging the two signatures together with their index bytes does
    not change whether the run succeeds: the witness [s0 s1 i0 i1] gives
    code 0 exactly when the witness [s1 s0 i1 i0] does. *)
Theorem signature_order_irrelevant_for_success
        (config tx s0 s1 : bytes) (i0 i1 : byte) :
  length s0 = 65 -> length s1 = 65 ->
  fst (run (mkEnv config (Some (s0 ++ s1 ++ [i0; i1])) tx)) = 0%Z
  <-> fst (run (mkEnv config (Some (s1 ++ s0 ++ [i1; i0])) tx)) = 0%Z.
Proof.
  intros L0 L1.
  rewrite (success_on_layout config tx s0 s1 i0 i1 L0 L1).
  rewrite (success_on_layout config tx s1 s0 i1 i0 L1 L0).
  tauto.
Qed.

(** X6: one signature cannot fill both slots.  If the two signatures of
    the witness are the same 65 bytes and the run exits with code 0, then
    the two registered hashes are equal. *)
Theorem duplicate_signature_needs_equal_hashes (env : Env) :
  let w := new_Uint8Array (witness_lock env) in
  witness_signature w 0 = witness_signature w 1 ->
  fst (run env) = 0%Z ->
  registered_hash (script_args env) 0 = registered_hash (script_args env) 1.
Proof.
  intros w Hsame H0.
  pose proof (main_code_0_covers env H0) as Hboth. cbv zeta in Hboth.
  fold w in Hboth. rewrite <- Hsame in Hboth.
  destruct Hboth as [[(k0 & R0 & F0) (k1 & R1 & F1)]
                    |[(k0 & R0 & F0) (k1 & R1 & F1)]];
    rewrite (recovered_key_unique _ _ _ _ R0 R1) in F0; congruence.
Qed.

(** ** The part of the script args that matters *)

Lemma loadAndValidateInputs_long_args (env1 env2 : Env) :
  77 <= length (script_args env1) -> 77 <= length (script_args env2) ->
  args_pubkeyHashes (script_args env1) = args_pubkeyHashes (script_args env2) ->
  witness_lock env1 = witness_lock env2 ->
  load env1 = load env2.
Proof.
  intros H1 H2 Hslices Hlock.
  rewrite (surjective_pairing (load env1)), (surjective_pairing (load env2)).
  rewrite !loadAndValidateInputs_result, !loadAndValidateInputs_trace.
  cbv zeta. rewrite Hslices, Hlock.
  replace (length (script_args env1) <? 77) with false
    by (symmetry; apply Nat.ltb_ge; lia).
  replace (length (script_args env2) <? 77) with false
    by (symmetry; apply Nat.ltb_ge; lia).
  reflexivity.
Qed.

Lemma args_pubkeyHashes_region (args : bytes) :
  args_pubkeyHashes args =
  (firstn 20 (firstn 40 (skipn 37 args)),
   firstn 20 (skipn 20 (firstn 40 (skipn 37 args)))).
Proof.
  rewrite args_pubkeyHashes_offsets.
  rewrite firstn_firstn. change (Nat.min 20 40) with 20.
  rewrite <- (firstn_skipn_comm 20 20). change (20 + 20) with 40.
  rewrite firstn_firstn. change (Nat.min 20 20) with 20.
  rewrite skipn_skipn. reflexivity.
Qed.

(** X7: of script args that are long enough, only bytes 37 to 76 reach the
    run.  Two script args of at least 77 bytes that agree on these 40
    bytes give the same exit code and the same trace, whatever their first
    37 bytes, their bytes from offset 77 on, and their lengths.  In
    particular bytes appended to valid script args are ignored. *)
Theorem only_hash_region_of_args_matters
        (args1 args2 : bytes) (lock : option bytes) (tx : bytes) :
  77 <= length args1 -> 77 <= length args2 ->
  firstn 40 (skipn 37 args1) = firstn 40 (skipn 37 args2) ->
  run (mkEnv args1 lock tx) = run (mkEnv args2 lock tx).
Proof.
  intros H1 H2 Hregion.
  apply main_args_ext; [|reflexivity].
  apply loadAndValidateInputs_long_args; cbn [script_args witness_lock];
    try assumption; [|reflexivity].
  rewrite !args_pubkeyHashes_region, Hregion. reflexivity.
Qed.

(** ** What a run touches *)

Lemma main_code_accepted_in (env : Env) :
  inputs_accepted env -> In (fst (run env)) [0; 1; 5]%Z.
Proof.
  intros Hacc. rewrite (main_code_accepted env Hacc).
  destruct (negb (_ =? 0)%Z); [apply verifySignature_code_in|].
  destruct (negb (_ =? 0)%Z); [apply verifySignature_code_in|].
  cbn. tauto.
Qed.

Lemma loadAndValidateInputs_no_tx_hash (env : Env) :
  ~ In EvLoadTxHash (snd (load env)).
Proof.
  rewrite loadAndValidateInputs_trace. cbv zeta.
  rewrite validatePubkeyIndices_trace.
  split_branches; cbn; intuition discriminate.
Qed.

Lemma main_trace_rejected (env : Env) :
  ~ inputs_accepted env -> snd (run env) = snd (load env).
Proof.
  intros Hno. rewrite main_trace.
  destruct (fst (load env)) as [code|d] eqn:Hload.
  - apply app_nil_r.
  - exfalso. apply Hno. apply inputs_accepted_iff. exists d. exact Hload.
Qed.

Lemma structural_code_not_accepted (env : Env) :
  In (fst (run env)) [2; 3; 4]%Z -> ~ inputs_accepted env.
Proof.
  intros Hin Hacc. pose proof (main_code_accepted_in env Hacc) as H.
  cbn in Hin, H. lia.
Qed.

Lemma main_code_2_short (env : Env) :
  fst (run env) = 2%Z -> length (script_args env) < 77.
Proof.
  rewrite main_code_spec. unfold spec_verify, pipeline, ConfigParser_ok.
  change (spec_prefix_length + 40) with 77. cbn [first_failure].
  destruct (77 <=? length (script_args env)) eqn:Hc.
  - split_branches; discriminate.
  - intros _. apply Nat.leb_gt. exact Hc.
Qed.

(** X8: structural failures are detected before anything else is done.
    A run that exits with code 2 only loads the script and logs: the witness
    is not loaded.  A run that exits with code 2, 3 or 4 calls no
    cryptographic binding and does not load the transaction hash; a run
    that exits with 0, 1 or 5 has loaded it. *)
Theorem structural_failures_do_no_crypto (env : Env) :
  (fst (run env) = 2%Z ->
     snd (run env) =
       [EvLoadScript;
        EvDebug (MsgInvalidScriptArgsLength (length (script_args env)) 77)])
  /\ (In (fst (run env)) [2; 3; 4]%Z ->
        binding_calls (snd (run env)) = []
        /\ ~ In EvLoadTxHash (snd (run env)))
  /\ (In (fst (run env)) [0; 1; 5]%Z -> In EvLoadTxHash (snd (run env))).
Proof.
  split; [|split].
  - intros H2.
    assert (Hno : ~ inputs_accepted env)
      by (apply structural_code_not_accepted; rewrite H2; cbn; tauto).
    rewrite (main_trace_rejected env Hno), loadAndValidateInputs_trace.
    cbv zeta.
    replace (length (script_args env) <? 77) with true
      by (symmetry; apply Nat.ltb_lt, main_code_2_short; exact H2).
    reflexivity.
  - intros Hin.
    assert (Hno : ~ inputs_accepted env)
      by (apply structural_code_not_accepted; exact Hin).
    rewrite (main_trace_rejected env Hno). split.
    + apply loadAndValidateInputs_calls.
    + apply loadAndValidateInputs_no_tx_hash.
  - intros Hin. apply main_code_015_accepted in Hin.
    apply inputs_accepted_iff in Hin. destruct Hin as (d & Hd).
    rewrite main_trace, Hd. cbv zeta.
    apply in_or_app. right. left. reflexivity.
Qed.

(** ** Where the arguments of the bindings come from *)

Local Abbreviation justified :=
  (binding_call_justified secp256k1_recover secp256k1_serializePubkey).

Lemma justified_binding_calls (env : Env) (t : list (event PubKey)) :
  Forall (justified env) (binding_calls t) -> Forall (justified env) t.
Proof.
  induction t as [|e t IH]; intros H; [constructor|].
  destruct e; cbn in H;
    try (constructor; [exact I|apply IH; exact H]);
    inversion H; subst; constructor; auto.
Qed.

Lemma verifySignature_calls_justified
      (env : Env) (i : nat) (hashes : bytes * bytes) (index : jsnum)
      (name : string) :
  let w := new_Uint8Array (witness_lock env) in
  length w = 132 -> i < 2 ->
  Forall (justified env)
         (binding_calls
            (snd (verifySig (mkParams (tx_hash env) (spec_signature w i)
                                      hashes index name)))).
Proof.
  intros w Hw Hi. rewrite verifySignature_calls.
  cbn [p_messageHash p_signature]. apply Forall_app. split.
  - rewrite (recoverPublicKey_signature_calls PubKey secp256k1_recover
               secp256k1_serializePubkey w (tx_hash env) i Hw Hi).
    destruct (3 <? byte_at w (65 * i + 64))%Z; [constructor|].
    constructor.
    + split; [reflexivity|]. exists i. fold w. repeat split. exact Hi.
    + destruct (secp256k1_recover _ _ _) as [k|] eqn:Hrec; [|constructor].
      constructor; [|constructor].
      split; [reflexivity|]. eexists _, _. exact Hrec.
  - destruct (fst (recoverPK _ _)) as [key|] eqn:Hrec; [|constructor].
    constructor; [|constructor].
    apply recoverPublicKey_Some_iff in Hrec.
    destruct Hrec as (_ & _ & k & _ & Hser). exists k. exact Hser.
Qed.

(** X9: in every run, the recovery binding is only called on the
    transaction hash with the first 64 bytes and the 65th byte of one of
    the two signatures of the witness; the serialization is only asked for
    the uncompressed form of a key that the recovery binding returned for
    this transaction hash; and the hash binding is only applied to a key
    that the serialization returned. *)
Theorem binding_arguments_justified (env : Env) :
  Forall (justified env) (snd (run env)).
Proof.
  apply justified_binding_calls. rewrite main_calls.
  destruct (fst (load env)) as [code|d] eqn:Hd; [constructor|].
  destruct (loadAndValidateInputs_accepts PubKey env d Hd)
    as (_ & Hw & _ & _ & _ & ->).
  cbv zeta. cbn [signatures pubkeyHashes pubkeyIndices fst snd].
  apply Forall_app. split.
  - apply (verifySignature_calls_justified env 0); [exact Hw|lia].
  - destruct (negb (_ =? 0)%Z); [constructor|].
    apply (verifySignature_calls_justified env 1); [exact Hw|lia].
Qed.

End OutcomeProperties.

(** * The inputs built by the tests, against the contract *)

Section TestInputs.

Variable PubKey : Type.
Variable secp256k1_recover : bytes -> jsnum -> bytes -> option PubKey.
Variable secp256k1_serializePubkey : PubKey -> bool -> option bytes.
Variable hashCkb : bytes -> bytes.

Local Abbreviation load := (@loadAndValidateInputs PubKey).
Local Abbreviation run :=
  (main secp256k1_recover secp256k1_serializePubkey hashCkb).
Local Abbreviation matches :=
  (signature_matches secp256k1_recover secp256k1_serializePubkey hashCkb).

Lemma u8_set_at (pre old post src : bytes) (offset : nat) :
  offset = length pre -> length old = length src ->
  u8_set (pre ++ old ++ post) src offset = Some (pre ++ src ++ post).
Proof.
  intros -> Hlen. unfold u8_set.
  replace (length (pre ++ old ++ post) <? length pre + length src) with false
    by (symmetry; apply Nat.ltb_ge; rewrite !length_app; lia).
  f_equal. f_equal.
  - rewrite firstn_app, Nat.sub_diag, firstn_all. apply app_nil_r.
  - f_equal. rewrite skipn_app, skipn_all2 by lia.
    replace (length pre + length src - length pre) with (length old) by lia.
    rewrite skipn_app, skipn_all, Nat.sub_diag. reflexivity.
Qed.

Lemma u8_store_at (pre post : bytes) (old v : byte) (i : nat) :
  i = length pre ->
  u8_store (pre ++ old :: post) i v = pre ++ v :: post.
Proof.
  intros ->. unfold u8_store.
  replace (length pre <? length (pre ++ old :: post)) with true
    by (symmetry; apply Nat.ltb_lt; rewrite length_app; cbn; lia).
  rewrite firstn_app, Nat.sub_diag, firstn_all. cbn [firstn].
  rewrite app_nil_r. f_equal. f_equal.
  rewrite skipn_app, skipn_all2 by lia.
  replace (S (length pre) - length pre) with 1 by lia. reflexivity.
Qed.

Lemma build_scriptArgs_layout (h1 h2 : bytes) :
  length h1 = 20 -> length h2 = 20 ->
  DevnetTest.build_scriptArgs h1 h2 = Some ([x02; x02] ++ h1 ++ h2).
Proof.
  intros L1 L2. unfold DevnetTest.build_scriptArgs.
  change (u8_store (u8_store (zeros 42) 0 x02) 1 x02)
    with ([x02; x02] ++ repeat x00 20 ++ repeat x00 20).
  rewrite (u8_set_at [x02; x02] (repeat x00 20) (repeat x00 20) h1 2)
    by (try reflexivity; rewrite repeat_length; lia).
  rewrite <- (app_nil_r (repeat x00 20)), (app_assoc [x02; x02] h1).
  rewrite (u8_set_at ([x02; x02] ++ h1) (repeat x00 20) [] h2 22).
  - rewrite app_nil_r, <- app_assoc. reflexivity.
  - rewrite length_app, L1. reflexivity.
  - rewrite repeat_length. lia.
Qed.

Lemma build_witnessData_layout (s1 s2 : bytes) :
  length s1 = 65 -> length s2 = 65 ->
  DevnetTest.build_witnessData s1 s2 = Some (s1 ++ s2 ++ [x00; x01]).
Proof.
  intros L1 L2. unfold DevnetTest.build_witnessData.
  change (zeros 132) with ([] ++ repeat x00 65 ++ repeat x00 67).
  rewrite (u8_set_at [] (repeat x00 65) (repeat x00 67) s1 0)
    by (try reflexivity; rewrite repeat_length; lia).
  cbn [app].
  change (repeat x00 67) with (repeat x00 65 ++ [x00; x00]).
  rewrite (u8_set_at s1 (repeat x00 65) [x00; x00] s2 65)
    by (try (symmetry; assumption); rewrite repeat_length; lia).
  rewrite (app_assoc s1 s2 [x00; x00]).
  rewrite (u8_store_at (s1 ++ s2) [x00] x00 x00 130)
    by (rewrite length_app; lia).
  change ((s1 ++ s2) ++ [x00; x00]) with ((s1 ++ s2) ++ [x00] ++ [x00]).
  rewrite (app_assoc (s1 ++ s2) [x00] [x00]).
  rewrite (u8_store_at ((s1 ++ s2) ++ [x00]) [] x00 x01 131)
    by (rewrite !length_app; cbn [length]; lia).
  rewrite <- !app_assoc. reflexivity.
Qed.

Lemma mainScript_args_hashes (codeHash : bytes) (hashType : byte)
      (h1 h2 : bytes) :
  length codeHash = 32 -> length h1 = 20 -> length h2 = 20 ->
  let args := mainScript_args codeHash hashType ([x02; x02] ++ h1 ++ h2) in
  length args = 77 /\ args_pubkeyHashes args = (h1, h2).
Proof.
  intros Lc L1 L2 args. split.
  - unfold args, mainScript_args. rewrite !length_app, Lc, L1, L2. reflexivity.
  - unfold args, mainScript_args.
    replace ([x00; x00] ++ codeHash ++ [hashType] ++ [x02; x02] ++ h1 ++ h2)
      with (([x00; x00] ++ codeHash ++ [hashType; x02; x02]) ++ h1 ++ h2)
      by (rewrite <- !app_assoc; reflexivity).
    rewrite args_pubkeyHashes_prefix
      by (rewrite !length_app, Lc; reflexivity).
    rewrite firstn_app, L1, Nat.sub_diag, firstn_all2 by lia.
    rewrite skipn_app, L1, Nat.sub_diag, skipn_all2 by lia.
    change (firstn 0 h2) with (@nil byte).
    change ([] ++ skipn 0 h2) with h2.
    rewrite app_nil_r, (firstn_all2 h2) by lia. reflexivity.
Qed.

(** X10: the inputs that the devnet test builds are the ones the contract
    decodes.  For a 32-byte code hash, two 20-byte key hashes and two
    65-byte signatures, the typed-array writes of the test succeed, the
    script args are exactly 77 bytes long, [loadAndValidateInputs] accepts
    them and returns the two key hashes, the two signatures and the indices
    (0,1) that the test put in; and the run exits with code 0 exactly when
    signature 1 matches key hash 1 and signature 2 matches key hash 2. *)
Theorem devnet_inputs_round_trip
        (codeHash : bytes) (hashType : byte) (h1 h2 s1 s2 tx : bytes) :
  length codeHash = 32 -> length h1 = 20 -> length h2 = 20 ->
  length s1 = 65 -> length s2 = 65 ->
  exists env,
    DevnetTest.build_env codeHash hashType h1 h2 s1 s2 tx = Some env
    /\ length (script_args env) = 77
    /\ fst (load env) = inr (mkInputData (h1, h2) (s1, s2) (Num 0, Num 1))
    /\ (fst (run env) = 0%Z <-> matches tx s1 h1 /\ matches tx s2 h2).
Proof.
  intros Lc L1 L2 Ls1 Ls2. unfold DevnetTest.build_env.
  rewrite (build_scriptArgs_layout h1 h2 L1 L2).
  rewrite (build_witnessData_layout s1 s2 Ls1 Ls2).
  eexists. split; [reflexivity|].
  destruct (mainScript_args_hashes codeHash hashType h1 h2 Lc L1 L2)
    as [Hlen Hhashes]. cbv zeta in Hlen, Hhashes.
  destruct (witness_layout s1 s2 x00 x01 Ls1 Ls2)
    as (Hw & E0 & E1 & B0 & B1). cbv zeta in Hw, E0, E1, B0, B1.
  cbn [script_args]. split; [exact Hlen|]. split.
  - rewrite loadAndValidateInputs_valid;
      cbn [script_args witness_lock new_Uint8Array].
    + rewrite Hhashes. unfold spec_selector. cbn [Nat.add].
      change (spec_signature (s1 ++ s2 ++ [x00; x01]) 0)
        with (firstn 65 (s1 ++ s2 ++ [x00; x01])).
      change (spec_signature (s1 ++ s2 ++ [x00; x01]) 1)
        with (firstn 65 (skipn 65 (s1 ++ s2 ++ [x00; x01]))).
      rewrite E0, E1, B0, B1. reflexivity.
    + lia.
    + exact Hw.
    + unfold spec_selector. cbn [Nat.add]. rewrite B0, B1. reflexivity.
  - rewrite (success_on_layout PubKey secp256k1_recover
               secp256k1_serializePubkey hashCkb _ tx s1 s2 x00 x01 Ls1 Ls2).
    change (byte_to_Z x00) with 0%Z. change (byte_to_Z x01) with 1%Z.
    change (Z.to_nat 0) with 0. change (Z.to_nat 1) with 1.
    unfold registered_hash. change (37 + 20 * 0) with 37.
    change (37 + 20 * 1) with 57.
    rewrite args_pubkeyHashes_offsets in Hhashes.
    pose proof (f_equal fst Hhashes) as Hh1.
    pose proof (f_equal snd Hhashes) as Hh2.
    cbn [fst snd] in Hh1, Hh2. rewrite Hh1, Hh2, Hlen. split.
    + intros (_ & _ & M1 & M2). split; assumption.
    + intros (M1 & M2). split; [lia|]. split; [left; split; reflexivity|].
      split; assumption.
Qed.

(** X11: the script args of the mock test 'invalid script args length'
    (30 bytes after the 35-byte script header, 65 bytes in all) make the
    run exit with code 2, as the test expects, whatever the witness, the
    transaction hash and the bindings. *)
Theorem mock_short_args_give_code_2
        (codeHash : bytes) (hashType : byte) (lock : option bytes)
        (tx : bytes) :
  length codeHash = 32 ->
  fst (run (mkEnv (MockTest.short_mainScript_args codeHash hashType)
                  lock tx)) = 2%Z.
Proof.
  intros Lc. rewrite main_code, loadAndValidateInputs_result. cbv zeta.
  cbn [script_args].
  replace (length (MockTest.short_mainScript_args codeHash hashType))
    with 65; [reflexivity|].
  unfold MockTest.short_mainScript_args, mainScript_args.
  rewrite !length_app, Lc. reflexivity.
Qed.

End TestInputs.

(** ** Concrete runs for the further properties *)

Ltac sample_recovered :=
  split; [reflexivity
         |split; [vm_compute; discriminate
                 |eexists; split; vm_compute; reflexivity]].

Ltac sample_accepted :=
  split; [vm_compute; lia
         |split; [reflexivity|vm_compute; tauto]].

Lemma sample_signature_verifies :
  fst (verifySignature Sample.recover Sample.serializePubkey Sample.hashCkb
         (mkParams Sample.txHash (Sample.sig x0a x00)
                   (Sample.fp x0a, Sample.fp x0b) (Num 0) "signature1"))
  = 0%Z.
Proof.
  apply (verifySignature_outcomes
           Sample.PubKey Sample.recover Sample.serializePubkey Sample.hashCkb).
  exists (x04 :: repeat x0a 64). split; [sample_recovered|reflexivity].
Defined.

Lemma sample_good_succeeds :
  fst (Sample.run Sample.good) = 0%Z.
Proof.
  apply (main_success_iff
           Sample.PubKey Sample.recover Sample.serializePubkey Sample.hashCkb
           Sample.good).
  split; [sample_accepted|]. split.
  - exists (x04 :: repeat x0a 64). split; [sample_recovered|reflexivity].
  - exists (x04 :: repeat x0b 64). split; [sample_recovered|reflexivity].
Defined.

Lemma sample_bad_recovery_id_code_5 :
  fst (Sample.run Sample.bad_recovery_id) = 5%Z.
Proof.
  apply (main_code_5_iff
           Sample.PubKey Sample.recover Sample.serializePubkey Sample.hashCkb
           Sample.bad_recovery_id).
  split; [sample_accepted|].
  left. right. left. vm_compute. reflexivity.
Defined.

Lemma sample_wrong_key_code_1 :
  fst (Sample.run Sample.wrong_key_slot0) = 1%Z.
Proof.
  apply (main_code_1_iff
           Sample.PubKey Sample.recover Sample.serializePubkey Sample.hashCkb
           Sample.wrong_key_slot0).
  split; [sample_accepted|].
  left. exists (x04 :: repeat x0b 64).
  split; [sample_recovered|vm_compute; discriminate].
Defined.

Lemma sample_swapped_succeeds :
  fst (Sample.run SampleMore.swapped) = 0%Z.
Proof.
  apply (signature_order_irrelevant_for_success
           Sample.PubKey Sample.recover Sample.serializePubkey Sample.hashCkb
           Sample.config Sample.txHash
           (Sample.sig x0a x00) (Sample.sig x0b x01) x00 x01
           eq_refl eq_refl).
  vm_compute. reflexivity.
Defined.

Lemma sample_twin_hashes_equal :
  registered_hash SampleMore.twin_config 0
  = registered_hash SampleMore.twin_config 1.
Proof.
  apply (duplicate_signature_needs_equal_hashes
           Sample.PubKey Sample.recover Sample.serializePubkey Sample.hashCkb
           SampleMore.twin).
  - reflexivity.
  - vm_compute. reflexivity.
Defined.

Lemma sample_padded_config_same_run :
  Sample.run (Sample.env_of SampleMore.padded_config Sample.good_proof)
  = Sample.run Sample.good.
Proof.
  apply (only_hash_region_of_args_matters
           Sample.PubKey Sample.recover Sample.serializePubkey Sample.hashCkb
           SampleMore.padded_config Sample.config
           (Some Sample.good_proof) Sample.txHash).
  - vm_compute. lia.
  - vm_compute. lia.
  - reflexivity.
Defined.

Lemma sample_short_config_trace :
  snd (Sample.run Sample.short_config)
  = [EvLoadScript; EvDebug (MsgInvalidScriptArgsLength 30 77)].
Proof.
  apply (structural_failures_do_no_crypto
           Sample.PubKey Sample.recover Sample.serializePubkey Sample.hashCkb
           Sample.short_config).
  vm_compute. reflexivity.
Defined.

Lemma sample_devnet_round_trip :
  exists env,
    DevnetTest.build_env SampleMore.codeHash x01
      (Sample.fp x0a) (Sample.fp x0b)
      (Sample.sig x0a x00) (Sample.sig x0b x01) Sample.txHash = Some env
    /\ length (script_args env) = 77
    /\ fst (@loadAndValidateInputs Sample.PubKey env)
       = inr (mkInputData (Sample.fp x0a, Sample.fp x0b)
                          (Sample.sig x0a x00, Sample.sig x0b x01)
                          (Num 0, Num 1))
    /\ (fst (Sample.run env) = 0%Z
        <-> signature_matches Sample.recover Sample.serializePubkey
              Sample.hashCkb Sample.txHash (Sample.sig x0a x00)
              (Sample.fp x0a)
            /\ signature_matches Sample.recover Sample.serializePubkey
                 Sample.hashCkb Sample.txHash (Sample.sig x0b x01)
                 (Sample.fp x0b)).
Proof.
  apply (devnet_inputs_round_trip
           Sample.PubKey Sample.recover Sample.serializePubkey Sample.hashCkb
           SampleMore.codeHash x01 (Sample.fp x0a) (Sample.fp x0b)
           (Sample.sig x0a x00) (Sample.sig x0b x01) Sample.txHash);
    reflexivity.
Defined.

Lemma sample_mock_short_args :
  fst (Sample.run (mkEnv (MockTest.short_mainScript_args SampleMore.codeHash
                                                         x01)
                         (Some Sample.good_proof) Sample.txHash)) = 2%Z.
Proof.
  apply (mock_short_args_give_code_2
           Sample.PubKey Sample.recover Sample.serializePubkey Sample.hashCkb
           SampleMore.codeHash x01 (Some Sample.good_proof) Sample.txHash).
  reflexivity.
Defined.

(** * The message hash decoded by the devnet test *)

Section MessageHash.

Variable parseInt : list Ascii.ascii -> Z -> option Z.

(** What the built-in gives for two hexadecimal digits in base 16. *)
Hypothesis parseInt_two_digits :
  forall c1 c2 v1 v2,
    hex_value c1 = Some v1 -> hex_value c2 = Some v2 ->
    parseInt [c1; c2] 16%Z = Some (16 * v1 + v2)%Z.

Lemma fold_store_prefix (f : nat -> byte) (k : nat) (a : bytes) :
  k <= length a ->
  fold_left (fun acc i => u8_store acc i (f i)) (seq 0 k) a
  = map f (seq 0 k) ++ skipn k a.
Proof.
  induction k as [|k IH]; intros Hk; [reflexivity|].
  rewrite seq_S, fold_left_app, IH by lia. cbn [fold_left Nat.add].
  destruct (skipn k a) as [|old rest] eqn:Hskip.
  { apply (f_equal (@length byte)) in Hskip.
    rewrite length_skipn in Hskip. cbn in Hskip. lia. }
  rewrite (u8_store_at (map f (seq 0 k)) rest old (f k) k)
    by (rewrite length_map, length_seq; reflexivity).
  rewrite map_app. cbn [map]. rewrite <- app_assoc. cbn [app].
  do 2 f_equal.
  replace (S k) with (1 + k) by lia.
  rewrite <- skipn_skipn, Hskip. reflexivity.
Qed.

Lemma substr_hex_of_bytes (bs : bytes) (i : nat) (b : byte) :
  nth_error bs i = Some b ->
  substr (hex_of_bytes bs) (i * 2) 2 = hex_of_byte b.
Proof.
  revert i. induction bs as [|b0 bs IH]; intros [|i] Hnth;
    cbn in Hnth; try discriminate.
  - injection Hnth as ->. reflexivity.
  - apply IH in Hnth. exact Hnth.
Qed.

Lemma hex_value_digit (n : N) :
  (n < 16)%N -> hex_value (hex_digit n) = Some (Z.of_N n).
Proof.
  intros Hn.
  assert (H : forall k, (k < 16)%nat ->
            hex_value (hex_digit (N.of_nat k)) = Some (Z.of_N (N.of_nat k))).
  { intros k Hk. do 16 (destruct k as [|k]; [reflexivity|]). lia. }
  specialize (H (N.to_nat n)). rewrite N2Nat.id in H. apply H. lia.
Qed.

Lemma ToUint8_byte (b : byte) : ToUint8 (Some (byte_to_Z b)) = b.
Proof.
  unfold ToUint8, byte_to_Z. pose proof (Byte.to_N_bounded b).
  rewrite Z.mod_small by lia. rewrite N2Z.id, Byte.of_to_N. reflexivity.
Qed.

Lemma parseInt_hex_of_byte (b : byte) :
  parseInt (hex_of_byte b) 16%Z = Some (byte_to_Z b).
Proof.
  pose proof (Byte.to_N_bounded b) as Hb. unfold hex_of_byte.
  rewrite (parseInt_two_digits _ _ (Z.of_N (Byte.to_N b / 16))
                               (Z.of_N (Byte.to_N b mod 16))).
  - f_equal. unfold byte_to_Z.
    rewrite (N.div_mod (Byte.to_N b) 16) at 3 by lia. lia.
  - apply hex_value_digit. apply N.Div0.div_lt_upper_bound. lia.
  - apply hex_value_digit. apply N.mod_lt. lia.
Qed.

(** X12: the loop of the devnet test decodes hexadecimal text back to the
    bytes it stands for.  For any 32 bytes, applying it to "0x" followed by
    their lower-case hexadecimal text gives those 32 bytes, given that
    [parseInt] reads two hexadecimal digits in base 16 as usual. *)
Theorem decode_messageHash_round_trip (bs : bytes) :
  length bs = 32 ->
  decode_messageHash parseInt
    (list_ascii_of_string "0x" ++ hex_of_bytes bs) = bs.
Proof.
  intros Hlen. unfold decode_messageHash.
  cbn [list_ascii_of_string app skipn].
  rewrite fold_store_prefix by (unfold zeros; rewrite repeat_length; lia).
  unfold zeros. rewrite skipn_all2 by (rewrite repeat_length; lia).
  rewrite app_nil_r.
  apply nth_error_ext. intros i.
  rewrite nth_error_map.
  destruct (nth_error bs i) as [b|] eqn:Hb.
  - assert (Hi : i < 32)
      by (rewrite <- Hlen; apply nth_error_Some; congruence).
    rewrite (nth_error_nth' _ 0) by (rewrite length_seq; exact Hi).
    rewrite seq_nth by exact Hi. cbn [option_map Nat.add].
    rewrite (substr_hex_of_bytes bs i b Hb), parseInt_hex_of_byte,
      ToUint8_byte.
    reflexivity.
  - apply nth_error_None in Hb.
    replace (nth_error (seq 0 32) i) with (@None nat)
      by (symmetry; apply nth_error_None; rewrite length_seq; lia).
    reflexivity.
Qed.

End MessageHash.

Lemma sample_parseInt_two_digits (c1 c2 : Ascii.ascii) (v1 v2 : Z) :
  hex_value c1 = Some v1 -> hex_value c2 = Some v2 ->
  sample_parseInt [c1; c2] 16%Z = Some (16 * v1 + v2)%Z.
Proof.
  intros H1 H2. unfold sample_parseInt. cbn [parse_hex_digits].
  rewrite H1, H2. reflexivity.
Qed.

Lemma sample_hash_text_decodes :
  decode_messageHash sample_parseInt
    (list_ascii_of_string "0x" ++ hex_of_bytes Sample.txHash)
  = Sample.txHash.
Proof.
  apply (decode_messageHash_round_trip
           sample_parseInt sample_parseInt_two_digits Sample.txHash).
  reflexivity.
Defined.

(** * The snake game *)

Module SnakeGameFacts.

Import SnakeGame.

Lemma pair_induction {A : Type} (P : list A -> Prop) :
  P [] -> (forall a, P [a]) -> (forall a b l, P l -> P (a :: b :: l)) ->
  forall l, P l.
Proof.
  intros H0 H1 H2.
  assert (H : forall l, P l /\ forall a, P (a :: l)).
  { induction l as [|b l [IH IH']]; split; auto. }
  intros l. apply H.
Qed.

Lemma generateFood_spec (draws : list Z) (snake : list Position)
      (newFood : Position) (rest : list Z) :
  generateFood draws snake = Some (newFood, rest) ->
  existsb (fun segment => same_cell segment newFood) snake = false
  /\ (draws_in_range draws -> on_board newFood /\ draws_in_range rest).
Proof.
  induction draws as [| a | dx dy l IH] using pair_induction;
    cbn [generateFood]; try discriminate.
  destruct (existsb (fun segment => same_cell segment (mkPosition dx dy))
                    snake) eqn:Hhit.
  - intros H. destruct (IH H) as [Hfree Hrange]. split; [exact Hfree|].
    intros Hd. inversion Hd as [|? ? _ Hd']; subst.
    inversion Hd' as [|? ? _ Hl]; subst. auto.
  - intros H. injection H as <- <-. split; [exact Hhit|].
    intros Hd. inversion Hd as [|? ? Hx Hd']; subst.
    inversion Hd' as [|? ? Hy Hl]; subst.
    split; [split; assumption|assumption].
Qed.

Lemma wrap_on_board (p : Position) : on_board (wrap p).
Proof.
  unfold on_board, wrap, GRID_SIZE. cbn [x y].
  destruct (x p <? 0)%Z eqn:X0, (20 <=? x p)%Z eqn:X1,
           (y p <? 0)%Z eqn:Y0, (20 <=? y p)%Z eqn:Y1; lia.
Qed.

Lemma Forall_removelast {A : Type} (P : A -> Prop) (l : list A) :
  Forall P l -> Forall P (removelast l).
Proof.
  induction l as [|a [|b l] IH]; intros H; cbn; [constructor|constructor|].
  inversion H; subst. constructor; [assumption|]. apply IH. assumption.
Qed.

Lemma existsb_removelast {A : Type} (f : A -> bool) (l : list A) :
  existsb f l = false -> existsb f (removelast l) = false.
Proof.
  induction l as [|a [|b l] IH]; intros H; [reflexivity|reflexivity|].
  cbn [existsb] in H. apply orb_false_iff in H. destruct H as [Ha Hl].
  cbn [removelast existsb]. rewrite Ha. cbn [orb]. apply IH. exact Hl.
Qed.

Lemma length_removelast_cons {A : Type} (a : A) (l : list A) :
  length (removelast (a :: l)) = length l.
Proof.
  revert a. induction l as [|b l IH]; intros a; [reflexivity|].
  change (removelast (a :: b :: l)) with (a :: removelast (b :: l)).
  cbn [length]. rewrite IH. reflexivity.
Qed.

Lemma moved_head_differs (d : Direction) (p : Position) :
  on_board p -> same_cell p (wrap (move d p)) = false.
Proof.
  unfold on_board, same_cell, wrap, move, GRID_SIZE.
  intros [Hx Hy]. apply andb_false_iff.
  destruct d; cbn [x y];
    repeat match goal with
           | |- context [if ?c then _ else _] => destruct c eqn:?
           end; lia.
Qed.

Lemma invariant_initial (draws : list Z) :
  draws_in_range draws -> invariant (initialWorld draws).
Proof.
  intros Hd. unfold invariant, initialWorld, initialGameState.
  cbn [snake food score gameOver INITIAL_SNAKE INITIAL_FOOD length].
  repeat split; try (cbn; lia); try exact Hd; try discriminate.
  repeat constructor; cbn; lia.
Qed.

Lemma invariant_newGame (running : bool) (draws : list Z) (w : World) :
  draws_in_range draws -> newGame running draws = Some w -> invariant w.
Proof.
  intros Hd. unfold newGame.
  destruct (generateFood draws INITIAL_SNAKE) as [[newFood rest]|] eqn:Hg;
    [|discriminate].
  intros H. injection H as <-.
  destruct (generateFood_spec _ _ _ _ Hg) as [Hfree Hrange].
  destruct (Hrange Hd) as [Hboard Hrest].
  unfold invariant. cbn [snake food score gameOver INITIAL_SNAKE length].
  repeat split; try (cbn; lia); try assumption; try apply Hboard;
    try discriminate.
  repeat constructor; cbn; lia.
Qed.

Lemma invariant_gameLoop (st : GameState) (queue : list Direction)
      (draws : list Z) (w : World) :
  invariant (st, queue, draws) -> gameLoop queue draws st = Some w ->
  invariant w.
Proof.
  intros (Hsnake & Hfood & Hfree & Hscore & Hlen & Hq & Hd & Hover).
  unfold gameLoop.
  destruct (negb (gameRunning st) || gameOver st) eqn:Hgo.
  { intros H. injection H as <-.
    repeat split; try assumption; apply Hfood. }
  apply orb_false_iff in Hgo. destruct Hgo as [_ Hnot].
  set (dq := match queue with
             | next :: rest => (next, rest)
             | [] => (direction st, [])
             end).
  assert (Hq' : (length (snd dq) <= 2)%nat).
  { unfold dq. destruct queue; cbn [snd length] in *; lia. }
  destruct dq as [dir queue']. cbn [snd] in Hq'.
  destruct (snake st) as [|first body] eqn:Hs; [cbn in Hlen; lia|].
  set (head := wrap (move dir first)).
  destruct (checkCollision head (first :: body)) eqn:Hhit.
  { intros H. injection H as <-. unfold invariant.
    cbn [snake food score gameOver].
    repeat split; try assumption; try apply Hfood.
    intros _. unfold checkCollision in Hhit. cbn [existsb] in Hhit.
    unfold head in Hhit. rewrite moved_head_differs in Hhit
      by (inversion Hsnake; assumption).
    destruct body; [discriminate|cbn [length]; lia]. }
  destruct (same_cell head (food st)) eqn:Heat.
  - destruct (generateFood draws (head :: first :: body))
      as [[newFood rest]|] eqn:Hg; [|discriminate].
    intros H. injection H as <-.
    destruct (generateFood_spec _ _ _ _ Hg) as [Hfree' Hrange].
    destruct (Hrange Hd) as [Hboard Hrest].
    unfold invariant. cbn [snake food score gameOver].
    repeat split; try assumption; try apply Hboard.
    + constructor; [apply wrap_on_board|assumption].
    + rewrite Hscore. cbn [length]. lia.
    + cbn [length]. lia.
    + congruence.
  - assert (Hmoved : Forall on_board (removelast (head :: first :: body)))
      by (apply Forall_removelast; constructor;
          [apply wrap_on_board|assumption]).
    assert (Hfree' : existsb (fun segment => same_cell segment (food st))
                             (removelast (head :: first :: body)) = false)
      by (apply existsb_removelast; cbn [existsb]; rewrite Heat;
          exact Hfree).
    pose proof (length_removelast_cons head (first :: body)) as Hl.
    set (moved := removelast (head :: first :: body)) in *.
    intros H. injection H as <-. unfold invariant.
    cbn [snake food score gameOver].
    rewrite Hl.
    repeat split; try assumption; apply Hfood.
Qed.

Lemma handleKeyPress_state (key : string) (queue : list Direction)
      (st : GameState) :
  fst (handleKeyPress key queue st) = st
  /\ (length queue <= 2 ->
      length (snd (handleKeyPress key queue st)) <= 2)%nat.
Proof.
  unfold handleKeyPress.
  destruct (negb (gameRunning st)); [split; auto|].
  destruct (key_direction key) as [newDirection|]; [|split; auto].
  destruct (isValidDirection _ _ && negb _); [|split; auto].
  destruct (length queue <? 2)%nat eqn:Hlt.
  - apply Nat.ltb_lt in Hlt. split; [reflexivity|].
    intros _. cbn [snd]. rewrite length_app. cbn [length]. lia.
  - destruct queue as [|q0 [|q1 rest]]; split; auto.
Qed.

Lemma invariant_step (e : GameEvent) (w w' : World) :
  invariant w -> step e w = Some w' -> invariant w'.
Proof.
  destruct w as [[st queue] draws]. intros Hinv.
  destruct e; cbn [step].
  - apply invariant_gameLoop. exact Hinv.
  - destruct (handleKeyPress key queue st) as [st' queue'] eqn:Hk.
    intros H. injection H as <-.
    destruct (handleKeyPress_state key queue st) as [Hst Hq].
    rewrite Hk in Hst, Hq. cbn [fst snd] in Hst, Hq. subst st'.
    destruct Hinv as (H1 & H2 & H3 & H4 & H5 & H6 & H7 & H8).
    repeat split; try assumption; try apply H2. apply Hq. exact H6.
  - apply invariant_newGame. apply Hinv.
  - intros H. injection H as <-.
    destruct Hinv as (H1 & H2 & H3 & H4 & H5 & H6 & H7 & H8).
    repeat split; try assumption; apply H2.
  - apply invariant_newGame. apply Hinv.
Qed.

Lemma invariant_play (events : list GameEvent) (w w' : World) :
  invariant w -> play events w = Some w' -> invariant w'.
Proof.
  revert w. induction events as [|e events IH]; intros w Hinv; cbn [play].
  - intros H. injection H as <-. exact Hinv.
  - destruct (step e w) as [w1|] eqn:Hstep; [|discriminate].
    apply IH. apply (invariant_step e w w1 Hinv Hstep).
Qed.

Lemma invariant_reachable (events : list GameEvent) (draws : list Z)
      (w : World) :
  draws_in_range draws -> play events (initialWorld draws) = Some w ->
  invariant w.
Proof.
  intros Hd. apply invariant_play. apply invariant_initial. exact Hd.
Qed.

Lemma not_In_of_existsb (p : Position) (l : list Position) :
  existsb (fun segment => same_cell segment p) l = false -> ~ In p l.
Proof.
  intros Hfree Hin.
  assert (H : existsb (fun segment => same_cell segment p) l = true).
  { apply existsb_exists. exists p. split; [exact Hin|].
    unfold same_cell. rewrite !Z.eqb_refl. reflexivity. }
  congruence.
Qed.

(** X13: the snake never leaves the board and the food is always on it.
    In every state reached from the initial one by ticks, key presses,
    starts, pauses and resets, every segment of the snake and the food
    have coordinates from 0 to 19: walls wrap around. *)
Theorem snake_stays_on_board
        (events : list GameEvent) (draws : list Z)
        (st : GameState) (queue : list Direction) (rest : list Z) :
  draws_in_range draws ->
  play events (initialWorld draws) = Some (st, queue, rest) ->
  Forall on_board (snake st) /\ on_board (food st).
Proof.
  intros Hd Hplay.
  destruct (invariant_reachable events draws _ Hd Hplay)
    as (H1 & H2 & _). split; assumption.
Qed.

(** X14: the score counts the growth of the snake.  In every reachable
    state the snake has at least one segment and the score is 10 times the
    number of segments gained since the game started. *)
Theorem score_counts_growth
        (events : list GameEvent) (draws : list Z)
        (st : GameState) (queue : list Direction) (rest : list Z) :
  draws_in_range draws ->
  play events (initialWorld draws) = Some (st, queue, rest) ->
  (1 <= length (snake st))%nat
  /\ score st = (10 * (Z.of_nat (length (snake st)) - 1))%Z.
Proof.
  intros Hd Hplay.
  destruct (invariant_reachable events draws _ Hd Hplay)
    as (_ & _ & _ & H4 & H5 & _). split; assumption.
Qed.

(** X15: the food is never under the snake, in any reachable state. *)
Theorem food_never_under_snake
        (events : list GameEvent) (draws : list Z)
        (st : GameState) (queue : list Direction) (rest : list Z) :
  draws_in_range draws ->
  play events (initialWorld draws) = Some (st, queue, rest) ->
  ~ In (food st) (snake st).
Proof.
  intros Hd Hplay.
  destruct (invariant_reachable events draws _ Hd Hplay)
    as (_ & _ & H3 & _). apply not_In_of_existsb. exact H3.
Qed.

(** X16: at most two directions are ever pending in the queue. *)
Theorem direction_queue_at_most_two
        (events : list GameEvent) (draws : list Z)
        (st : GameState) (queue : list Direction) (rest : list Z) :
  draws_in_range draws ->
  play events (initialWorld draws) = Some (st, queue, rest) ->
  (length queue <= 2)%nat.
Proof.
  intros Hd Hplay.
  destruct (invariant_reachable events draws _ Hd Hplay)
    as (_ & _ & _ & _ & _ & H6 & _). exact H6.
Qed.

(** X17: [generateFood] never returns a cell of the snake, and with draws
    from 0 to 19 the cell is on the board. *)
Theorem generateFood_avoids_snake
        (draws : list Z) (snake : list Position)
        (newFood : Position) (rest : list Z) :
  generateFood draws snake = Some (newFood, rest) ->
  ~ In newFood snake /\ (draws_in_range draws -> on_board newFood).
Proof.
  intros Hg. destruct (generateFood_spec _ _ _ _ Hg) as [Hfree Hrange].
  split; [apply not_In_of_existsb; exact Hfree|].
  intros Hd. apply Hrange. exact Hd.
Qed.

(** X18: when the snake covers the whole board, the loop of
    [generateFood] does not end, however many draws it makes. *)
Theorem generateFood_never_ends_on_full_board
        (draws : list Z) (snake : list Position) :
  (forall p, on_board p -> In p snake) ->
  draws_in_range draws ->
  generateFood draws snake = None.
Proof.
  intros Hfull.
  induction draws as [| a | dx dy l IH] using pair_induction;
    intros Hd; [reflexivity|reflexivity|].
  inversion Hd as [|? ? Hx Hd']; subst.
  inversion Hd' as [|? ? Hy Hl]; subst.
  cbn [generateFood].
  replace (existsb (fun segment => same_cell segment (mkPosition dx dy))
                   snake) with true.
  - apply IH. exact Hl.
  - symmetry. apply existsb_exists. exists (mkPosition dx dy). split.
    + apply Hfull. split; assumption.
    + unfold same_cell. rewrite !Z.eqb_refl. reflexivity.
Qed.

(** X19: a game cannot be lost before the snake has grown.  In every
    reachable state where the game is over the snake has at least two
    segments, so the score is at least 10. *)
Theorem game_over_needs_two_segments
        (events : list GameEvent) (draws : list Z)
        (st : GameState) (queue : list Direction) (rest : list Z) :
  draws_in_range draws ->
  play events (initialWorld draws) = Some (st, queue, rest) ->
  gameOver st = true ->
  (2 <= length (snake st))%nat /\ (10 <= score st)%Z.
Proof.
  intros Hd Hplay Hover.
  destruct (invariant_reachable events draws _ Hd Hplay)
    as (_ & _ & _ & H4 & _ & _ & _ & H8).
  specialize (H8 Hover). split; [exact H8|]. rewrite H4. lia.
Qed.

Lemma finished_step (e : GameEvent) (st st' : GameState)
      (queue queue' : list Direction) (draws draws' : list Z) :
  gameOver st = true -> starts_game e = false ->
  step e (st, queue, draws) = Some (st', queue', draws') ->
  snake st' = snake st /\ food st' = food st /\ score st' = score st
  /\ direction st' = direction st /\ gameOver st' = true /\ draws' = draws.
Proof.
  intros Hover Hstart. destruct e; cbn [step]; try discriminate.
  - unfold gameLoop. rewrite Hover, orb_true_r.
    intros H. injection H as <- <- <-. repeat split. exact Hover.
  - destruct (handleKeyPress key queue st) as [s q] eqn:Hk.
    pose proof (proj1 (handleKeyPress_state key queue st)) as Hst.
    rewrite Hk in Hst. cbn [fst] in Hst. subst s.
    intros H. injection H as <- <- <-. repeat split. exact Hover.
  - intros H. injection H as <- <- <-. repeat split. exact Hover.
Qed.

(** X20: a finished game stays as it is until it is started or reset.
    From a state where the game is over, ticks, key presses and pauses
    leave the snake, the food, the score and the direction unchanged, keep
    the game over, and use no random draw. *)
Theorem finished_game_is_frozen
        (events : list GameEvent) (st st' : GameState)
        (queue queue' : list Direction) (draws draws' : list Z) :
  gameOver st = true ->
  forallb (fun e => negb (starts_game e)) events = true ->
  play events (st, queue, draws) = Some (st', queue', draws') ->
  snake st' = snake st /\ food st' = food st /\ score st' = score st
  /\ direction st' = direction st /\ gameOver st' = true /\ draws' = draws.
Proof.
  revert st queue draws.
  induction events as [|e events IH]; intros st queue draws Hover Hev;
    cbn [play].
  - intros H. injection H as <- <- <-. repeat split. exact Hover.
  - cbn [forallb] in Hev. apply andb_true_iff in Hev.
    destruct Hev as [He Hev]. apply negb_true_iff in He.
    destruct (step e (st, queue, draws)) as [[[s1 q1] d1]|] eqn:Hstep;
      [|discriminate].
    destruct (finished_step e st s1 queue q1 draws d1 Hover He Hstep)
      as (E1 & E2 & E3 & E4 & E5 & E6).
    intros Hplay.
    destruct (IH s1 q1 d1 E5 Hev Hplay) as (F1 & F2 & F3 & F4 & F5 & F6).
    repeat split; congruence.
Qed.

End SnakeGameFacts.

(** * The theme store *)

Module ThemeStoreFacts.

Import ThemeStore.

Lemma spent_snoc (l : list Transaction) (t : Transaction) :
  spent (l ++ [t]) = record_spending (spent l) t.
Proof.
  unfold spent. rewrite fold_left_app. reflexivity.
Qed.

Lemma includes_In (l : list string) (id : string) :
  includes l id = true -> In id l.
Proof.
  unfold includes. intros H. apply existsb_exists in H.
  destruct H as (id' & Hin & Heq). apply String.eqb_eq in Heq. congruence.
Qed.

Lemma store_invariant_initial : store_invariant initialStore.
Proof.
  unfold store_invariant, initialStore. cbn.
  repeat split; try lia; try discriminate; left; reflexivity.
Qed.

Lemma store_invariant_handle (s : Store) (e : StoreEvent) :
  store_invariant s -> fair_price e -> store_invariant (handle s e).
Proof.
  intros (Hcap & Hbal & Hclosed & Hopen & Hsnake & Hboard) Hfair.
  destruct e as [| |themeType themeId price|themeType themeId];
    cbn [handle].
  - unfold store_invariant, openPaymentChannel, setPaymentChannel.
    cbn [paymentChannel capacity balance isOpen transactions
         currentSnakeTheme currentBoardTheme ownedSnakeThemes
         ownedBoardThemes].
    rewrite spent_snoc. cbn [record_spending].
    repeat split; try assumption; try lia; try discriminate.
  - unfold store_invariant, closePaymentChannel, setPaymentChannel.
    cbn [paymentChannel capacity balance isOpen transactions
         currentSnakeTheme currentBoardTheme ownedSnakeThemes
         ownedBoardThemes].
    repeat split; try assumption; try lia; try discriminate.
  - cbn [fair_price] in Hfair. unfold purchaseTheme.
    destruct (price <=? balance (paymentChannel s))%Z eqn:Hafford.
    + apply Z.leb_le in Hafford.
      destruct themeType; cbn [fst]; unfold store_invariant;
        cbn [paymentChannel capacity balance isOpen transactions
             currentSnakeTheme currentBoardTheme ownedSnakeThemes
             ownedBoardThemes];
        rewrite spent_snoc; cbn [record_spending];
        (split; [exact Hcap|]); (split; [lia|]);
        (split; [intros Hc; specialize (Hclosed Hc); lia|]);
        (split; [intros Ho; specialize (Hopen Ho); lia|]);
        split; try assumption; apply in_or_app; right; left; reflexivity.
    + cbn [fst]. repeat split; try assumption; apply Hbal.
  - unfold selectTheme. destruct themeType.
    + destruct (includes (ownedSnakeThemes s) themeId) eqn:Hinc.
      * apply includes_In in Hinc. unfold store_invariant.
        cbn [paymentChannel currentSnakeTheme currentBoardTheme
             ownedSnakeThemes ownedBoardThemes].
        repeat split; try assumption; apply Hbal.
      * repeat split; try assumption; apply Hbal.
    + destruct (includes (ownedBoardThemes s) themeId) eqn:Hinc.
      * apply includes_In in Hinc. unfold store_invariant.
        cbn [paymentChannel currentSnakeTheme currentBoardTheme
             ownedSnakeThemes ownedBoardThemes].
        repeat split; try assumption; apply Hbal.
      * repeat split; try assumption; apply Hbal.
Qed.

Lemma store_invariant_visit (events : list StoreEvent) (s : Store) :
  store_invariant s -> Forall fair_price events ->
  store_invariant (visit events s).
Proof.
  revert s. induction events as [|e events IH]; intros s Hinv Hfair;
    [exact Hinv|].
  inversion Hfair; subst. cbn [visit fold_left].
  apply IH; [apply store_invariant_handle|]; assumption.
Qed.

(** X21: the payment channel keeps its books.  After any sequence of
    openings, closings, purchases at non-negative prices and selections,
    starting from the initial store: the capacity is 100, the balance is
    between 0 and the capacity, a closed channel has balance 0, and an open
    channel has the capacity less what the recorded purchases since its
    opening add up to. *)
Theorem payment_channel_ledger (events : list StoreEvent) :
  Forall fair_price events ->
  let c := paymentChannel (visit events initialStore) in
  capacity c = 100%Z
  /\ (0 <= balance c <= capacity c)%Z
  /\ (isOpen c = false -> balance c = 0%Z)
  /\ (isOpen c = true -> balance c = (capacity c - spent (transactions c))%Z).
Proof.
  intros Hfair c.
  destruct (store_invariant_visit events initialStore
              store_invariant_initial Hfair)
    as (H1 & H2 & H3 & H4 & _).
  repeat split; try assumption; apply H2.
Qed.

(** X22: nothing is sold through a closed channel.  In a store reached as
    above whose channel is closed, [purchaseTheme] at a positive price
    returns false and leaves the store as it is. *)
Theorem closed_channel_sells_nothing
        (events : list StoreEvent) (themeType : ThemeType)
        (themeId : string) (price : Z) :
  Forall fair_price events ->
  isOpen (paymentChannel (visit events initialStore)) = false ->
  (0 < price)%Z ->
  purchaseTheme themeType themeId price (visit events initialStore)
  = (visit events initialStore, false).
Proof.
  intros Hfair Hclosed Hprice.
  destruct (store_invariant_visit events initialStore
              store_invariant_initial Hfair)
    as (_ & _ & H3 & _).
  unfold purchaseTheme. rewrite (H3 Hclosed).
  replace (price <=? 0)%Z with false by lia. reflexivity.
Qed.

(** X23: the theme in use is always an owned one.  In every store reached
    as above, the current snake theme is among the owned snake themes and
    the current board theme among the owned board themes. *)
Theorem current_theme_is_owned (events : list StoreEvent) :
  Forall fair_price events ->
  let s := visit events initialStore in
  In (currentSnakeTheme s) (ownedSnakeThemes s)
  /\ In (currentBoardTheme s) (ownedBoardThemes s).
Proof.
  intros Hfair s.
  destruct (store_invariant_visit events initialStore
              store_invariant_initial Hfair)
    as (_ & _ & _ & _ & H5 & H6).
  split; assumption.
Qed.

End ThemeStoreFacts.

(** ** Concrete plays and visits *)

Ltac sample_draws_ok :=
  unfold SnakeGame.draws_in_range, SnakeGame.GRID_SIZE;
  repeat constructor; lia.

Ltac sample_prices_ok :=
  repeat constructor; cbn; lia.

Lemma sample_draws_in_range :
  SnakeGame.draws_in_range FrontendSample.draws.
Proof.
  sample_draws_ok.
Qed.

Lemma sample_play :
  SnakeGame.play FrontendSample.events
    (SnakeGame.initialWorld FrontendSample.draws)
  = Some FrontendSample.final.
Proof.
  vm_compute. reflexivity.
Qed.

Lemma sample_fatal_play :
  SnakeGame.play FrontendSample.fatal_events
    (SnakeGame.initialWorld FrontendSample.draws)
  = Some FrontendSample.fatal_final.
Proof.
  vm_compute. reflexivity.
Qed.

Lemma sample_shopping_prices :
  Forall ThemeStore.fair_price FrontendSample.shopping.
Proof.
  sample_prices_ok.
Qed.

Lemma full_board_covers (p : SnakeGame.Position) :
  SnakeGame.on_board p -> In p FrontendSample.full_board.
Proof.
  destruct p as [px py]. unfold SnakeGame.on_board, SnakeGame.GRID_SIZE.
  cbn [SnakeGame.x SnakeGame.y]. intros [Hx Hy].
  unfold FrontendSample.full_board. apply in_flat_map.
  exists (Z.to_nat px). split; [apply in_seq; lia|].
  apply in_map_iff. exists (Z.to_nat py). split; [|apply in_seq; lia].
  rewrite !Z2Nat.id by lia. reflexivity.
Qed.

Lemma sample_snake_on_board :
  Forall SnakeGame.on_board
         [SnakeGame.mkPosition 11 8; SnakeGame.mkPosition 11 9]
  /\ SnakeGame.on_board (SnakeGame.mkPosition 5 5).
Proof.
  exact (SnakeGameFacts.snake_stays_on_board
           FrontendSample.events FrontendSample.draws _ _ _
           sample_draws_in_range sample_play).
Defined.

Lemma sample_score_counts_growth :
  (1 <= 2)%nat /\ 10%Z = (10 * (Z.of_nat 2 - 1))%Z.
Proof.
  exact (SnakeGameFacts.score_counts_growth
           FrontendSample.events FrontendSample.draws _ _ _
           sample_draws_in_range sample_play).
Defined.

Lemma sample_food_not_under_snake :
  ~ In (SnakeGame.mkPosition 5 5)
       [SnakeGame.mkPosition 11 8; SnakeGame.mkPosition 11 9].
Proof.
  exact (SnakeGameFacts.food_never_under_snake
           FrontendSample.events FrontendSample.draws _ _ _
           sample_draws_in_range sample_play).
Defined.

Lemma sample_queue_at_most_two :
  (length (@nil SnakeGame.Direction) <= 2)%nat.
Proof.
  exact (SnakeGameFacts.direction_queue_at_most_two
           FrontendSample.events FrontendSample.draws _ _ _
           sample_draws_in_range sample_play).
Defined.

Lemma sample_generateFood_avoids_snake :
  ~ In (SnakeGame.mkPosition 4 7) SnakeGame.INITIAL_SNAKE
  /\ SnakeGame.on_board (SnakeGame.mkPosition 4 7).
Proof.
  destruct (SnakeGameFacts.generateFood_avoids_snake
              [10; 10; 4; 7]%Z SnakeGame.INITIAL_SNAKE
              (SnakeGame.mkPosition 4 7) [] eq_refl) as [Hfree Hboard].
  split; [exact Hfree|]. apply Hboard. sample_draws_ok.
Defined.

Lemma sample_full_board_never_ends :
  SnakeGame.generateFood FrontendSample.draws FrontendSample.full_board
  = None.
Proof.
  exact (SnakeGameFacts.generateFood_never_ends_on_full_board
           FrontendSample.draws FrontendSample.full_board
           full_board_covers sample_draws_in_range).
Defined.

Lemma sample_game_over_after_growth :
  (2 <= 2)%nat /\ (10 <= 10)%Z.
Proof.
  exact (SnakeGameFacts.game_over_needs_two_segments
           FrontendSample.fatal_events FrontendSample.draws _ _ _
           sample_draws_in_range sample_fatal_play eq_refl).
Defined.

Lemma sample_finished_game_frozen :
  SnakeGame.snake (fst (fst FrontendSample.idle_final))
  = SnakeGame.snake (fst (fst FrontendSample.fatal_final))
  /\ SnakeGame.score (fst (fst FrontendSample.idle_final)) = 10%Z.
Proof.
  destruct (SnakeGameFacts.finished_game_is_frozen
              FrontendSample.idle_events
              (fst (fst FrontendSample.fatal_final))
              (fst (fst FrontendSample.idle_final))
              [] [] [3; 3]%Z [3; 3]%Z
              eq_refl eq_refl eq_refl)
    as (H1 & _ & H3 & _).
  split; [exact H1|exact H3].
Defined.

Lemma sample_ledger :
  let c := ThemeStore.paymentChannel
             (ThemeStore.visit FrontendSample.shopping
                               ThemeStore.initialStore) in
  ThemeStore.capacity c = 100%Z
  /\ (0 <= ThemeStore.balance c <= ThemeStore.capacity c)%Z
  /\ (ThemeStore.isOpen c = false -> ThemeStore.balance c = 0%Z)
  /\ (ThemeStore.isOpen c = true ->
      ThemeStore.balance c
      = (ThemeStore.capacity c
         - ThemeStore.spent (ThemeStore.transactions c))%Z).
Proof.
  exact (ThemeStoreFacts.payment_channel_ledger
           FrontendSample.shopping sample_shopping_prices).
Defined.

Lemma sample_closed_channel_sells_nothing :
  ThemeStore.purchaseTheme ThemeStore.BoardTheme "ocean" 22
    (ThemeStore.visit FrontendSample.shopping ThemeStore.initialStore)
  = (ThemeStore.visit FrontendSample.shopping ThemeStore.initialStore,
     false).
Proof.
  apply (ThemeStoreFacts.closed_channel_sells_nothing
           FrontendSample.shopping ThemeStore.BoardTheme "ocean" 22
           sample_shopping_prices).
  - reflexivity.
  - lia.
Defined.

Lemma sample_current_theme_owned :
  let s := ThemeStore.visit FrontendSample.shopping
                            ThemeStore.initialStore in
  In (ThemeStore.currentSnakeTheme s) (ThemeStore.ownedSnakeThemes s)
  /\ In (ThemeStore.currentBoardTheme s) (ThemeStore.ownedBoardThemes s).
Proof.
  exact (ThemeStoreFacts.current_theme_is_owned
           FrontendSample.shopping sample_shopping_prices).
Defined.
